(** * Funding-rate bot: the market-data aggregation core of [bot.py]

    A shallow embedding of the spot-symbol cache, the two REST funding
    fetchers (Bybit, Bitget), the two WebSocket monitors (Binance, OKX), the
    aggregator [get_all_funding_rates] and the ranking / threshold functions,
    followed by the properties established about them.

    Conventions of the embedding
    - Python [float] values are rationals ([Q]); rounding and NaN are outside
      the model.  Python [int] values are [Z].
    - A Python [dict] is an association list in insertion order (iteration
      order is observable: it decides ties in the top-5 ranking).
    - A Python [set] of symbol keys is a [gset string].
    - Decoded JSON objects are records whose members are [field]s: a member is
      absent, present but unusable (the conversion applied to it raises), or
      present with a value.
    - Effects (module-level caches, monitor state, the clock, network requests,
      [asyncio.sleep]) are threaded through a state-and-exception monad [M].
    - Logging is left out.  The reconnect loops [_run] and the Telegram and
      SQLite layers are not part of the model.  The REST fall-backs
      [get_binance_funding_rates] and [get_okx_funding_rates], which the
      aggregator never calls, and the OKX subscription handshake take the
      answers of their endpoints as arguments. *)

From Stdlib Require Import Ascii QArith Qround Qabs Qminmax ZArith Lia Lqa Sorted.
From stdpp Require Import base strings gmap list pretty.

(** ** Python string primitives *)
Module Py.

(** [s.endswith(suf)] *)
Definition endswith (s suf : string) : bool :=
  let n := String.length s in
  let m := String.length suf in
  (m <=? n)%nat && String.eqb (String.substring (n - m) m s) suf.

(** [s[:-k]] for a positive literal [k] *)
Definition drop_last (k : nat) (s : string) : string :=
  String.substring 0 (String.length s - k) s.

(** [s.split(sep)[0]] for a one-character separator *)
Fixpoint split_head (sep : ascii) (s : string) : string :=
  match s with
  | EmptyString => EmptyString
  | String c r => if Ascii.eqb c sep then EmptyString else String c (split_head sep r)
  end.

(** [sep not in s] *)
Fixpoint lacks (sep : ascii) (s : string) : bool :=
  match s with
  | EmptyString => true
  | String c r => negb (Ascii.eqb c sep) && lacks sep r
  end.

(** The f-string [f"{base}/USDT:USDT"]. *)
Definition ccxt (base : string) : string := base +:+ "/USDT:USDT".

(** Symbol derivation of the Bybit fetcher and of the Binance stream handler:
  [if not symbol.endswith("USDT"): continue], then [base = symbol[:-4]] and
  the f-string.  [None] stands for [continue]. *)
Definition usdt_suffix_key (sym : string) : option string :=
  if endswith sym "USDT" then Some (ccxt (drop_last 4 sym)) else None.

(** Symbol derivation of the Bitget fetcher: the [_UMCBL] test, then
  [pair = raw_symbol.split("_")[0]], then the same rule on [pair]. *)
Definition bitget_key (raw_symbol : string) : option string :=
  if endswith raw_symbol "_UMCBL" then usdt_suffix_key (split_head "_" raw_symbol)
  else None.

(** Symbol derivation of the OKX stream handler:
  [base = inst_id.split("-")[0]] and the f-string. *)
Definition okx_key (inst_id : string) : string := ccxt (split_head "-" inst_id).

(** A dict, in insertion order. *)
Definition dict (V : Type) : Type := list (string * V).

(** [d[k] = v]: overwrite in place, or append a new key at the end *)
Fixpoint dict_set {V} (k : string) (v : V) (d : dict V) : dict V :=
  match d with
  | [] => [(k, v)]
  | (k', v') :: r =>
      if String.eqb k' k then (k, v) :: r else (k', v') :: dict_set k v r
  end.

(** [d.get(k)] *)
Fixpoint dict_get {V} (k : string) (d : dict V) : option V :=
  match d with
  | [] => None
  | (k', v') :: r => if String.eqb k' k then Some v' else dict_get k r
  end.

Definition dict_keys {V} (d : dict V) : list string := map fst d.

End Py.
Import Py.


(** ** Decoded JSON members, exceptions *)

(** A member of a decoded JSON object, as seen by the conversion the program
    applies to it ([float(..)], [int(..)], a [str] method): absent, present
    but such that the conversion raises, or present with the converted
    value.  An element that is not an object at all behaves as one whose
    first accessed member is [Malformed]. *)
Inductive field (A : Type) : Type :=
| Missing
| Malformed
| Val (a : A).
Arguments Missing {A}.
Arguments Malformed {A}.
Arguments Val {A} a.

(** The subclasses of [Exception] that the modelled code can meet. *)
Inductive exn : Type :=
| KeyError        (* subscript of an absent key *)
| ValueError      (* float / int / str-method applied to an unusable value *)
| ClientError.    (* aiohttp: connection failure, timeout, undecodable body *)

Inductive result (A : Type) : Type :=
| Ok (a : A)
| Raise (e : exn).
Arguments Ok {A} a.
Arguments Raise {A} e.

Definition rbind {A B} (r : result A) (k : A -> result B) : result B :=
  match r with
  | Ok a => k a
  | Raise e => Raise e
  end.

Declare Scope res_scope.
Delimit Scope res_scope with res.
Notation "x <~ r ;; k" := (rbind r (fun x => k))
  (at level 100, r at next level, right associativity) : res_scope.

(** [conv(item["k"])] *)
Definition subscript {A} (f : field A) : result A :=
  match f with
  | Missing => Raise KeyError
  | Malformed => Raise ValueError
  | Val a => Ok a
  end.

(** [conv(item.get("k", d))] *)
Definition get_default {A} (d : A) (f : field A) : result A :=
  match f with
  | Missing => Ok d
  | Malformed => Raise ValueError
  | Val a => Ok a
  end.

(** [obj["k"]] where no conversion follows: only absence raises. *)
Definition subscript_opt {A} (o : option A) : result A :=
  match o with
  | Some a => Ok a
  | None => Raise KeyError
  end.

(** [for x in xs: acc = step(x, acc)], leaving the loop at the first exception *)
Fixpoint for_each {I S} (step : I -> S -> result S) (xs : list I) (acc : S) : result S :=
  match xs with
  | [] => Ok acc
  | x :: r => (acc' <~ step x acc ;; for_each step r acc')%res
  end.

Definition Qltb (a b : Q) : bool := negb (Qle_bool b a).

(** ** Data model *)

(** One instrument's current state (the dict stored under each symbol key). *)
Record FundingEntry : Type := {
  symbol : string;
  rate : Q;
  volume : Q;
  price : Q;
  next_funding : Z
}.

(** ExchangeSnapshot: symbol key to entry. *)
Definition snapshot : Type := dict FundingEntry.

Inductive exchange : Type := binance | bybit | bitget | okx.

Global Instance exchange_eq_dec : EqDecision exchange.
Proof. solve_decision. Defined.

(** *** Payloads of the public endpoints *)

(** An HTTP exchange: [session.get] raises, or a response arrives with a
    status and a body; [body = None] when [resp.json()] raises or the decoded
    value is not a JSON object. *)
Inductive response (P : Type) : Type :=
| ConnectionFailed
| Reply (status : Z) (body : option P).
Arguments ConnectionFailed {P}.
Arguments Reply {P} status body.

(** Envelope shared by Bybit ([retCode], [result.list]), Bitget and OKX
    ([code], [data]).  [env_code = None]: member absent or of another type. *)
Record envelope (C I : Type) : Type := {
  env_code : option C;
  env_items : option (list I)
}.
Arguments env_code {C I} _.
Arguments env_items {C I} _.

Record binance_spot_item : Type := {
  bn_quoteAsset : option string;
  bn_status : option string;
  bn_baseAsset : option string
}.

Record bybit_spot_item : Type := {
  by_quoteCoin : option string;
  by_baseCoin : option string
}.

Record bitget_spot_item : Type := {
  bg_quoteCoin : option string;
  bg_status : option string;
  bg_baseCoin : option string
}.

Record okx_spot_item : Type := {
  ok_quoteCcy : option string;
  ok_state : option string;
  ok_baseCcy : option string
}.

Record bybit_ticker : Type := {
  by_symbol : field string;
  by_fundingRate : field Q;
  by_turnover24h : field Q;
  by_lastPrice : field Q;
  by_nextFundingTime : field Z
}.

Record bitget_ticker : Type := {
  bg_symbol : field string;
  bg_fundingRate : field Q;
  bg_quoteVolume : field Q;
  bg_last : field Q
}.

(** What the network would answer to each request of one call. *)
Record Net : Type := {
  binance_exchangeInfo : response (option (list binance_spot_item));
  bybit_instruments_info : response (envelope Z bybit_spot_item);
  bitget_spot_symbols : response (envelope string bitget_spot_item);
  okx_spot_instruments : response (envelope string okx_spot_item);
  bybit_tickers : response (envelope Z bybit_ticker);
  bitget_tickers : response (envelope string bitget_ticker)
}.

(** *** WebSocket traffic *)

Record binance_mark_item : Type := {
  mk_s : field string;
  mk_r : field Q;
  mk_p : field Q;
  mk_T : field Z
}.

Record binance_ticker_item : Type := {
  tk_s : field string;
  tk_q : field Q
}.

(** A frame on the combined Binance stream, after [json.loads]: the
    mark-price array, the ticker array, or anything else (another stream, a
    payload that is no list, text that does not decode). *)
Inductive binance_msg : Type :=
| BnMarkPrice (data : list binance_mark_item)
| BnTicker (data : list binance_ticker_item)
| BnOther.

Record okx_funding_item : Type := {
  of_instId : field string;
  of_fundingRate : field Q;
  of_nextFundingTime : field Z
}.

Record okx_ticker_item : Type := {
  ot_instId : field string;
  ot_last : field Q;
  ot_volCcy24h : field Q
}.

Inductive okx_msg : Type :=
| OkFundingRate (data : list okx_funding_item)
| OkTickers (data : list okx_ticker_item)
| OkPing
| OkOther.

Inductive ws_msg : Type :=
| ToBinance (m : binance_msg)
| ToOKX (m : okx_msg).

(** ** The WebSocket monitors: state and message handling *)

Module BinanceState.

(** Value stored in [_mark_data]. *)
Record mark : Type := {
  mark_rate : Q;
  mark_price : Q;
  mark_next_funding : Z
}.

Record t : Type := {
  _mark_data : dict mark;
  _ticker_volume : dict Q;
  _task : bool              (* [self._task is not None] *)
}.

Definition init : t :=
  {| _mark_data := []; _ticker_volume := []; _task := false |}.

(** Body of the loop over a [!markPrice] array in [_connect]. *)
Definition on_mark_item (item : binance_mark_item) (d : dict mark) : result (dict mark) :=
  match mk_s item with
  | Missing => Ok d                              (* [not sym] *)
  | Malformed => Raise ValueError
  | Val sym =>
      if String.eqb sym "" then Ok d
      else
        match usdt_suffix_key sym with
        | None => Ok d
        | Some ccxt_symbol =>
            (r <~ get_default 0%Q (mk_r item) ;;
             p <~ get_default 0%Q (mk_p item) ;;
             T <~ get_default 0%Z (mk_T item) ;;
             Ok (dict_set ccxt_symbol
                   {| mark_rate := (r * 100)%Q; mark_price := p;
                      mark_next_funding := T |} d))%res
        end
  end.

(** Body of the loop over a [!ticker] array. *)
Definition on_ticker_item (item : binance_ticker_item) (d : dict Q) : result (dict Q) :=
  match tk_s item with
  | Missing => Ok d
  | Malformed => Raise ValueError
  | Val sym =>
      if String.eqb sym "" then Ok d
      else
        match usdt_suffix_key sym with
        | None => Ok d
        | Some ccxt_symbol =>
            (q <~ get_default 0%Q (tk_q item) ;;
             Ok (dict_set ccxt_symbol q d))%res
        end
  end.

(** A loop inside [try: ... except Exception: log]: the entries written
    before the exception stay written, the rest of the frame is dropped. *)
Fixpoint guarded_loop {I S} (step : I -> S -> result S) (xs : list I) (acc : S) : S :=
  match xs with
  | [] => acc
  | x :: r =>
      match step x acc with
      | Ok acc' => guarded_loop step r acc'
      | Raise _ => acc
      end
  end.

(** One TEXT frame handled by [_connect]. *)
Definition on_message (m : binance_msg) (st : t) : t :=
  match m with
  | BnMarkPrice data =>
      {| _mark_data := guarded_loop on_mark_item data (_mark_data st);
         _ticker_volume := _ticker_volume st;
         _task := _task st |}
  | BnTicker data =>
      {| _mark_data := _mark_data st;
         _ticker_volume := guarded_loop on_ticker_item data (_ticker_volume st);
         _task := _task st |}
  | BnOther => st
  end.

End BinanceState.

Module OKXState.

(** Value stored in [_funding_data]. *)
Record funding : Type := {
  funding_rate : Q;
  funding_next_funding : Z
}.

(** Value stored in [_ticker_data]. *)
Record ticker : Type := {
  ticker_price : Q;
  ticker_volume : Q
}.

Record t : Type := {
  _funding_data : dict funding;
  _ticker_data : dict ticker;
  _task : bool
}.

Definition init : t :=
  {| _funding_data := []; _ticker_data := []; _task := false |}.

Definition on_funding_item (item : okx_funding_item) (d : dict funding) : result (dict funding) :=
  (inst_id <~ subscript (of_instId item) ;;
   let ccxt_symbol := okx_key inst_id in
   r <~ subscript (of_fundingRate item) ;;
   T <~ subscript (of_nextFundingTime item) ;;
   Ok (dict_set ccxt_symbol
         {| funding_rate := (r * 100)%Q; funding_next_funding := T |} d))%res.

Definition on_ticker_item (item : okx_ticker_item) (d : dict ticker) : result (dict ticker) :=
  (inst_id <~ subscript (ot_instId item) ;;
   let ccxt_symbol := okx_key inst_id in
   p <~ subscript (ot_last item) ;;
   v <~ get_default 0%Q (ot_volCcy24h item) ;;
   Ok (dict_set ccxt_symbol {| ticker_price := p; ticker_volume := v |} d))%res.

(** One TEXT frame handled by [_connect]; a ping is answered by a pong and
    changes no state. *)
Definition on_message (m : okx_msg) (st : t) : t :=
  match m with
  | OkFundingRate data =>
      {| _funding_data :=
           BinanceState.guarded_loop on_funding_item data (_funding_data st);
         _ticker_data := _ticker_data st;
         _task := _task st |}
  | OkTickers data =>
      {| _funding_data := _funding_data st;
         _ticker_data :=
           BinanceState.guarded_loop on_ticker_item data (_ticker_data st);
         _task := _task st |}
  | OkPing => st
  | OkOther => st
  end.

End OKXState.

(** ** Process state and the effect monad *)

Inductive event : Type :=
| Request (url : string)      (* one HTTP request issued *)
| Sleep (seconds : Q).        (* one [asyncio.sleep] *)

(** The module-level state of the process together with its environment.
    [inbound] is what the two sockets will deliver at the coming suspension
    points, one batch per suspension; [trace] records the requests and sleeps
    performed so far, latest first. *)
Record World : Type := {
  clock : Q;
  SPOT_SYMBOL_CACHE : exchange -> gset string;
  SPOT_SYMBOL_LAST_FETCH : exchange -> Q;
  binance_monitor : BinanceState.t;
  okx_monitor : OKXState.t;
  inbound : list (list ws_msg);
  trace : list event
}.

Definition initial_world (now : Q) (incoming : list (list ws_msg)) : World :=
  {| clock := now;
     SPOT_SYMBOL_CACHE := fun _ => ∅;
     SPOT_SYMBOL_LAST_FETCH := fun _ => 0%Q;
     binance_monitor := BinanceState.init;
     okx_monitor := OKXState.init;
     inbound := incoming;
     trace := [] |}.

Definition with_clock (t : Q) (w : World) : World :=
  {| clock := t;
     SPOT_SYMBOL_CACHE := SPOT_SYMBOL_CACHE w;
     SPOT_SYMBOL_LAST_FETCH := SPOT_SYMBOL_LAST_FETCH w;
     binance_monitor := binance_monitor w;
     okx_monitor := okx_monitor w;
     inbound := inbound w;
     trace := trace w |}.

Definition with_spot (ex : exchange) (symbols : gset string) (now : Q) (w : World) : World :=
  {| clock := clock w;
     SPOT_SYMBOL_CACHE := fun e => if decide (e = ex) then symbols else SPOT_SYMBOL_CACHE w e;
     SPOT_SYMBOL_LAST_FETCH := fun e => if decide (e = ex) then now else SPOT_SYMBOL_LAST_FETCH w e;
     binance_monitor := binance_monitor w;
     okx_monitor := okx_monitor w;
     inbound := inbound w;
     trace := trace w |}.

Definition with_binance (m : BinanceState.t) (w : World) : World :=
  {| clock := clock w;
     SPOT_SYMBOL_CACHE := SPOT_SYMBOL_CACHE w;
     SPOT_SYMBOL_LAST_FETCH := SPOT_SYMBOL_LAST_FETCH w;
     binance_monitor := m;
     okx_monitor := okx_monitor w;
     inbound := inbound w;
     trace := trace w |}.

Definition with_okx (m : OKXState.t) (w : World) : World :=
  {| clock := clock w;
     SPOT_SYMBOL_CACHE := SPOT_SYMBOL_CACHE w;
     SPOT_SYMBOL_LAST_FETCH := SPOT_SYMBOL_LAST_FETCH w;
     binance_monitor := binance_monitor w;
     okx_monitor := m;
     inbound := inbound w;
     trace := trace w |}.

Definition with_inbound (l : list (list ws_msg)) (w : World) : World :=
  {| clock := clock w;
     SPOT_SYMBOL_CACHE := SPOT_SYMBOL_CACHE w;
     SPOT_SYMBOL_LAST_FETCH := SPOT_SYMBOL_LAST_FETCH w;
     binance_monitor := binance_monitor w;
     okx_monitor := okx_monitor w;
     inbound := l;
     trace := trace w |}.

Definition with_event (e : event) (w : World) : World :=
  {| clock := clock w;
     SPOT_SYMBOL_CACHE := SPOT_SYMBOL_CACHE w;
     SPOT_SYMBOL_LAST_FETCH := SPOT_SYMBOL_LAST_FETCH w;
     binance_monitor := binance_monitor w;
     okx_monitor := okx_monitor w;
     inbound := inbound w;
     trace := e :: trace w |}.

(** A frame reaches a monitor only if its receiving task has been created. *)
Definition receive (m : ws_msg) (w : World) : World :=
  match m with
  | ToBinance b =>
      if BinanceState._task (binance_monitor w)
      then with_binance (BinanceState.on_message b (binance_monitor w)) w
      else w
  | ToOKX o =>
      if OKXState._task (okx_monitor w)
      then with_okx (OKXState.on_message o (okx_monitor w)) w
      else w
  end.

(** What the receiving tasks do while the caller is suspended at an [await]:
    they consume the next batch of inbound frames. *)
Definition background (w : World) : World :=
  match inbound w with
  | [] => w
  | batch :: rest => fold_left (fun w' m => receive m w') batch (with_inbound rest w)
  end.

(** Computations: read the network oracle, transform the world, return or raise. *)
Definition M (A : Type) : Type := Net -> World -> result A * World.

Definition ret {A} (a : A) : M A := fun _ w => (Ok a, w).

Definition bind {A B} (m : M A) (k : A -> M B) : M B :=
  fun net w =>
    match m net w with
    | (Ok a, w') => k a net w'
    | (Raise e, w') => (Raise e, w')
    end.

Declare Scope m_scope.
Delimit Scope m_scope with M.
Notation "x <- m ;; k" := (bind m (fun x => k))
  (at level 100, m at next level, right associativity) : m_scope.
Notation "m ;;; k" := (bind m (fun _ => k))
  (at level 100, right associativity) : m_scope.

(** [try: body except Exception: handler]; the world is not rolled back. *)
Definition try_except {A} (body : M A) (handler : exn -> M A) : M A :=
  fun net w =>
    match body net w with
    | (Ok a, w') => (Ok a, w')
    | (Raise e, w') => handler e net w'
    end.

Definition lift {A} (r : result A) : M A := fun _ w => (r, w).

Definition get_world : M World := fun _ w => (Ok w, w).

Definition modify (f : World -> World) : M unit := fun _ w => (Ok tt, f w).

(** [time.time()] *)
Definition time_time : M Q := fun _ w => (Ok (clock w), w).

(** [await asyncio.sleep(d)] *)
Definition asyncio_sleep (d : Q) : M unit :=
  fun _ w => (Ok tt, background (with_clock (clock w + d)%Q (with_event (Sleep d) w))).

(** [async with session.get(url) as resp]: one request, one suspension. *)
Definition session_get {P} (url : string) (endpoint : Net -> response P) : M (Z * option P) :=
  fun net w =>
    let w' := background (with_event (Request url) w) in
    match endpoint net with
    | ConnectionFailed => (Raise ClientError, w')
    | Reply status body => (Ok (status, body), w')
    end.

(** [await resp.json()] *)
Definition resp_json {P} (resp : Z * option P) : M P :=
  match snd resp with
  | Some data => ret data
  | None => lift (Raise ClientError)
  end.

(** [asyncio.gather] over the awaitables [ms]: the results in the order of
    [ms]; the first exception is propagated to the awaiting caller.  The
    awaitables are run one after the other: the four collectors work on
    disjoint parts of the state, so their interleaving is not observable in
    their results. *)
Fixpoint gather {A} (ms : list (M A)) : M (list A) :=
  match ms with
  | [] => ret []
  | m :: r => (a <- m ;; l <- gather r ;; ret (a :: l))%M
  end.

(** ** Spot-symbol cache *)

Definition SPOT_SYMBOL_TTL : Q := (60 * 60)%Q.

(** The body shared by the four [get_*_spot_symbols] functions; [collect]
    is the exchange-specific construction of [symbols] from the decoded
    listing. *)
Definition spot_symbols_with {P : Type} (ex : exchange) (url : string)
    (endpoint : Net -> response P) (collect : P -> result (gset string)) : M (gset string) :=
  (now <- time_time ;;
   w <- get_world ;;
   if bool_decide (SPOT_SYMBOL_CACHE w ex ≠ ∅)
      && Qltb (now - SPOT_SYMBOL_LAST_FETCH w ex) SPOT_SYMBOL_TTL
   then ret (SPOT_SYMBOL_CACHE w ex)
   else
     try_except
       (resp <- session_get url endpoint ;;
        data <- resp_json resp ;;
        symbols <- lift (collect data) ;;
        modify (with_spot ex symbols now) ;;;
        ret symbols)
       (fun _ => w' <- get_world ;; ret (SPOT_SYMBOL_CACHE w' ex)))%M.

Definition binance_spot_step (s : binance_spot_item) (symbols : gset string) : result (gset string) :=
  (quote <~ subscript_opt (bn_quoteAsset s) ;;
   if String.eqb quote "USDT" then
     status <~ subscript_opt (bn_status s) ;;
     if String.eqb status "TRADING" then
       base <~ subscript_opt (bn_baseAsset s) ;;
       Ok ({[ ccxt base ]} ∪ symbols)
     else Ok symbols
   else Ok symbols)%res.

Definition binance_spot_collect (data : option (list binance_spot_item)) : result (gset string) :=
  (l <~ subscript_opt data ;; for_each binance_spot_step l ∅)%res.

Definition get_binance_spot_symbols : M (gset string) :=
  spot_symbols_with binance "https://api.binance.com/api/v3/exchangeInfo"
    binance_exchangeInfo binance_spot_collect.

Definition bybit_spot_step (s : bybit_spot_item) (symbols : gset string) : result (gset string) :=
  (quote <~ subscript_opt (by_quoteCoin s) ;;
   if String.eqb quote "USDT" then
     base <~ subscript_opt (by_baseCoin s) ;;
     Ok ({[ ccxt base ]} ∪ symbols)
   else Ok symbols)%res.

Definition bybit_spot_collect (data : envelope Z bybit_spot_item) : result (gset string) :=
  match env_code data with
  | Some 0%Z => (l <~ subscript_opt (env_items data) ;; for_each bybit_spot_step l ∅)%res
  | _ => Ok ∅
  end.

Definition get_bybit_spot_symbols : M (gset string) :=
  spot_symbols_with bybit "https://api.bybit.com/v5/market/instruments-info?category=spot"
    bybit_instruments_info bybit_spot_collect.

Definition bitget_spot_step (s : bitget_spot_item) (symbols : gset string) : result (gset string) :=
  (quote <~ subscript_opt (bg_quoteCoin s) ;;
   if String.eqb quote "USDT" then
     status <~ subscript_opt (bg_status s) ;;
     if String.eqb status "online" then
       base <~ subscript_opt (bg_baseCoin s) ;;
       Ok ({[ ccxt base ]} ∪ symbols)
     else Ok symbols
   else Ok symbols)%res.

Definition code_is (expected : string) (code : option string) : bool :=
  match code with
  | Some c => String.eqb c expected
  | None => false
  end.

Definition bitget_spot_collect (data : envelope string bitget_spot_item) : result (gset string) :=
  if code_is "00000" (env_code data)
  then (l <~ subscript_opt (env_items data) ;; for_each bitget_spot_step l ∅)%res
  else Ok ∅.

Definition get_bitget_spot_symbols : M (gset string) :=
  spot_symbols_with bitget "https://api.bitget.com/api/v2/spot/public/symbols"
    bitget_spot_symbols bitget_spot_collect.

Definition okx_spot_step (s : okx_spot_item) (symbols : gset string) : result (gset string) :=
  (quote <~ subscript_opt (ok_quoteCcy s) ;;
   if String.eqb quote "USDT" then
     state <~ subscript_opt (ok_state s) ;;
     if String.eqb state "live" then
       base <~ subscript_opt (ok_baseCcy s) ;;
       Ok ({[ ccxt base ]} ∪ symbols)
     else Ok symbols
   else Ok symbols)%res.

Definition okx_spot_collect (data : envelope string okx_spot_item) : result (gset string) :=
  if code_is "0" (env_code data)
  then (l <~ subscript_opt (env_items data) ;; for_each okx_spot_step l ∅)%res
  else Ok ∅.

Definition get_okx_spot_symbols : M (gset string) :=
  spot_symbols_with okx "https://www.okx.com/api/v5/public/instruments?instType=SPOT"
    okx_spot_instruments okx_spot_collect.

(** The spot getter of an exchange. *)
Definition get_spot_symbols (ex : exchange) : M (gset string) :=
  match ex with
  | binance => get_binance_spot_symbols
  | bybit => get_bybit_spot_symbols
  | bitget => get_bitget_spot_symbols
  | okx => get_okx_spot_symbols
  end.

(** ** REST funding fetchers *)

(** [spot_symbols] as the collectors bind it: the exchange's spot universe, or
    the empty set when the filter is off. *)
Definition spot_universe (use_spot_filter : bool) (getter : M (gset string)) : M (gset string) :=
  if use_spot_filter then getter else ret ∅.

(** [use_spot_filter and ccxt_symbol not in spot_symbols] *)
Definition filtered_out (use_spot_filter : bool) (spot_symbols : gset string) (ccxt_symbol : string) : bool :=
  use_spot_filter && negb (bool_decide (ccxt_symbol ∈ spot_symbols)).

Definition bybit_item_step (use_spot_filter : bool) (spot_symbols : gset string)
    (item : bybit_ticker) (res : snapshot) : result snapshot :=
  (sym <~ subscript (by_symbol item) ;;
   match usdt_suffix_key sym with
   | None => Ok res
   | Some ccxt_symbol =>
       if filtered_out use_spot_filter spot_symbols ccxt_symbol then Ok res
       else
         r <~ subscript (by_fundingRate item) ;;
         v <~ subscript (by_turnover24h item) ;;
         p <~ subscript (by_lastPrice item) ;;
         T <~ subscript (by_nextFundingTime item) ;;
         Ok (dict_set ccxt_symbol
               {| symbol := ccxt_symbol; rate := (r * 100)%Q; volume := v;
                  price := p; next_funding := T |} res)
   end)%res.

Definition get_bybit_funding_rates (use_spot_filter : bool) : M snapshot :=
  try_except
    (spot_symbols <- spot_universe use_spot_filter get_bybit_spot_symbols ;;
     resp <- session_get "https://api.bybit.com/v5/market/tickers?category=linear" bybit_tickers ;;
     if (fst resp =? 200)%Z then
       data <- resp_json resp ;;
       match env_code data with
       | Some 0%Z =>
           lift (l <~ subscript_opt (env_items data) ;;
                 for_each (bybit_item_step use_spot_filter spot_symbols) l [])%res
       | _ => ret []
       end
     else ret [])%M
    (fun _ => ret []).

Definition bitget_item_step (use_spot_filter : bool) (spot_symbols : gset string)
    (item : bitget_ticker) (res : snapshot) : result snapshot :=
  (raw_symbol <~ subscript (bg_symbol item) ;;
   match bitget_key raw_symbol with
   | None => Ok res
   | Some ccxt_symbol =>
       if filtered_out use_spot_filter spot_symbols ccxt_symbol then Ok res
       else
         r <~ get_default 0%Q (bg_fundingRate item) ;;
         v <~ get_default 0%Q (bg_quoteVolume item) ;;
         p <~ subscript (bg_last item) ;;
         Ok (dict_set ccxt_symbol
               {| symbol := ccxt_symbol; rate := (r * 100)%Q; volume := v;
                  price := p; next_funding := 0 |} res)
   end)%res.

Definition get_bitget_funding_rates (use_spot_filter : bool) : M snapshot :=
  try_except
    (spot_symbols <- spot_universe use_spot_filter get_bitget_spot_symbols ;;
     resp <- session_get "https://api.bitget.com/api/mix/v1/market/tickers?productType=umcbl" bitget_tickers ;;
     if (fst resp =? 200)%Z then
       data <- resp_json resp ;;
       if code_is "00000" (env_code data) then
         lift (l <~ subscript_opt (env_items data) ;;
               for_each (bitget_item_step use_spot_filter spot_symbols) l [])%res
       else ret []
     else ret [])%M
    (fun _ => ret []).

(** ** Streaming monitors: [start] and [get_snapshot] *)

Module BinanceWebSocketMonitor.
Import BinanceState.

(** [start]: create the receiving task unless it exists. *)
Definition start : M unit :=
  modify (fun w =>
    let mon := binance_monitor w in
    if _task mon then w
    else with_binance {| _mark_data := _mark_data mon;
                         _ticker_volume := _ticker_volume mon;
                         _task := true |} w).

Definition snapshot_step (use_spot_filter : bool) (spot_symbols : gset string)
    (ticker_volume : dict Q) (snap : snapshot) (kv : string * mark) : snapshot :=
  let '(sym, mk) := kv in
  if filtered_out use_spot_filter spot_symbols sym then snap
  else dict_set sym
         {| symbol := sym;
            rate := mark_rate mk;
            volume := default 0%Q (dict_get sym ticker_volume);
            price := mark_price mk;
            next_funding := mark_next_funding mk |} snap.

Definition get_snapshot (use_spot_filter : bool) : M snapshot :=
  (start ;;;
   spot_symbols <- spot_universe use_spot_filter get_binance_spot_symbols ;;
   w <- get_world ;;
   let mon := binance_monitor w in
   ret (fold_left (snapshot_step use_spot_filter spot_symbols (_ticker_volume mon))
          (_mark_data mon) []))%M.

End BinanceWebSocketMonitor.

Module OKXWebSocketMonitor.
Import OKXState.

Definition start : M unit :=
  modify (fun w =>
    let mon := okx_monitor w in
    if _task mon then w
    else with_okx {| _funding_data := _funding_data mon;
                     _ticker_data := _ticker_data mon;
                     _task := true |} w).

Definition snapshot_step (use_spot_filter : bool) (spot_symbols : gset string)
    (ticker_data : dict ticker) (snap : snapshot) (kv : string * funding) : snapshot :=
  let '(sym, fd) := kv in
  if filtered_out use_spot_filter spot_symbols sym then snap
  else
    let tk := dict_get sym ticker_data in
    dict_set sym
      {| symbol := sym;
         rate := funding_rate fd;
         volume := from_option ticker_volume 0%Q tk;
         price := from_option ticker_price 0%Q tk;
         next_funding := funding_next_funding fd |} snap.

Definition get_snapshot (use_spot_filter : bool) : M snapshot :=
  (start ;;;
   w0 <- get_world ;;
   (match _funding_data (okx_monitor w0) with
    | [] => asyncio_sleep 3
    | _ :: _ => ret tt
    end) ;;;
   spot_symbols <- spot_universe use_spot_filter get_okx_spot_symbols ;;
   w <- get_world ;;
   let mon := okx_monitor w in
   ret (fold_left (snapshot_step use_spot_filter spot_symbols (_ticker_data mon))
          (_funding_data mon) []))%M.

End OKXWebSocketMonitor.

(** ** Aggregator *)

Section Aggregator.

(** The four collector coroutines the aggregator awaits. *)
Variable collector : exchange -> bool -> M snapshot.

(** The list [tasks], built by the four [if '...' in exchanges] tests. *)
Definition tasks_for (exchanges : list string) (use_spot_filter : bool)
    : list (string * M snapshot) :=
  (if bool_decide ("bybit" ∈ exchanges)
   then [("bybit", collector bybit use_spot_filter)] else [])
  ++ (if bool_decide ("binance" ∈ exchanges)
      then [("binance", collector binance use_spot_filter)] else [])
  ++ (if bool_decide ("bitget" ∈ exchanges)
      then [("bitget", collector bitget use_spot_filter)] else [])
  ++ (if bool_decide ("okx" ∈ exchanges)
      then [("okx", collector okx use_spot_filter)] else []).

(** [results[exch] = responses[idx]] for every task, in order. *)
Definition merge_results (names : list string) (responses : list snapshot) : dict snapshot :=
  fold_left (fun results nr => dict_set (fst nr) (snd nr) results)
    (combine names responses) [].

Definition get_all_funding_rates_with (exchanges : list string) (use_spot_filter : bool)
    : M (dict snapshot) :=
  let tasks := tasks_for exchanges use_spot_filter in
  match tasks with
  | [] => ret []
  | _ :: _ =>
      (responses <- gather (map snd tasks) ;;
       ret (merge_results (map fst tasks) responses))%M
  end.

End Aggregator.

(** The collectors the program wires in: REST for Bybit and Bitget, the
    module-level monitors for Binance and OKX. *)
Definition collectors (ex : exchange) (use_spot_filter : bool) : M snapshot :=
  match ex with
  | bybit => get_bybit_funding_rates use_spot_filter
  | binance => BinanceWebSocketMonitor.get_snapshot use_spot_filter
  | bitget => get_bitget_funding_rates use_spot_filter
  | okx => OKXWebSocketMonitor.get_snapshot use_spot_filter
  end.

Definition get_all_funding_rates : list string -> bool -> M (dict snapshot) :=
  get_all_funding_rates_with collectors.

Definition exchange_id (ex : exchange) : string :=
  match ex with
  | binance => "binance"
  | bybit => "bybit"
  | bitget => "bitget"
  | okx => "okx"
  end.

(** ** Ranking *)

(** [sorted(l, key=key, reverse=True)]: a stable sort into non-increasing
    keys.  It is written as an insertion sort; every stable sort returns the
    same list. *)
Fixpoint insert_desc {A} (key : A -> Q) (x : A) (l : list A) : list A :=
  match l with
  | [] => [x]
  | y :: r => if Qltb (key x) (key y) then y :: insert_desc key x r else x :: y :: r
  end.

Definition sorted_reverse {A} (key : A -> Q) (l : list A) : list A :=
  fold_right (insert_desc key) [] l.

(** [(data['rate'] > 0) == positive] *)
Definition sign_matches (positive : bool) (r : Q) : bool :=
  Bool.eqb (Qltb 0 r) positive.

Definition get_top_funding_rates (funding_rates : snapshot) (positive : bool)
    : list (string * Q) :=
  let filtered :=
    map (fun kv => (fst kv, rate (snd kv)))
      (List.filter (fun kv => sign_matches positive (rate (snd kv))) funding_rates) in
  let sorted_rates := sorted_reverse (fun x => Qabs (snd x)) filtered in
  firstn 5 sorted_rates.

(** ** Threshold alerts *)

Record UserSettings : Type := {
  threshold : Q;
  volume_filter : Q;
  exchanges : list string;
  active : bool;
  spot_filter : bool
}.

Record Alert : Type := {
  alert_exchange : string;
  alert_symbol : string;
  alert_coin_name : string;
  alert_rate : Q;
  alert_price : Q;
  alert_volume : Q;
  alert_countdown : string
}.

(** [max(0, x)] *)
Definition max0 (x : Q) : Q := if Qle_bool x 0 then 0%Q else x.

(** [max(0, next_funding / 1000 - time.time())] *)
Definition remaining_seconds (next : Z) (now : Q) : Q :=
  max0 (inject_Z next / 1000 - now)%Q.

(** [int(remaining // 3600)] *)
Definition hours_of (remaining : Q) : Z := Qfloor (remaining / 3600).

(** [int((remaining % 3600) // 60)] *)
Definition minutes_of (remaining : Q) : Z :=
  Qfloor ((remaining - 3600 * inject_Z (Qfloor (remaining / 3600))) / 60).

(** The f-string with the hour and minute suffixes. *)
Definition render_countdown (hours minutes : Z) : string :=
  pretty hours +:+ "시간 " +:+ pretty minutes +:+ "분".

(** The text used when no next-funding time is known. *)
Definition no_information : string := "정보 없음".

Definition countdown_of (next : Z) (now : Q) : string :=
  if (next =? 0)%Z then no_information
  else
    let remaining := remaining_seconds next now in
    render_countdown (hours_of remaining) (minutes_of remaining).

(** The test guarding an alert. *)
Definition crosses (settings : UserSettings) (data : FundingEntry) : bool :=
  Qle_bool (threshold settings) (Qabs (rate data))
  && Qle_bool (volume_filter settings) (volume data).

Definition alert_for (now : Q) (exchange_name : string) (kv : string * FundingEntry) : Alert :=
  let '(sym, data) := kv in
  {| alert_exchange := exchange_name;
     alert_symbol := sym;
     alert_coin_name := split_head "/" sym;
     alert_rate := rate data;
     alert_price := price data;
     alert_volume := volume data;
     alert_countdown := countdown_of (next_funding data) now |}.

(** The alerts of one exchange's snapshot (the inner loop). *)
Definition snapshot_alerts (settings : UserSettings) (now : Q) (exchange_name : string)
    (funding_rates : snapshot) : list Alert :=
  map (alert_for now exchange_name)
    (List.filter (fun kv => crosses settings (snd kv)) funding_rates).

(** The list [alerts] after the two nested loops. *)
Definition threshold_alerts (settings : UserSettings) (now : Q)
    (all_rates : dict snapshot) : list Alert :=
  flat_map (fun er => snapshot_alerts settings now (fst er) (snd er)) all_rates.

(** [check_threshold_alerts] up to the list [alerts]; sending the message is
    outside the model. *)
Definition check_threshold_alerts (settings : UserSettings) : M (list Alert) :=
  if negb (active settings) then ret []
  else
    (all_rates <- get_all_funding_rates (exchanges settings) (spot_filter settings) ;;
     now <- time_time ;;
     ret (threshold_alerts settings now all_rates))%M.

(** ** Vocabulary of the statements *)

(** A snapshot entry is canonical when it is stored under its own symbol and
    that symbol has the [BASE/USDT:USDT] form. *)
Definition canonical_entry (kv : string * FundingEntry) : Prop :=
  symbol (snd kv) = fst kv /\ endswith (fst kv) "/USDT:USDT" = true.

Definition canonical_key {V} (kv : string * V) : Prop :=
  endswith (fst kv) "/USDT:USDT" = true.

(** A base asset ticker contains neither of the separators the exchanges use
    in their own spellings. *)
Definition plain_base (base : string) : Prop :=
  lacks "_" base = true /\ lacks "-" base = true.

(** Number of requests to [url] recorded in a trace. *)
Definition requests_to (url : string) (tr : list event) : nat :=
  length (List.filter (fun e => match e with
                                | Request u => String.eqb u url
                                | Sleep _ => false
                                end) tr).

(** Number of sleeps recorded in a trace. *)
Definition sleeps_in (tr : list event) : nat :=
  length (List.filter (fun e => match e with
                                | Request _ => false
                                | Sleep _ => true
                                end) tr).

Definition no_raise {A} (r : result A) : Prop :=
  match r with
  | Ok _ => True
  | Raise _ => False
  end.

(** Awaiting the named tasks one after the other, each on the world the
    previous one left, yields these named snapshots. *)
Inductive Awaited (net : Net) :
    list (string * M snapshot) -> World -> list (string * snapshot) -> World -> Prop :=
| Awaited_nil w : Awaited net [] w [] w
| Awaited_cons name m tasks w s w1 rs w2 :
    m net w = (Ok s, w1) ->
    Awaited net tasks w1 rs w2 ->
    Awaited net ((name, m) :: tasks) w ((name, s) :: rs) w2.


(** The ways in which a funding request fails as a whole: no connection, a
    status other than 200, a body that does not decode, a listing that is
    missing, or an instrument on which the loop raises. *)
Inductive whole_call_error {C I : Type} (code_ok : option C -> bool)
    (loop : list I -> result snapshot) : response (envelope C I) -> Prop :=
| error_connection :
    whole_call_error code_ok loop ConnectionFailed
| error_status status body :
    status <> 200%Z ->
    whole_call_error code_ok loop (Reply status body)
| error_body :
    whole_call_error code_ok loop (Reply 200 None)
| error_listing env :
    code_ok (env_code env) = true -> env_items env = None ->
    whole_call_error code_ok loop (Reply 200 (Some env))
| error_item env l e :
    code_ok (env_code env) = true -> env_items env = Some l ->
    loop l = Raise e ->
    whole_call_error code_ok loop (Reply 200 (Some env)).

Definition bybit_code_ok (c : option Z) : bool :=
  match c with
  | Some 0%Z => true
  | _ => false
  end.

Definition bybit_tickers_url : string :=
  "https://api.bybit.com/v5/market/tickers?category=linear".

Definition bitget_tickers_url : string :=
  "https://api.bitget.com/api/mix/v1/market/tickers?productType=umcbl".

(** The snapshot a funding fetcher hands back for a given answer of the
    tickers endpoint, [loop] being its loop over the listing. *)
Definition snapshot_of {C I : Type} (code_ok : option C -> bool)
    (loop : list I -> result snapshot) (r : response (envelope C I)) : snapshot :=
  match r with
  | Reply status (Some env) =>
      if (status =? 200)%Z && code_ok (env_code env) then
        match env_items env with
        | Some l => match loop l with
                    | Ok s => s
                    | Raise _ => []
                    end
        | None => []
        end
      else []
  | _ => []
  end.

(** The exchange identifiers the aggregator knows, in the order of its tests. *)
Definition known_exchanges : list string := ["bybit"; "binance"; "bitget"; "okx"].

(** The key under which a fetcher files an instrument of the listing, if it
    files it at all. *)
Definition bybit_key_of (item : bybit_ticker) : option string :=
  match by_symbol item with
  | Val sym => usdt_suffix_key sym
  | _ => None
  end.

Definition bitget_key_of (item : bitget_ticker) : option string :=
  match bg_symbol item with
  | Val raw_symbol => bitget_key raw_symbol
  | _ => None
  end.

(** The listing a fetcher loops over: present when the endpoint answers 200
    with a decodable body, a success code and the list member. *)
Definition listing {C I : Type} (code_ok : option C -> bool)
    (r : response (envelope C I)) : option (list I) :=
  match r with
  | Reply status (Some env) =>
      if (status =? 200)%Z && code_ok (env_code env) then env_items env else None
  | _ => None
  end.

(** A loop body that, when it does not raise, either leaves the snapshot as
    it is (no key, or key filtered out) or files an entry under the
    instrument's key, the entry naming that key as its symbol. *)
Definition keyed_step {I : Type} (key_of : I -> option string) (flag : bool)
    (spot : gset string) (step : I -> snapshot -> result snapshot) : Prop :=
  forall item acc acc',
    step item acc = Ok acc' ->
    match key_of item with
    | None => acc' = acc
    | Some k =>
        if filtered_out flag spot k then acc' = acc
        else exists e, symbol e = k /\ acc' = dict_set k e acc
    end.

(** The entry points of the subsystem. *)
Inductive entry_point : forall A : Type, M A -> Prop :=
| ep_spot ex : entry_point _ (get_spot_symbols ex)
| ep_collector ex flag : entry_point _ (collectors ex flag)
| ep_all exs flag : entry_point _ (get_all_funding_rates exs flag)
| ep_alerts settings : entry_point _ (check_threshold_alerts settings).

(** The worlds the process can be in: it starts with empty caches and idle
    monitors; time passes and frames queue up on the sockets; the receiving
    tasks run while the process idles; an entry point is called. *)
Inductive reachable : World -> Prop :=
| reach_init now incoming : reachable (initial_world now incoming)
| reach_time t w : reachable w -> reachable (with_clock t w)
| reach_inbound l w : reachable w -> reachable (with_inbound l w)
| reach_idle w : reachable w -> reachable (background w)
| reach_call A (m : M A) net w :
    entry_point A m -> reachable w -> reachable (snd (m net w)).

(** The invariant of the monitors' state. *)
Definition monitors_canonical (w : World) : Prop :=
  Forall canonical_key (BinanceState._mark_data (binance_monitor w))
  /\ Forall canonical_key (OKXState._funding_data (okx_monitor w)).

(** Freshness test of the spot cache: a non-empty set younger than the TTL. *)
Definition spot_fresh (ex : exchange) (w : World) : bool :=
  bool_decide (SPOT_SYMBOL_CACHE w ex ≠ ∅)
  && Qltb (clock w - SPOT_SYMBOL_LAST_FETCH w ex) SPOT_SYMBOL_TTL.

Definition spot_url (ex : exchange) : string :=
  match ex with
  | binance => "https://api.binance.com/api/v3/exchangeInfo"
  | bybit => "https://api.bybit.com/v5/market/instruments-info?category=spot"
  | bitget => "https://api.bitget.com/api/v2/spot/public/symbols"
  | okx => "https://www.okx.com/api/v5/public/instruments?instType=SPOT"
  end.

(** What a decoded listing is turned into, if the response carries one. *)
Definition collected {P} (collect : P -> result (gset string)) (r : response P)
    : option (gset string) :=
  match r with
  | Reply _ (Some data) =>
      match collect data with
      | Ok symbols => Some symbols
      | Raise _ => None
      end
  | _ => None
  end.

(** Outcome of the refresh an exchange's getter would attempt against [net]:
    the set it would store, or [None] when an exception is raised on the
    way (no connection, undecodable body, missing member). *)
Definition spot_fetch (ex : exchange) (net : Net) : option (gset string) :=
  match ex with
  | binance => collected binance_spot_collect (binance_exchangeInfo net)
  | bybit => collected bybit_spot_collect (bybit_instruments_info net)
  | bitget => collected bitget_spot_collect (bitget_spot_symbols net)
  | okx => collected okx_spot_collect (okx_spot_instruments net)
  end.

(** A computation keeps an invariant of the world. *)
Definition preserves (I : World -> Prop) {A} (m : M A) : Prop :=
  forall net w, I w -> I (snd (m net w)).

(** A computation returns to its caller, whatever the network and the world. *)
Definition never_raises {A} (m : M A) : Prop :=
  forall net w, no_raise (fst (m net w)).

(** *** Sample data for the concrete instances *)

Definition no_connection {P} : response P := ConnectionFailed.

(** Every endpoint unreachable. *)
Definition net_down : Net :=
  {| binance_exchangeInfo := no_connection;
     bybit_instruments_info := no_connection;
     bitget_spot_symbols := no_connection;
     okx_spot_instruments := no_connection;
     bybit_tickers := no_connection;
     bitget_tickers := no_connection |}.

Definition sample_bybit_ticker (sym : string) (r : Q) : bybit_ticker :=
  {| by_symbol := Val sym; by_fundingRate := Val r; by_turnover24h := Val 2000000%Q;
     by_lastPrice := Val 65000%Q; by_nextFundingTime := Val 7384000%Z |}.

Definition sample_bitget_ticker (sym : string) (r : Q) : bitget_ticker :=
  {| bg_symbol := Val sym; bg_fundingRate := Val r; bg_quoteVolume := Val 2000000%Q;
     bg_last := Val 65000%Q |}.

(** Bybit lists BTC on spot and BTC, ETH as linear perpetuals; Bitget has no
    spot listing reachable but lists BTC as a perpetual. *)
Definition net_sample : Net :=
  {| binance_exchangeInfo := no_connection;
     bybit_instruments_info :=
       Reply 200 (Some {| env_code := Some 0%Z;
                          env_items := Some [ {| by_quoteCoin := Some "USDT";
                                                 by_baseCoin := Some "BTC" |} ] |});
     bitget_spot_symbols := no_connection;
     okx_spot_instruments := no_connection;
     bybit_tickers :=
       Reply 200 (Some {| env_code := Some 0%Z;
                          env_items := Some [ sample_bybit_ticker "BTCUSDT" (1 # 10000);
                                              sample_bybit_ticker "ETHUSDT" (-15 # 10000) ] |});
     bitget_tickers :=
       Reply 200 (Some {| env_code := Some "00000";
                          env_items := Some [ sample_bitget_ticker "BTCUSDT_UMCBL" (2 # 10000) ] |}) |}.


(** Bybit answers the spot listing with a non-zero [retCode]. *)
Definition net_bybit_error_code : Net :=
  {| binance_exchangeInfo := no_connection;
     bybit_instruments_info :=
       Reply 200 (Some {| env_code := Some 10006%Z; env_items := None |});
     bitget_spot_symbols := no_connection;
     okx_spot_instruments := no_connection;
     bybit_tickers := no_connection;
     bitget_tickers := no_connection |}.

(** A Bybit ticker whose funding rate is not a number ([float] raises on it);
    every other member is in order. *)
Definition unparsed_bybit_ticker (sym : string) : bybit_ticker :=
  {| by_symbol := Val sym; by_fundingRate := Malformed; by_turnover24h := Val 2000000%Q;
     by_lastPrice := Val 3000%Q; by_nextFundingTime := Val 7384000%Z |}.

(** The same for Bitget. *)
Definition unparsed_bitget_ticker (sym : string) : bitget_ticker :=
  {| bg_symbol := Val sym; bg_fundingRate := Malformed; bg_quoteVolume := Val 2000000%Q;
     bg_last := Val 3000%Q |}.

(** The two tickers endpoints answer with the given listings under a success
    code; no spot listing is reachable. *)
Definition net_with_tickers (by_list : list bybit_ticker) (bg_list : list bitget_ticker) : Net :=
  {| binance_exchangeInfo := no_connection;
     bybit_instruments_info := no_connection;
     bitget_spot_symbols := no_connection;
     okx_spot_instruments := no_connection;
     bybit_tickers := Reply 200 (Some {| env_code := Some 0%Z; env_items := Some by_list |});
     bitget_tickers :=
       Reply 200 (Some {| env_code := Some "00000"; env_items := Some bg_list |}) |}.

(** A snapshot with AAA at rate zero and BBB at rate -0.01. *)
Definition snapshot_zero_and_negative : snapshot :=
  [ ("AAA/USDT:USDT",
     {| symbol := "AAA/USDT:USDT"; rate := 0; volume := 1; price := 1; next_funding := 0 |});
    ("BBB/USDT:USDT",
     {| symbol := "BBB/USDT:USDT"; rate := - (1 # 100); volume := 1; price := 1;
        next_funding := 0 |}) ].

(** The process after one successful Bybit spot refresh at time 0. *)
Definition world_bybit_cached : World :=
  snd (get_bybit_spot_symbols net_sample (initial_world 0 [])).

(** A mark-price frame for BTCUSDT: funding fraction 0.0005, price 65000. *)
Definition sample_mark_frame : ws_msg :=
  ToBinance (BnMarkPrice [ {| mk_s := Val "BTCUSDT"; mk_r := Val (5 # 10000)%Q;
                              mk_p := Val 65000%Q; mk_T := Val 7384000%Z |} ]).

(** The process after a first Binance snapshot request (which creates the
    receiving task) and the arrival of [sample_mark_frame]. *)
Definition world_binance_streaming : World :=
  background
    (snd (collectors binance false net_down (initial_world 0 [[sample_mark_frame]]))).

(** *** Statements of the specification that do not hold as written *)

(** Top-N as stated: at most five entries, each strictly of the requested
    sign, non-increasing in magnitude, ties in snapshot order. *)
Definition top_sign_as_stated (positive : bool) (r : Q) : Prop :=
  if positive then (0 < r)%Q else (r < 0)%Q.

(** The sign the code selects: strictly positive, or not strictly positive. *)
Definition top_sign (positive : bool) (r : Q) : Prop :=
  if positive then (0 < r)%Q else (r <= 0)%Q.

Definition magnitude_is (a : Q) (x : string * Q) : bool := Qeq_bool (Qabs (snd x)) a.

Definition ties_in_snapshot_order (funding_rates : snapshot) (positive : bool)
    (out : list (string * Q)) : Prop :=
  forall a : Q,
    List.filter (magnitude_is a) out
    `prefix_of`
    List.filter (magnitude_is a)
      (map (fun kv => (fst kv, rate (snd kv)))
         (List.filter (fun kv => sign_matches positive (rate (snd kv))) funding_rates)).

(** [x] may stand before [y] in a list sorted into non-increasing keys. *)
Definition by_key_desc {A} (key : A -> Q) (x y : A) : Prop := (key y <= key x)%Q.

Definition non_increasing_magnitude (out : list (string * Q)) : Prop :=
  StronglySorted (by_key_desc (fun x => Qabs (snd x))) out.

Definition top_claim_as_stated (funding_rates : snapshot) (positive : bool) : Prop :=
  let out := get_top_funding_rates funding_rates positive in
  (length out <= 5)%nat
  /\ Forall (fun x => top_sign_as_stated positive (snd x)) out
  /\ non_increasing_magnitude out
  /\ ties_in_snapshot_order funding_rates positive out.

(** The TTL claim as stated, at one exchange and one pair of calls: the
    first call is made in world [w] (and completes at [clock w]), the second
    at time [t'] with the network answering [net2]. *)
Definition ttl_claim_as_stated (ex : exchange) (net1 net2 : Net) (w : World) (t' : Q) : Prop :=
  let first := get_spot_symbols ex net1 w in
  let second := get_spot_symbols ex net2 (with_clock t' (snd first)) in
  (t' - clock (snd first) < 3600)%Q ->
  trace (snd second) = trace (snd first) /\ fst second = fst first.

(** ** Further code of [bot.py] *)

(** *** The ranking inside the [now] command *)

(** [sorted(l, key=key)]: a stable sort into non-decreasing keys, written as
    an insertion sort like [sorted_reverse]. *)
Fixpoint insert_asc {A} (key : A -> Q) (x : A) (l : list A) : list A :=
  match l with
  | [] => [x]
  | y :: r => if Qltb (key y) (key x) then y :: insert_asc key x r else x :: y :: r
  end.

Definition sorted_asc {A} (key : A -> Q) (l : list A) : list A :=
  fold_right (insert_asc key) [] l.


(** [negative_sorted] of the [now] command: the entries of strictly negative
    rate, sorted by rate, smallest first, cut to five. *)
Definition now_negative_sorted (funding_rates : snapshot) : list (string * FundingEntry) :=
  let negative_rates := List.filter (fun kv => Qltb (rate (snd kv)) 0) funding_rates in
  firstn 5 (sorted_asc (fun x => rate (snd x)) negative_rates).

(** The pair [(symbol, data['rate'])] of a snapshot item. *)
Definition symbol_rate (kv : string * FundingEntry) : string * Q :=
  (fst kv, rate (snd kv)).


(** *** What the spot listings select *)

Definition binance_lists (s : binance_spot_item) (k : string) : Prop :=
  bn_quoteAsset s = Some "USDT" /\ bn_status s = Some "TRADING"
  /\ exists base, bn_baseAsset s = Some base /\ k = ccxt base.

(** Bybit's listing is read for the quote and base coins only. *)
Definition bybit_lists (s : bybit_spot_item) (k : string) : Prop :=
  by_quoteCoin s = Some "USDT"
  /\ exists base, by_baseCoin s = Some base /\ k = ccxt base.

Definition bitget_lists (s : bitget_spot_item) (k : string) : Prop :=
  bg_quoteCoin s = Some "USDT" /\ bg_status s = Some "online"
  /\ exists base, bg_baseCoin s = Some base /\ k = ccxt base.

Definition okx_lists (s : okx_spot_item) (k : string) : Prop :=
  ok_quoteCcy s = Some "USDT" /\ ok_state s = Some "live"
  /\ exists base, ok_baseCcy s = Some base /\ k = ccxt base.

(** *** Vocabulary for the stream handlers and the monitors' snapshots *)

(** Handled on its own, the item files [v] under [k]. *)
Definition writes {I V : Type} (step : I -> dict V -> result (dict V))
    (item : I) (k : string) (v : V) : Prop :=
  step item [] = Ok [(k, v)].

(** The monitors hold each key once. *)
Definition monitors_unique (w : World) : Prop :=
  NoDup (dict_keys (BinanceState._mark_data (binance_monitor w)))
  /\ NoDup (dict_keys (OKXState._funding_data (okx_monitor w))).

(** The entry the Binance monitor builds for one item of [_mark_data]. *)
Definition binance_entry_of (ticker_volume : dict Q)
    (kv : string * BinanceState.mark) : string * FundingEntry :=
  (fst kv,
   {| symbol := fst kv;
      rate := BinanceState.mark_rate (snd kv);
      volume := default 0%Q (dict_get (fst kv) ticker_volume);
      price := BinanceState.mark_price (snd kv);
      next_funding := BinanceState.mark_next_funding (snd kv) |}).

(** The entry the OKX monitor builds for one item of [_funding_data]. *)
Definition okx_entry_of (ticker_data : dict OKXState.ticker)
    (kv : string * OKXState.funding) : string * FundingEntry :=
  (fst kv,
   {| symbol := fst kv;
      rate := OKXState.funding_rate (snd kv);
      volume := from_option OKXState.ticker_volume 0%Q (dict_get (fst kv) ticker_data);
      price := from_option OKXState.ticker_price 0%Q (dict_get (fst kv) ticker_data);
      next_funding := OKXState.funding_next_funding (snd kv) |}).

(** The items of a monitor's state that pass the spot test. *)
Definition passing {V : Type} (flag : bool) (spot : gset string) (data : dict V) : dict V :=
  List.filter (fun kv => negb (filtered_out flag spot (fst kv))) data.

(** *** The settings handlers *)

(** [cleaned_exchanges] of the [status] command:
    [[ex for ex in settings['exchanges'] if ex in ['bybit', 'binance', 'bitget', 'okx']]] *)
Definition cleaned_exchanges (exs : list string) : list string :=
  List.filter (fun ex => bool_decide (ex ∈ ["bybit"; "binance"; "bitget"; "okx"])) exs.

(** [l.remove(x)] for an [x] that is in [l]: the first occurrence goes. *)
Fixpoint list_remove (x : string) (l : list string) : list string :=
  match l with
  | [] => []
  | y :: r => if String.eqb y x then r else y :: list_remove x r
  end.

(** The exchange toggle of [button_callback]: remove the exchange when it is
    selected, append it when it is not. *)
Definition toggle_exchange (exchange : string) (exs : list string) : list string :=
  if bool_decide (exchange ∈ exs) then list_remove exchange exs
  else exs ++ [exchange].

(** *** Exchange links *)

(** [c.lower()] on one ASCII character. *)
Definition ascii_lower (c : ascii) : ascii :=
  let n := nat_of_ascii c in
  if (65 <=? n)%nat && (n <=? 90)%nat then ascii_of_nat (n + 32) else c.

(** [s.lower()], for the ASCII strings exchange tickers are: characters
    outside [A-Z] are kept. *)
Fixpoint str_lower (s : string) : string :=
  match s with
  | EmptyString => EmptyString
  | String c r => String (ascii_lower c) (str_lower r)
  end.

(** [get_exchange_url]: the dict of the four links is built, then looked up
    with ['#'] as default. *)
Definition get_exchange_url (exchange : string) (sym : string) : string :=
  let base_symbol := split_head "/" sym in
  let urls : dict string :=
    [ ("bybit", "https://www.bybit.com/trade/usdt/" +:+ base_symbol +:+ "USDT");
      ("binance", "https://www.binance.com/futures/trade/" +:+ base_symbol +:+ "USDT");
      ("bitget", "https://www.bitget.com/futures/" +:+ base_symbol +:+ "USDT");
      ("okx", "https://www.okx.com/trade-swap/" +:+ str_lower base_symbol +:+ "-usdt-swap") ] in
  default "#" (dict_get exchange urls).

(** *** Batches *)

(** [l[i:j]] for [i <= j] *)
Definition py_slice {A} (i j : nat) (l : list A) : list A :=
  firstn (j - i) (skipn i l).

(** [range(0, stop, step)] for a positive [step] *)
Definition range_step (stop step : nat) : list nat :=
  map (fun q => (q * step)%nat) (seq 0 ((stop + step - 1) / step)).

(** [[l[i:i+n] for i in range(0, len(l), n)]]: the batches the two batch
    loops of the OKX code walk through. *)
Definition batches {A} (n : nat) (l : list A) : list (list A) :=
  map (fun i => py_slice i (i + n) l) (range_step (length l) n).

(** A loop that mutates its accumulator in place: at an exception the
    accumulator keeps what the loop had done to it. *)
Fixpoint for_each_in_place {I S} (step : I -> S -> result S) (xs : list I) (acc : S)
    : S * option exn :=
  match xs with
  | [] => (acc, None)
  | x :: r =>
      match step x acc with
      | Ok acc' => for_each_in_place step r acc'
      | Raise e => (acc, Some e)
      end
  end.

(** *** The OKX subscription handshake *)

(** An element of the SWAP instruments listing. *)
Record okx_swap_inst : Type := {
  sw_settleCcy : option string;
  sw_instId : field string
}.

Definition okx_swap_instruments_url : string :=
  "https://www.okx.com/api/v5/public/instruments?instType=SWAP".

(** One element of [args] in a subscribe message. *)
Record subscribe_arg : Type := {
  channel : string;
  instId : string
}.

Definition funding_rate_arg (inst_id : string) : subscribe_arg :=
  {| channel := "funding-rate"; instId := inst_id |}.

Definition tickers_arg (inst_id : string) : subscribe_arg :=
  {| channel := "tickers"; instId := inst_id |}.

(** Body of the loop over the listing in [_subscribe_to_channels]. *)
Definition okx_subscribe_step (inst : okx_swap_inst) (subscribed : gset string)
    : result (gset string) :=
  (settle <~ subscript_opt (sw_settleCcy inst) ;;
   if String.eqb settle "USDT" then
     inst_id <~ subscript (sw_instId inst) ;;
     if endswith inst_id "-USDT-SWAP" then Ok ({[ inst_id ]} ∪ subscribed)
     else Ok subscribed
   else Ok subscribed)%res.

(** [args] after the loop over [self._subscribed_symbols], the set being
    walked in the order [ids]. *)
Definition subscribe_args (ids : list string) : list subscribe_arg :=
  flat_map (fun inst_id => [funding_rate_arg inst_id; tickers_arg inst_id]) ids.

(** The subscribe messages of a set of instruments, each given by its [args]. *)
Definition subscription_messages (subscribed : gset string) : list (list subscribe_arg) :=
  batches 50 (subscribe_args (elements subscribed)).

(** The loop that sends the messages.  [ws_accepts] is the number of sends the
    socket takes before [send_str] raises; the messages that went out are
    returned. *)
Fixpoint send_batches (ws_accepts : nat) (msgs : list (list subscribe_arg))
    : M (list (list subscribe_arg)) :=
  match msgs with
  | [] => ret []
  | batch :: r =>
      match ws_accepts with
      | O => ret []
      | S n =>
          (asyncio_sleep (1 # 10) ;;;
           sent <- send_batches n r ;;
           ret (batch :: sent))%M
      end
  end.

(** What a call of [_subscribe_to_channels] leaves behind: the set of the
    monitor and the messages that went out on the socket. *)
Record Subscription : Type := {
  _subscribed_symbols : gset string;
  sent : list (list subscribe_arg)
}.

Definition send_subscriptions (ws_accepts : nat) (subscribed : gset string) : M Subscription :=
  (out <- send_batches ws_accepts (subscription_messages subscribed) ;;
   ret {| _subscribed_symbols := subscribed; sent := out |})%M.

(** [_subscribe_to_channels]: the listing is read into the set, then the
    set is subscribed in batches of 50 arguments.  The whole body is inside
    one [try]: an exception ends the call without a message. *)
Definition _subscribe_to_channels (instruments : response (envelope string okx_swap_inst))
    (ws_accepts : nat) (subscribed : gset string) : M Subscription :=
  fun net w =>
    let quiet s := {| _subscribed_symbols := s; sent := [] |} in
    match session_get okx_swap_instruments_url (fun _ => instruments) net w with
    | (Raise _, w1) => (Ok (quiet subscribed), w1)
    | (Ok (status, body), w1) =>
        if (status =? 200)%Z then
          match body with
          | None => (Ok (quiet subscribed), w1)
          | Some data =>
              if code_is "0" (env_code data) then
                match env_items data with
                | None => (Ok (quiet subscribed), w1)
                | Some l =>
                    match for_each_in_place okx_subscribe_step l subscribed with
                    | (subscribed', Some _) => (Ok (quiet subscribed'), w1)
                    | (subscribed', None) => send_subscriptions ws_accepts subscribed' net w1
                    end
                end
              else send_subscriptions ws_accepts subscribed net w1
          end
        else send_subscriptions ws_accepts subscribed net w1
    end.

Definition sample_swap_instruments : list okx_swap_inst :=
  [ {| sw_settleCcy := Some "USDT"; sw_instId := Val "BTC-USDT-SWAP" |};
    {| sw_settleCcy := Some "USD"; sw_instId := Val "BTC-USD-SWAP" |};
    {| sw_settleCcy := Some "USDT"; sw_instId := Val "ETH-USDT-SWAP" |} ].

Definition sample_swap_listing : response (envelope string okx_swap_inst) :=
  Reply 200 (Some {| env_code := Some "0"; env_items := Some sample_swap_instruments |}).

(** *** The REST fetcher of Binance *)

(** An element of the [premiumIndex] answer. *)
Record binance_premium_item : Type := {
  pi_symbol : field string;
  pi_lastFundingRate : field Q;
  pi_markPrice : field Q;
  pi_nextFundingTime : field Z
}.

(** An element of the [ticker/24hr] answer. *)
Record binance_24hr_item : Type := {
  th_symbol : option string;
  th_quoteVolume : field Q
}.

Definition binance_premium_url : string := "https://fapi.binance.com/fapi/v1/premiumIndex".

Definition binance_24hr_url : string := "https://fapi.binance.com/fapi/v1/ticker/24hr".

(** [{t['symbol']: t for t in ticker_data}], one element at a time. *)
Definition ticker_dict_step (t : binance_24hr_item) (d : dict binance_24hr_item)
    : result (dict binance_24hr_item) :=
  (sym <~ subscript_opt (th_symbol t) ;; Ok (dict_set sym t d))%res.

(** [float(ticker.get('quoteVolume', 0))] with [ticker = ticker_dict.get(symbol, {})] *)
Definition quote_volume (ticker_dict : dict binance_24hr_item) (sym : string) : result Q :=
  match dict_get sym ticker_dict with
  | Some ticker => get_default 0%Q (th_quoteVolume ticker)
  | None => Ok 0%Q
  end.

(** Body of the loop over [prem_data]. *)
Definition binance_premium_step (use_spot_filter : bool) (spot_symbols : gset string)
    (ticker_dict : dict binance_24hr_item)
    (item : binance_premium_item) (res : snapshot) : result snapshot :=
  (sym <~ subscript (pi_symbol item) ;;
   match usdt_suffix_key sym with
   | None => Ok res
   | Some ccxt_symbol =>
       if filtered_out use_spot_filter spot_symbols ccxt_symbol then Ok res
       else
         r <~ subscript (pi_lastFundingRate item) ;;
         v <~ quote_volume ticker_dict sym ;;
         p <~ subscript (pi_markPrice item) ;;
         T <~ subscript (pi_nextFundingTime item) ;;
         Ok (dict_set ccxt_symbol
               {| symbol := ccxt_symbol; rate := (r * 100)%Q; volume := v;
                  price := p; next_funding := T |} res)
   end)%res.

(** What follows the two requests: the ticker dict, then the loop.  A
    decoded body is [None] when it is no list and iterating it raises. *)
Definition binance_rest_join (use_spot_filter : bool) (spot_symbols : gset string)
    (prem_data : option (list binance_premium_item))
    (ticker_data : option (list binance_24hr_item)) : result snapshot :=
  (tl <~ subscript_opt ticker_data ;;
   ticker_dict <~ for_each ticker_dict_step tl [] ;;
   pl <~ subscript_opt prem_data ;;
   for_each (binance_premium_step use_spot_filter spot_symbols ticker_dict) pl [])%res.

(** [get_binance_funding_rates], the two endpoints answering [premium] and
    [ticker24]. *)
Definition get_binance_funding_rates
    (premium : response (option (list binance_premium_item)))
    (ticker24 : response (option (list binance_24hr_item)))
    (use_spot_filter : bool) : M snapshot :=
  try_except
    (spot_symbols <- spot_universe use_spot_filter get_binance_spot_symbols ;;
     resp <- session_get binance_premium_url (fun _ => premium) ;;
     if (fst resp =? 200)%Z then
       prem_data <- resp_json resp ;;
       resp2 <- session_get binance_24hr_url (fun _ => ticker24) ;;
       ticker_data <- (if (fst resp2 =? 200)%Z then resp_json resp2 else ret (Some [])) ;;
       lift (binance_rest_join use_spot_filter spot_symbols prem_data ticker_data)
     else ret [])%M
    (fun _ => ret []).

(** The key a [premiumIndex] element is stored under, if any. *)
Definition binance_premium_key_of (item : binance_premium_item) : option string :=
  match pi_symbol item with
  | Val sym => usdt_suffix_key sym
  | _ => None
  end.

(** The answer of the second endpoint as the loop sees it. *)
Definition ticker_data_of (ticker24 : response (option (list binance_24hr_item)))
    : result (option (list binance_24hr_item)) :=
  match ticker24 with
  | ConnectionFailed => Raise ClientError
  | Reply status body =>
      if (status =? 200)%Z then
        match body with
        | Some data => Ok data
        | None => Raise ClientError
        end
      else Ok (Some [])
  end.

(** The snapshot the REST fetcher of Binance hands back. *)
Definition binance_rest_snapshot (use_spot_filter : bool) (spot_symbols : gset string)
    (premium : response (option (list binance_premium_item)))
    (ticker24 : response (option (list binance_24hr_item))) : snapshot :=
  match premium with
  | Reply status (Some prem_data) =>
      if (status =? 200)%Z then
        match (ticker_data <~ ticker_data_of ticker24 ;;
               binance_rest_join use_spot_filter spot_symbols prem_data ticker_data)%res with
        | Ok s => s
        | Raise _ => []
        end
      else []
  | _ => []
  end.

(** Whether the second request is made. *)
Definition asks_for_tickers (premium : response (option (list binance_premium_item))) : bool :=
  match premium with
  | Reply status (Some _) => (status =? 200)%Z
  | _ => false
  end.

Definition sample_premium : response (option (list binance_premium_item)) :=
  Reply 200 (Some (Some [ {| pi_symbol := Val "BTCUSDT"; pi_lastFundingRate := Val (1 # 10000);
                             pi_markPrice := Val 65000%Q; pi_nextFundingTime := Val 7200000%Z |};
                          {| pi_symbol := Val "ETHBTC"; pi_lastFundingRate := Val (1 # 10000);
                             pi_markPrice := Val 3%Q; pi_nextFundingTime := Val 7200000%Z |} ])).

Definition sample_ticker24 : response (option (list binance_24hr_item)) :=
  Reply 200 (Some (Some [ {| th_symbol := Some "BTCUSDT"; th_quoteVolume := Val 1000000%Q |} ])).

(** *** The REST fetcher of OKX *)

Definition okx_funding_url (inst_id : string) : string :=
  "https://www.okx.com/api/v5/public/funding-rate?instId=" +:+ inst_id.

Definition okx_ticker_url (inst_id : string) : string :=
  "https://www.okx.com/api/v5/market/ticker?instId=" +:+ inst_id.

(** Body of the loop that builds [swap_symbols]. *)
Definition okx_swap_step (inst : okx_swap_inst) (swap_symbols : list string)
    : result (list string) :=
  (settle <~ subscript_opt (sw_settleCcy inst) ;;
   if String.eqb settle "USDT" then
     inst_id <~ subscript (sw_instId inst) ;;
     if endswith inst_id "-USDT-SWAP" then Ok (swap_symbols ++ [inst_id])
     else Ok swap_symbols
   else Ok swap_symbols)%res.

(** A request awaited under [gather(.., return_exceptions=True)]: the
    response or the exception comes back as a value. *)
Definition request_gathered {P} (url : string) (reply : response P) : M (response P) :=
  fun _ w => (Ok reply, background (with_event (Request url) w)).

(** [await resp.json()] on a response already received. *)
Definition json_body {P} (body : option P) : result P :=
  match body with
  | Some data => Ok data
  | None => Raise ClientError
  end.

(** What the [try] block does for one instrument once both responses have
    status 200. *)
Definition okx_rest_item_body (use_spot_filter : bool) (spot_symbols : gset string)
    (inst_id : string)
    (funding_body : option (envelope string okx_funding_item))
    (ticker_body : option (envelope string okx_ticker_item))
    (res : snapshot) : result snapshot :=
  (funding_data <~ json_body funding_body ;;
   ticker_data <~ json_body ticker_body ;;
   if code_is "0" (env_code funding_data) && code_is "0" (env_code ticker_data) then
     fl <~ subscript_opt (env_items funding_data) ;;
     match fl with
     | [] => Ok res
     | funding_info :: _ =>
         tl <~ subscript_opt (env_items ticker_data) ;;
         match tl with
         | [] => Ok res
         | ticker_info :: _ =>
             let ccxt_symbol := okx_key inst_id in
             if filtered_out use_spot_filter spot_symbols ccxt_symbol then Ok res
             else
               r <~ subscript (of_fundingRate funding_info) ;;
               v <~ get_default 0%Q (ot_volCcy24h ticker_info) ;;
               p <~ subscript (ot_last ticker_info) ;;
               T <~ subscript (of_nextFundingTime funding_info) ;;
               Ok (dict_set ccxt_symbol
                     {| symbol := ccxt_symbol; rate := (r * 100)%Q; volume := v;
                        price := p; next_funding := T |} res)
         end
     end
   else Ok res)%res.

(** One turn of the loop over a batch: an exception among the two responses,
    a status other than 200 or an exception of the body leaves [result] as
    it is. *)
Definition okx_rest_item (use_spot_filter : bool) (spot_symbols : gset string)
    (inst_id : string)
    (funding_resp : response (envelope string okx_funding_item))
    (ticker_resp : response (envelope string okx_ticker_item))
    (res : snapshot) : snapshot :=
  match funding_resp, ticker_resp with
  | Reply funding_status funding_body, Reply ticker_status ticker_body =>
      if (funding_status =? 200)%Z && (ticker_status =? 200)%Z then
        match okx_rest_item_body use_spot_filter spot_symbols inst_id
                funding_body ticker_body res with
        | Ok res' => res'
        | Raise _ => res
        end
      else res
  | _, _ => res
  end.

(** A loop whose body is a computation. *)
Fixpoint for_each_M {I S} (step : I -> S -> M S) (xs : list I) (acc : S) : M S :=
  match xs with
  | [] => ret acc
  | x :: r => (acc' <- step x acc ;; for_each_M step r acc')%M
  end.

(** One batch: the funding requests, the ticker requests, the loop over the
    instruments of the batch, the pause. *)
Definition okx_rest_batch
    (funding : string -> response (envelope string okx_funding_item))
    (ticker : string -> response (envelope string okx_ticker_item))
    (use_spot_filter : bool) (spot_symbols : gset string)
    (batch : list string) (res : snapshot) : M snapshot :=
  (funding_responses <-
     gather (map (fun inst_id => request_gathered (okx_funding_url inst_id) (funding inst_id))
               batch) ;;
   ticker_responses <-
     gather (map (fun inst_id => request_gathered (okx_ticker_url inst_id) (ticker inst_id))
               batch) ;;
   let res' :=
     fold_left
       (fun acc x => okx_rest_item use_spot_filter spot_symbols
                       (fst x) (fst (snd x)) (snd (snd x)) acc)
       (combine batch (combine funding_responses ticker_responses)) res in
   asyncio_sleep (1 # 10) ;;;
   ret res')%M.

(** [get_okx_funding_rates], the listing endpoint answering [instruments] and
    the two per-instrument endpoints answering [funding] and [ticker]. *)
Definition get_okx_funding_rates
    (instruments : response (envelope string okx_swap_inst))
    (funding : string -> response (envelope string okx_funding_item))
    (ticker : string -> response (envelope string okx_ticker_item))
    (use_spot_filter : bool) : M snapshot :=
  try_except
    (spot_symbols <- spot_universe use_spot_filter get_okx_spot_symbols ;;
     resp <- session_get okx_swap_instruments_url (fun _ => instruments) ;;
     if (fst resp =? 200)%Z then
       inst_data <- resp_json resp ;;
       if code_is "0" (env_code inst_data) then
         swap_symbols <- lift (l <~ subscript_opt (env_items inst_data) ;;
                               for_each okx_swap_step l [])%res ;;
         for_each_M (okx_rest_batch funding ticker use_spot_filter spot_symbols)
           (batches 20 swap_symbols) []
       else ret []
     else ret [])%M
    (fun _ => ret []).

(** The loop over the instruments with the batches taken away. *)
Definition okx_rest_collect
    (funding : string -> response (envelope string okx_funding_item))
    (ticker : string -> response (envelope string okx_ticker_item))
    (use_spot_filter : bool) (spot_symbols : gset string)
    (ids : list string) (res : snapshot) : snapshot :=
  fold_left (fun acc inst_id =>
               okx_rest_item use_spot_filter spot_symbols inst_id
                 (funding inst_id) (ticker inst_id) acc)
    ids res.

(** The instruments the fetcher asks about. *)
Definition okx_swap_symbols (instruments : response (envelope string okx_swap_inst))
    : option (list string) :=
  match listing (code_is "0") instruments with
  | Some l => match for_each okx_swap_step l [] with
              | Ok ids => Some ids
              | Raise _ => None
              end
  | None => None
  end.

(** Number of requests recorded in a trace. *)
Definition requests_in (tr : list event) : nat :=
  length (List.filter (fun e => match e with
                                | Request _ => true
                                | Sleep _ => false
                                end) tr).

Definition sample_okx_funding (inst_id : string) : response (envelope string okx_funding_item) :=
  if String.eqb inst_id "BTC-USDT-SWAP" then
    Reply 200 (Some {| env_code := Some "0";
                       env_items := Some [ {| of_instId := Val "BTC-USDT-SWAP";
                                              of_fundingRate := Val (1 # 10000);
                                              of_nextFundingTime := Val 7200000%Z |} ] |})
  else ConnectionFailed.

Definition sample_okx_ticker (inst_id : string) : response (envelope string okx_ticker_item) :=
  Reply 200 (Some {| env_code := Some "0";
                     env_items := Some [ {| ot_instId := Val inst_id; ot_last := Val 65000%Q;
                                            ot_volCcy24h := Val 1000%Q |} ] |}).

(** From [w] to [w'] the given numbers of pauses and requests were added and
    the spot cache was left alone. *)
Definition advanced (w w' : World) (sleeps requests : nat) : Prop :=
  sleeps_in (trace w') = (sleeps_in (trace w) + sleeps)%nat
  /\ requests_in (trace w') = (requests_in (trace w) + requests)%nat
  /\ SPOT_SYMBOL_CACHE w' = SPOT_SYMBOL_CACHE w.

(** An entry was built from the first elements of the two answers about an
    instrument. *)
Definition okx_rest_origin
    (funding : string -> response (envelope string okx_funding_item))
    (ticker : string -> response (envelope string okx_ticker_item))
    (inst_id : string) (e : FundingEntry) : Prop :=
  exists fenv fi frest tenv ti trest r p T,
    funding inst_id = Reply 200 (Some fenv) /\ env_items fenv = Some (fi :: frest)
    /\ ticker inst_id = Reply 200 (Some tenv) /\ env_items tenv = Some (ti :: trest)
    /\ of_fundingRate fi = Val r /\ rate e = (r * 100)%Q
    /\ of_nextFundingTime fi = Val T /\ next_funding e = T
    /\ ot_last ti = Val p /\ price e = p.

Definition sample_okx_funding_down (inst_id : string)
    : response (envelope string okx_funding_item) :=
  if String.eqb inst_id "ETH-USDT-SWAP" then Reply 500 None
  else sample_okx_funding inst_id.

(** ** Properties *)

(** *** Strings and dicts *)

Lemma substring_whole (b : string) :
  String.substring 0 (String.length b) b = b.
Proof. induction b as [|c b IH]; simpl; [reflexivity | now rewrite IH]. Qed.

Lemma substring_app_suffix (a b : string) :
  String.substring (String.length a) (String.length b) (a +:+ b) = b.
Proof.
  induction a as [|c a IH]; simpl.
  - apply substring_whole.
  - exact IH.
Qed.

Lemma substring_app_prefix (a b : string) :
  String.substring 0 (String.length a) (a +:+ b) = a.
Proof.
  induction a as [|c a IH]; simpl.
  - destruct b; reflexivity.
  - now rewrite IH.
Qed.

Lemma str_length_app (a b : string) :
  String.length (a +:+ b) = (String.length a + String.length b)%nat.
Proof. induction a as [|c a IH]; simpl; [reflexivity | now rewrite IH]. Qed.

Lemma endswith_app (a suf : string) : endswith (a +:+ suf) suf = true.
Proof.
  unfold endswith. rewrite str_length_app.
  replace (String.length a + String.length suf - String.length suf)%nat
    with (String.length a) by lia.
  rewrite substring_app_suffix, String.eqb_refl, andb_true_r.
  apply Nat.leb_le. lia.
Qed.

Lemma drop_last_app (a suf : string) :
  drop_last (String.length suf) (a +:+ suf) = a.
Proof.
  unfold drop_last. rewrite str_length_app.
  replace (String.length a + String.length suf - String.length suf)%nat
    with (String.length a) by lia.
  apply substring_app_prefix.
Qed.

Lemma split_head_app (sep : ascii) (a r : string) :
  lacks sep a = true -> split_head sep (a +:+ String sep r) = a.
Proof.
  induction a as [|c a IH]; simpl; intros H.
  - now rewrite Ascii.eqb_refl.
  - apply andb_true_iff in H as [Hc Ha].
    apply negb_true_iff in Hc. rewrite Hc. now rewrite IH.
Qed.

Lemma ccxt_canonical (base : string) : endswith (ccxt base) "/USDT:USDT" = true.
Proof. apply endswith_app. Qed.

Lemma str_app_assoc (a b c : string) : (a +:+ b) +:+ c = a +:+ (b +:+ c).
Proof.
  induction a as [|x a IH]; [reflexivity|].
  change (String x ((a +:+ b) +:+ c) = String x (a +:+ (b +:+ c))).
  now f_equal.
Qed.

Lemma usdt_suffix_key_app (base : string) :
  usdt_suffix_key (base +:+ "USDT") = Some (ccxt base).
Proof.
  unfold usdt_suffix_key. rewrite endswith_app.
  replace (drop_last 4 (base +:+ "USDT")) with base
    by (symmetry; apply (drop_last_app base "USDT")).
  reflexivity.
Qed.

Lemma usdt_suffix_key_canonical (sym k : string) :
  usdt_suffix_key sym = Some k -> endswith k "/USDT:USDT" = true.
Proof.
  unfold usdt_suffix_key. destruct (endswith sym "USDT"); [|discriminate].
  intros [= <-]. apply ccxt_canonical.
Qed.

Lemma bitget_key_canonical (raw k : string) :
  bitget_key raw = Some k -> endswith k "/USDT:USDT" = true.
Proof.
  unfold bitget_key. destruct (endswith raw "_UMCBL"); [|discriminate].
  apply usdt_suffix_key_canonical.
Qed.

Lemma bitget_key_app (base : string) :
  lacks "_" base = true ->
  bitget_key (base +:+ "USDT_UMCBL") = Some (ccxt base).
Proof.
  intros Hb. unfold bitget_key.
  replace (base +:+ "USDT_UMCBL") with ((base +:+ "USDT") +:+ "_UMCBL")
    by (now rewrite str_app_assoc).
  rewrite endswith_app.
  change ((base +:+ "USDT") +:+ "_UMCBL")
    with ((base +:+ "USDT") +:+ String "_" "UMCBL").
  rewrite split_head_app.
  - apply usdt_suffix_key_app.
  - clear -Hb. induction base as [|c b IH]; simpl in *; [reflexivity|].
    apply andb_true_iff in Hb as [Hc Hb]. rewrite Hc. simpl. now apply IH.
Qed.

Lemma okx_key_app (base : string) :
  lacks "-" base = true ->
  okx_key (base +:+ "-USDT-SWAP") = ccxt base.
Proof.
  intros Hb. unfold okx_key.
  change (base +:+ "-USDT-SWAP") with (base +:+ String "-" "USDT-SWAP").
  now rewrite split_head_app.
Qed.

(** C8. Canonicalization is a function of the raw symbol alone, and for every
    base asset (a ticker without the separators [_] and [-]) the spellings
    of its USDT perpetual on the four exchanges -- [BASEUSDT] on Bybit and
    on the Binance stream, [BASEUSDT_UMCBL] on Bitget, [BASE-USDT-SWAP] on
    OKX -- are all given the one key [BASE/USDT:USDT]. *)
Theorem canonical_key_shared (base : string) :
  plain_base base ->
  (forall raw1 raw2 : string, raw1 = raw2 ->
     usdt_suffix_key raw1 = usdt_suffix_key raw2
     /\ bitget_key raw1 = bitget_key raw2
     /\ okx_key raw1 = okx_key raw2)
  /\ usdt_suffix_key (base +:+ "USDT") = Some (base +:+ "/USDT:USDT")
  /\ bitget_key (base +:+ "USDT_UMCBL") = Some (base +:+ "/USDT:USDT")
  /\ okx_key (base +:+ "-USDT-SWAP") = base +:+ "/USDT:USDT".
Proof.
  intros [Hu Hd]. split; [|split; [|split]].
  - intros raw1 raw2 ->. auto.
  - apply usdt_suffix_key_app.
  - now apply bitget_key_app.
  - now apply okx_key_app.
Qed.

Lemma canonical_key_shared_witness :
  plain_base "BTC"
  /\ usdt_suffix_key "BTCUSDT" = Some "BTC/USDT:USDT"
  /\ bitget_key "BTCUSDT_UMCBL" = Some "BTC/USDT:USDT"
  /\ okx_key "BTC-USDT-SWAP" = "BTC/USDT:USDT".
Proof.
  assert (Hb : plain_base "BTC") by (split; reflexivity).
  split; [exact Hb | exact (proj2 (canonical_key_shared "BTC" Hb))].
Defined.

(** *** Ranking *)

Lemma Qltb_lt (a b : Q) : Qltb a b = true <-> (a < b)%Q.
Proof.
  unfold Qltb. rewrite negb_true_iff. split.
  - intros H. apply Qnot_le_lt. intros Hle.
    apply Qle_bool_iff in Hle. congruence.
  - intros H. destruct (Qle_bool b a) eqn:E; [|reflexivity].
    apply Qle_bool_iff in E. exfalso. exact (Qlt_not_le _ _ H E).
Qed.

Lemma Qltb_ge (a b : Q) : Qltb a b = false <-> (b <= a)%Q.
Proof.
  unfold Qltb. rewrite negb_false_iff. apply Qle_bool_iff.
Qed.

Section StableSort.
Context {A : Type} (key : A -> Q).

Lemma insert_desc_In (x z : A) (l : list A) :
  In z (insert_desc key x l) <-> z = x \/ In z l.
Proof.
  induction l as [|y r IH]; simpl.
  - intuition.
  - destruct (Qltb (key x) (key y)); simpl; rewrite ?IH; intuition.
Qed.

Lemma insert_desc_sorted (x : A) (l : list A) :
  StronglySorted (by_key_desc key) l -> StronglySorted (by_key_desc key) (insert_desc key x l).
Proof.
  induction 1 as [|y r Hs IH Hall]; simpl.
  - repeat constructor.
  - destruct (Qltb (key x) (key y)) eqn:E.
    + constructor; [exact IH|].
      apply List.Forall_forall. intros z Hz.
      apply insert_desc_In in Hz as [->|Hz].
      * apply Qltb_lt in E. unfold by_key_desc. now apply Qlt_le_weak.
      * rewrite List.Forall_forall in Hall. now apply Hall.
    + apply Qltb_ge in E. constructor.
      * now constructor.
      * constructor; [exact E|].
        rewrite List.Forall_forall in Hall |- *. intros z Hz.
        unfold by_key_desc in *. eapply Qle_trans; [apply Hall; exact Hz | exact E].
Qed.

Lemma sorted_reverse_sorted (l : list A) :
  StronglySorted (by_key_desc key) (sorted_reverse key l).
Proof.
  induction l as [|x l IH]; simpl; [constructor|].
  now apply insert_desc_sorted.
Qed.

Lemma sorted_reverse_In (z : A) (l : list A) :
  In z (sorted_reverse key l) <-> In z l.
Proof.
  induction l as [|x l IH]; simpl; [tauto|].
  rewrite insert_desc_In, IH. intuition.
Qed.

(** Insertion moves [x] only past strictly larger keys, so the entries
    of any one magnitude keep their relative order. *)
Lemma insert_desc_filter_tie (a : Q) (x : A) (l : list A) :
  List.filter (fun y => Qeq_bool (key y) a) (insert_desc key x l)
  = List.filter (fun y => Qeq_bool (key y) a) (x :: l).
Proof.
  induction l as [|y r IH]; [reflexivity|].
  cbn [insert_desc]. destruct (Qltb (key x) (key y)) eqn:E; [|reflexivity].
  apply Qltb_lt in E. cbn [List.filter] in *.
  destruct (Qeq_bool (key x) a) eqn:Ex, (Qeq_bool (key y) a) eqn:Ey;
    rewrite IH; try reflexivity.
  apply Qeq_bool_iff in Ex, Ey. exfalso.
  rewrite Ex, Ey in E. exact (Qlt_irrefl _ E).
Qed.

Lemma sorted_reverse_filter_tie (a : Q) (l : list A) :
  List.filter (fun y => Qeq_bool (key y) a) (sorted_reverse key l)
  = List.filter (fun y => Qeq_bool (key y) a) l.
Proof.
  induction l as [|x l IH]; [reflexivity|].
  cbn [sorted_reverse fold_right].
  change (fold_right (insert_desc key) [] l) with (sorted_reverse key l).
  rewrite insert_desc_filter_tie. cbn [List.filter]. now rewrite IH.
Qed.

End StableSort.

Lemma firstn_In {A} (n : nat) (l : list A) (z : A) :
  In z (firstn n l) -> In z l.
Proof.
  intros H. rewrite <- (firstn_skipn n l). apply in_or_app. now left.
Qed.

Lemma firstn_strongly_sorted {A} (R : A -> A -> Prop) (n : nat) (l : list A) :
  StronglySorted R l -> StronglySorted R (firstn n l).
Proof.
  intros H. revert n. induction H as [|x l Hs IH Hall]; intros [|n]; simpl;
    try constructor.
  - apply IH.
  - rewrite List.Forall_forall in Hall |- *. intros z Hz.
    apply Hall. eapply firstn_In; eauto.
Qed.

Lemma firstn_filter_prefix {A} (p : A -> bool) (n : nat) (l : list A) :
  List.filter p (firstn n l) `prefix_of` List.filter p l.
Proof.
  revert n. induction l as [|x l IH]; intros [|n]; simpl;
    try apply prefix_nil.
  destruct (p x); [apply prefix_cons|]; apply IH.
Qed.

Lemma sign_matches_true (r : Q) : sign_matches true r = true -> (0 < r)%Q.
Proof.
  unfold sign_matches. destruct (Qltb 0 r) eqn:E; [|discriminate].
  intros _. now apply Qltb_lt.
Qed.

Lemma sign_matches_false (r : Q) : sign_matches false r = true -> (r <= 0)%Q.
Proof.
  unfold sign_matches. destruct (Qltb 0 r) eqn:E; [discriminate|].
  intros _. now apply Qltb_ge.
Qed.

(** What the top-N function does on every input.  For every snapshot and
    every [positive] it returns at most five entries; every returned entry
    is strictly positive when [positive] is true and negative or zero
    otherwise; the list is non-increasing in absolute rate; and entries of
    equal absolute rate appear in the snapshot's iteration order. *)
Theorem top_funding_rates_ranked (funding_rates : snapshot) (positive : bool) :
  let out := get_top_funding_rates funding_rates positive in
  (length out <= 5)%nat
  /\ Forall (fun x => top_sign positive (snd x)) out
  /\ non_increasing_magnitude out
  /\ ties_in_snapshot_order funding_rates positive out.
Proof.
  unfold get_top_funding_rates. cbv zeta. split; [|split; [|split]].
  - apply firstn_le_length.
  - apply List.Forall_forall. intros [s r] Hin.
    apply firstn_In in Hin. apply sorted_reverse_In in Hin.
    apply in_map_iff in Hin as [[k e] [[= <- <-] Hin]].
    apply filter_In in Hin as [_ Hsign]. simpl in *.
    destruct positive; simpl.
    + now apply sign_matches_true.
    + now apply sign_matches_false.
  - apply firstn_strongly_sorted.
    apply (sorted_reverse_sorted (fun x : string * Q => Qabs (snd x))).
  - intros a. unfold magnitude_is.
    set (filtered := map _ (List.filter _ funding_rates)).
    rewrite <- (sorted_reverse_filter_tie (fun x : string * Q => Qabs (snd x)) a filtered).
    apply firstn_filter_prefix.
Qed.

(** C3 fails on the code at an entry of rate zero.  On the snapshot holding
    AAA at rate 0 and BBB at rate -0.01, the top-N function asked for the
    negative side returns BBB and then AAA, so that an entry without the
    requested sign is returned and the claim as stated is false there; the
    [now] command, which builds its negative list from the entries of rate
    below zero, returns BBB alone on the same snapshot. *)
Theorem top_funding_rates_zero_on_negative_side :
  get_top_funding_rates snapshot_zero_and_negative false
  = [("BBB/USDT:USDT", (- (1 # 100))%Q); ("AAA/USDT:USDT", 0%Q)]
  /\ map symbol_rate (now_negative_sorted snapshot_zero_and_negative)
     = [("BBB/USDT:USDT", (- (1 # 100))%Q)]
  /\ ~ top_claim_as_stated snapshot_zero_and_negative false.
Proof.
  assert (E : get_top_funding_rates snapshot_zero_and_negative false
              = [("BBB/USDT:USDT", (- (1 # 100))%Q); ("AAA/USDT:USDT", 0%Q)])
    by (vm_compute; reflexivity).
  split; [exact E|]. split; [vm_compute; reflexivity|].
  unfold top_claim_as_stated. cbv zeta. rewrite E.
  intros (_ & Hsign & _).
  rewrite List.Forall_forall in Hsign.
  specialize (Hsign ("AAA/USDT:USDT", 0%Q) (or_intror (or_introl eq_refl))).
  simpl in Hsign. exact (Qlt_irrefl 0 Hsign).
Qed.

(** *** Threshold alerts *)








(** *** The effect monad *)

Lemma receive_frame (m : ws_msg) (w : World) :
  clock (receive m w) = clock w
  /\ SPOT_SYMBOL_CACHE (receive m w) = SPOT_SYMBOL_CACHE w
  /\ SPOT_SYMBOL_LAST_FETCH (receive m w) = SPOT_SYMBOL_LAST_FETCH w
  /\ trace (receive m w) = trace w.
Proof.
  destruct m as [b|o]; simpl.
  - destruct (BinanceState._task (binance_monitor w)); simpl; auto.
  - destruct (OKXState._task (okx_monitor w)); simpl; auto.
Qed.

Lemma receive_all_frame (batch : list ws_msg) (w : World) :
  let w' := fold_left (fun w' m => receive m w') batch w in
  clock w' = clock w
  /\ SPOT_SYMBOL_CACHE w' = SPOT_SYMBOL_CACHE w
  /\ SPOT_SYMBOL_LAST_FETCH w' = SPOT_SYMBOL_LAST_FETCH w
  /\ trace w' = trace w.
Proof.
  revert w. induction batch as [|m batch IH]; intros w; simpl; [auto|].
  destruct (IH (receive m w)) as (H1 & H2 & H3 & H4).
  destruct (receive_frame m w) as (G1 & G2 & G3 & G4).
  simpl in *. repeat split; congruence.
Qed.

(** The receiving tasks touch neither the clock, nor the spot cache, nor the
    record of requests and sleeps. *)
Lemma background_frame (w : World) :
  clock (background w) = clock w
  /\ SPOT_SYMBOL_CACHE (background w) = SPOT_SYMBOL_CACHE w
  /\ SPOT_SYMBOL_LAST_FETCH (background w) = SPOT_SYMBOL_LAST_FETCH w
  /\ trace (background w) = trace w.
Proof.
  unfold background. destruct (inbound w) as [|batch rest]; [auto|].
  apply (receive_all_frame batch (with_inbound rest w)).
Qed.

Lemma background_cache (w : World) :
  SPOT_SYMBOL_CACHE (background w) = SPOT_SYMBOL_CACHE w.
Proof. apply background_frame. Qed.

Lemma background_last (w : World) :
  SPOT_SYMBOL_LAST_FETCH (background w) = SPOT_SYMBOL_LAST_FETCH w.
Proof. apply background_frame. Qed.

Lemma background_trace (w : World) : trace (background w) = trace w.
Proof. apply background_frame. Qed.

Lemma background_clock (w : World) : clock (background w) = clock w.
Proof. apply background_frame. Qed.

(** *** Spot-symbol cache *)

(** The four getters are one function of the exchange: serve the cache when
    fresh; otherwise issue one request and either store what was collected,
    stamped with the time read at the start of the call, or fall back on the
    cache as it is. *)
Lemma spot_symbols_with_run {P} (ex : exchange) (url : string)
    (endpoint : Net -> response P) (collect : P -> result (gset string))
    (net : Net) (w : World) :
  spot_symbols_with ex url endpoint collect net w =
  if spot_fresh ex w then (Ok (SPOT_SYMBOL_CACHE w ex), w)
  else
    let w1 := background (with_event (Request url) w) in
    match collected collect (endpoint net) with
    | Some symbols => (Ok symbols, with_spot ex symbols (clock w) w1)
    | None => (Ok (SPOT_SYMBOL_CACHE w1 ex), w1)
    end.
Proof.
  unfold spot_symbols_with, spot_fresh, bind, time_time, get_world. cbn beta iota.
  destruct (bool_decide (SPOT_SYMBOL_CACHE w ex ≠ ∅)
            && Qltb (clock w - SPOT_SYMBOL_LAST_FETCH w ex) SPOT_SYMBOL_TTL);
    [reflexivity|].
  unfold try_except, bind, session_get, resp_json, collected, lift, modify, ret.
  cbn beta iota zeta.
  destruct (endpoint net) as [|status [data|]]; cbn; try reflexivity.
  destruct (collect data); reflexivity.
Qed.

Lemma get_spot_symbols_run (ex : exchange) (net : Net) (w : World) :
  get_spot_symbols ex net w =
  if spot_fresh ex w then (Ok (SPOT_SYMBOL_CACHE w ex), w)
  else
    let w1 := background (with_event (Request (spot_url ex)) w) in
    match spot_fetch ex net with
    | Some symbols => (Ok symbols, with_spot ex symbols (clock w) w1)
    | None => (Ok (SPOT_SYMBOL_CACHE w1 ex), w1)
    end.
Proof. destruct ex; apply spot_symbols_with_run. Qed.

(** A getter returns, and what it returns is the cached set as the call
    leaves it. *)
Lemma get_spot_symbols_returns_cache (ex : exchange) (net : Net) (w : World) :
  exists s w', get_spot_symbols ex net w = (Ok s, w')
               /\ s = SPOT_SYMBOL_CACHE w' ex.
Proof.
  rewrite get_spot_symbols_run. destruct (spot_fresh ex w); [eauto|].
  cbv zeta. destruct (spot_fetch ex net) as [symbols|]; [|eauto].
  eexists _, _. split; [reflexivity|]. simpl.
  destruct (decide (ex = ex)); congruence.
Qed.

Lemma spot_fresh_with_clock (ex : exchange) (t : Q) (w : World) :
  SPOT_SYMBOL_CACHE w ex <> ∅ ->
  (t - SPOT_SYMBOL_LAST_FETCH w ex < 3600)%Q ->
  spot_fresh ex (with_clock t w) = true.
Proof.
  intros Hne Hlt. unfold spot_fresh. simpl. apply andb_true_iff. split.
  - now apply bool_decide_eq_true.
  - apply Qltb_lt. exact Hlt.
Qed.

(** C5, as the code has it.  If a spot-symbol get call returns a non-empty
    set, then a second get call at any time [t'] less than 3600 seconds
    after the time stamp of the last successful fetch issues no network
    request, changes nothing and returns the identical set; and when the
    first call itself refreshed the cache, that time stamp is the time [t]
    the first call read. *)
Theorem spot_cache_ttl (ex : exchange) (net1 net2 : Net) (w : World) (t' : Q)
    (s : gset string) (w1 : World) :
  get_spot_symbols ex net1 w = (Ok s, w1) ->
  s <> ∅ ->
  (t' - SPOT_SYMBOL_LAST_FETCH w1 ex < 3600)%Q ->
  get_spot_symbols ex net2 (with_clock t' w1) = (Ok s, with_clock t' w1)
  /\ (spot_fresh ex w = false -> spot_fetch ex net1 = Some s ->
      SPOT_SYMBOL_LAST_FETCH w1 ex = clock w).
Proof.
  intros Hrun Hne Hlt.
  destruct (get_spot_symbols_returns_cache ex net1 w) as (s0 & w0 & Hrun0 & Hs0).
  rewrite Hrun in Hrun0.
  assert (Es : s0 = s) by congruence. assert (Ew : w0 = w1) by congruence.
  rewrite Es, Ew in Hs0. clear Hrun0 Es Ew s0 w0.
  split.
  - rewrite get_spot_symbols_run.
    rewrite spot_fresh_with_clock; [|congruence|exact Hlt].
    simpl. now rewrite <- Hs0.
  - intros Hstale Hfetch. rewrite get_spot_symbols_run, Hstale, Hfetch in Hrun.
    cbv zeta in Hrun. inversion Hrun; subst. simpl.
    destruct (decide (ex = ex)); congruence.
Qed.

Lemma spot_cache_ttl_witness :
  get_spot_symbols bybit net_down (with_clock 10 world_bybit_cached)
  = (Ok {[ "BTC/USDT:USDT" ]}, with_clock 10 world_bybit_cached).
Proof.
  refine (proj1 (spot_cache_ttl bybit net_sample net_down (initial_world 0 []) 10
                   {[ "BTC/USDT:USDT" ]} world_bybit_cached _ _ _)).
  - vm_compute. reflexivity.
  - intros H. apply (f_equal elements) in H. vm_compute in H. discriminate.
  - vm_compute. reflexivity.
Defined.

(** C5 as stated fails twice over.  A call that returns the empty set (here:
    nothing cached, network down) is followed by a new request ten seconds
    later; and a call served from a cache stamped 3599 seconds earlier is
    followed by a new request 101 seconds later. *)
Lemma spot_cache_ttl_not_from_last_call :
  ~ ttl_claim_as_stated bybit net_down net_down (initial_world 0 []) 10
  /\ ~ ttl_claim_as_stated bybit net_down net_down
         (with_clock 3599 world_bybit_cached) 3700.
Proof.
  split; intros H.
  - assert (Hlt : (10 - clock (snd (get_spot_symbols bybit net_down (initial_world 0 [])))
                   < 3600)%Q) by (vm_compute; reflexivity).
    destruct (H Hlt) as [Htrace _]. vm_compute in Htrace. discriminate.
  - assert (Hlt : (3700 - clock (snd (get_spot_symbols bybit net_down
                                        (with_clock 3599 world_bybit_cached)))
                   < 3600)%Q) by (vm_compute; reflexivity).
    destruct (H Hlt) as [Htrace _]. vm_compute in Htrace. discriminate.
Qed.

(** On a failed refresh -- no connection, a body that does not decode, a
    member missing from the listing -- a getter returns the cached set and
    leaves it and its time stamp as they were, for every exchange. *)
Lemma spot_cache_kept_on_exception (ex : exchange) (net : Net) (w : World) :
  spot_fetch ex net = None ->
  exists w', get_spot_symbols ex net w = (Ok (SPOT_SYMBOL_CACHE w ex), w')
             /\ SPOT_SYMBOL_CACHE w' = SPOT_SYMBOL_CACHE w
             /\ SPOT_SYMBOL_LAST_FETCH w' = SPOT_SYMBOL_LAST_FETCH w.
Proof.
  intros Hfail. rewrite get_spot_symbols_run, Hfail.
  destruct (spot_fresh ex w); [eauto|]. cbv zeta.
  eexists. rewrite background_cache. split; [reflexivity|].
  now rewrite background_cache, background_last.
Qed.

(** A Bybit listing whose [retCode] is not zero is collected as the empty
    set, not as a failure. *)
Lemma bybit_error_code_collected (status : Z) (env : envelope Z bybit_spot_item) :
  env_code env <> Some 0%Z ->
  collected bybit_spot_collect (Reply status (Some env)) = Some ∅.
Proof.
  intros Hc. unfold collected, bybit_spot_collect.
  destruct (env_code env) as [[| |]|]; try reflexivity. congruence.
Qed.

(** C6 fails on the code at a non-success return code.  With
    [BTC/USDT:USDT] cached at time 0 and the cache stale at time 4000, a
    Bybit answer carrying [retCode] 10006 makes the getter return the empty
    set, replace the cached set by the empty set and move the time stamp to
    4000. *)
Theorem spot_cache_cleared_by_error_code :
  let w := with_clock 4000 world_bybit_cached in
  let run := get_bybit_spot_symbols net_bybit_error_code w in
  elements (SPOT_SYMBOL_CACHE w bybit) = ["BTC/USDT:USDT"]
  /\ SPOT_SYMBOL_LAST_FETCH w bybit = 0%Q
  /\ fst run = Ok ∅
  /\ SPOT_SYMBOL_CACHE (snd run) bybit = ∅
  /\ SPOT_SYMBOL_LAST_FETCH (snd run) bybit = 4000%Q.
Proof.
  cbv zeta. repeat split; vm_compute; reflexivity.
Qed.

(** *** Loops *)

Lemma for_each_invariant {I S} (P : S -> Prop) (step : I -> S -> result S)
    (xs : list I) (acc r : S) :
  P acc ->
  (forall x a a', In x xs -> P a -> step x a = Ok a' -> P a') ->
  for_each step xs acc = Ok r -> P r.
Proof.
  revert acc. induction xs as [|x xs IH]; intros acc Hacc Hstep; simpl.
  - now intros [= <-].
  - destruct (step x acc) as [acc'|e] eqn:E; simpl; [|discriminate].
    apply IH.
    + eapply Hstep; eauto. now left.
    + intros y a a' Hy. apply Hstep. now right.
Qed.

Lemma guarded_loop_invariant {I S} (P : S -> Prop) (step : I -> S -> result S)
    (xs : list I) (acc : S) :
  P acc ->
  (forall x a a', P a -> step x a = Ok a' -> P a') ->
  P (BinanceState.guarded_loop step xs acc).
Proof.
  intros Hacc Hstep. revert acc Hacc.
  induction xs as [|x xs IH]; intros acc Hacc; simpl; [exact Hacc|].
  destruct (step x acc) as [acc'|e] eqn:E; [|exact Hacc].
  apply IH. eapply Hstep; eauto.
Qed.

Lemma fold_left_invariant {I S} (P : S -> Prop) (step : S -> I -> S)
    (xs : list I) (acc : S) :
  P acc ->
  (forall x a, In x xs -> P a -> P (step a x)) ->
  P (fold_left step xs acc).
Proof.
  revert acc. induction xs as [|x xs IH]; intros acc Hacc Hstep; simpl; [exact Hacc|].
  apply IH.
  - apply Hstep; [now left | exact Hacc].
  - intros y a Hy. apply Hstep. now right.
Qed.

(** *** Dicts *)

Lemma dict_get_set_eq {V} (k : string) (v : V) (d : dict V) :
  dict_get k (dict_set k v d) = Some v.
Proof.
  induction d as [|[k' v'] d IH]; simpl.
  - now rewrite String.eqb_refl.
  - destruct (String.eqb k' k) eqn:E; simpl.
    + now rewrite String.eqb_refl.
    + now rewrite E.
Qed.

Lemma dict_set_Forall {V} (P : string * V -> Prop) (k : string) (v : V) (d : dict V) :
  P (k, v) -> Forall P d -> Forall P (dict_set k v d).
Proof.
  intros Hk. induction 1 as [|[k' v'] d Hx Hd IH]; simpl.
  - repeat constructor. exact Hk.
  - destruct (String.eqb k' k); constructor; assumption.
Qed.

Lemma dict_keys_set {V} (k j : string) (v : V) (d : dict V) :
  In j (dict_keys (dict_set k v d)) <-> j = k \/ In j (dict_keys d).
Proof.
  unfold dict_keys. induction d as [|[k' v'] d IH]; simpl.
  - intuition.
  - destruct (String.eqb_spec k' k) as [->|Hk]; simpl.
    + intuition.
    + rewrite IH. intuition.
Qed.

Lemma dict_set_fresh {V} (k : string) (v : V) (d : dict V) :
  ~ In k (dict_keys d) -> dict_set k v d = d ++ [(k, v)].
Proof.
  unfold dict_keys. induction d as [|[k' v'] d IH]; simpl; intros Hk; [reflexivity|].
  destruct (String.eqb_spec k' k) as [->|Hne]; [tauto|].
  rewrite IH; [reflexivity | tauto].
Qed.

Lemma dict_get_In {V} (k : string) (v : V) (d : dict V) :
  NoDup (dict_keys d) -> In (k, v) d <-> dict_get k d = Some v.
Proof.
  unfold dict_keys. induction d as [|[k' v'] d IH]; simpl; intros Hnd.
  - split; [tauto | discriminate].
  - apply NoDup_cons in Hnd as [Hk' Hnd].
    destruct (String.eqb_spec k' k) as [->|Hne].
    + split.
      * intros [[= ->]|Hin]; [reflexivity|].
        exfalso. apply Hk'. apply list_elem_of_In.
        apply in_map_iff. now exists (k, v).
      * intros [= ->]. now left.
    + rewrite <- (IH Hnd). split.
      * intros [[= ? ?]|Hin]; [congruence | exact Hin].
      * intros Hin. now right.
Qed.

(** *** Invariants of computations *)

Section Preservation.
Variable I : World -> Prop.
Hypothesis I_background : forall w, I w -> I (background w).
Hypothesis I_event : forall e w, I w -> I (with_event e w).
Hypothesis I_clock : forall t w, I w -> I (with_clock t w).

Lemma preserves_ret {A} (a : A) : preserves I (ret a).
Proof. intros net w H. exact H. Qed.

Lemma preserves_lift {A} (r : result A) : preserves I (lift r).
Proof. intros net w H. exact H. Qed.

Lemma preserves_get_world : preserves I get_world.
Proof. intros net w H. exact H. Qed.

Lemma preserves_time_time : preserves I time_time.
Proof. intros net w H. exact H. Qed.

Lemma preserves_modify (f : World -> World) :
  (forall w, I w -> I (f w)) -> preserves I (modify f).
Proof. intros Hf net w H. now apply Hf. Qed.

Lemma preserves_bind {A B} (m : M A) (k : A -> M B) :
  preserves I m -> (forall a, preserves I (k a)) -> preserves I (bind m k).
Proof.
  intros Hm Hk net w H. unfold bind.
  specialize (Hm net w H). destruct (m net w) as [[a|e] w']; simpl in *.
  - now apply Hk.
  - exact Hm.
Qed.

Lemma preserves_try_except {A} (body : M A) (handler : exn -> M A) :
  preserves I body -> (forall e, preserves I (handler e)) ->
  preserves I (try_except body handler).
Proof.
  intros Hm Hk net w H. unfold try_except.
  specialize (Hm net w H). destruct (body net w) as [[a|e] w']; simpl in *.
  - exact Hm.
  - now apply Hk.
Qed.

Lemma preserves_session_get {P} (url : string) (endpoint : Net -> response P) :
  preserves I (session_get url endpoint).
Proof.
  intros net w H. unfold session_get.
  destruct (endpoint net); simpl; apply I_background, I_event, H.
Qed.

Lemma preserves_resp_json {P} (resp : Z * option P) : preserves I (resp_json resp).
Proof. intros net w H. unfold resp_json. destruct (snd resp); exact H. Qed.

Lemma preserves_asyncio_sleep (d : Q) : preserves I (asyncio_sleep d).
Proof. intros net w H. apply I_background, I_clock, I_event, H. Qed.

Lemma preserves_gather {A} (ms : list (M A)) :
  Forall (preserves I) ms -> preserves I (gather ms).
Proof.
  induction 1 as [|m ms Hm Hms IH]; simpl.
  - apply preserves_ret.
  - apply preserves_bind; [exact Hm|]. intros a.
    apply preserves_bind; [exact IH|]. intros l. apply preserves_ret.
Qed.

End Preservation.

Lemma never_raises_ret {A} (a : A) : never_raises (ret a).
Proof. intros net w. exact Logic.I. Qed.

Lemma never_raises_get_world : never_raises get_world.
Proof. intros net w. exact Logic.I. Qed.

Lemma never_raises_time_time : never_raises time_time.
Proof. intros net w. exact Logic.I. Qed.

Lemma never_raises_modify (f : World -> World) : never_raises (modify f).
Proof. intros net w. exact Logic.I. Qed.

Lemma never_raises_asyncio_sleep (d : Q) : never_raises (asyncio_sleep d).
Proof. intros net w. exact Logic.I. Qed.

Lemma never_raises_bind {A B} (m : M A) (k : A -> M B) :
  never_raises m -> (forall a, never_raises (k a)) -> never_raises (bind m k).
Proof.
  intros Hm Hk net w. unfold bind. specialize (Hm net w).
  destruct (m net w) as [[a|e] w']; simpl in *; [apply Hk | contradiction].
Qed.

(** A [try] whose handler returns. *)
Lemma never_raises_try_except {A} (body : M A) (handler : exn -> M A) :
  (forall e, never_raises (handler e)) -> never_raises (try_except body handler).
Proof.
  intros Hk net w. unfold try_except.
  destruct (body net w) as [[a|e] w']; simpl; [exact Logic.I | apply Hk].
Qed.

Lemma never_raises_gather {A} (ms : list (M A)) :
  Forall never_raises ms -> never_raises (gather ms).
Proof.
  induction 1 as [|m ms Hm Hms IH]; simpl.
  - apply never_raises_ret.
  - apply never_raises_bind; [exact Hm|]. intros a.
    apply never_raises_bind; [exact IH|]. intros l. apply never_raises_ret.
Qed.

Lemma never_raises_returns {A} (m : M A) (net : Net) (w : World) :
  never_raises m -> exists a w', m net w = (Ok a, w').
Proof.
  intros H. specialize (H net w).
  destruct (m net w) as [[a|e] w']; simpl in H; [eauto | contradiction].
Qed.

(** *** The monitors keep canonical keys *)

Lemma on_mark_item_canonical (item : binance_mark_item)
    (d d' : dict BinanceState.mark) :
  Forall canonical_key d -> BinanceState.on_mark_item item d = Ok d' ->
  Forall canonical_key d'.
Proof.
  intros Hd. unfold BinanceState.on_mark_item.
  destruct (mk_s item) as [| |sym]; try discriminate; [now intros [= <-]|].
  destruct (String.eqb sym ""); [now intros [= <-]|].
  destruct (usdt_suffix_key sym) as [k|] eqn:Ek; [|now intros [= <-]].
  destruct (mk_r item), (mk_p item), (mk_T item); simpl; try discriminate;
    intros [= <-]; apply dict_set_Forall; auto;
    apply (usdt_suffix_key_canonical _ _ Ek).
Qed.

Lemma on_funding_item_canonical (item : okx_funding_item)
    (d d' : dict OKXState.funding) :
  Forall canonical_key d -> OKXState.on_funding_item item d = Ok d' ->
  Forall canonical_key d'.
Proof.
  intros Hd. unfold OKXState.on_funding_item.
  destruct (of_instId item) as [| |inst]; simpl; try discriminate.
  destruct (of_fundingRate item), (of_nextFundingTime item); simpl; try discriminate.
  intros [= <-]. apply dict_set_Forall; auto. apply ccxt_canonical.
Qed.

Lemma monitors_canonical_receive (m : ws_msg) (w : World) :
  monitors_canonical w -> monitors_canonical (receive m w).
Proof.
  intros [Hb Ho]. destruct m as [b|o]; simpl.
  - destruct (BinanceState._task (binance_monitor w)); [|now split].
    split; [|exact Ho]. simpl. destruct b; simpl; try exact Hb.
    apply guarded_loop_invariant; [exact Hb|].
    intros x a a' Ha. now apply on_mark_item_canonical.
  - destruct (OKXState._task (okx_monitor w)); [|now split].
    split; [exact Hb|]. simpl. destruct o; simpl; try exact Ho.
    apply guarded_loop_invariant; [exact Ho|].
    intros x a a' Ha. now apply on_funding_item_canonical.
Qed.

Lemma monitors_canonical_background (w : World) :
  monitors_canonical w -> monitors_canonical (background w).
Proof.
  intros H. unfold background. destruct (inbound w) as [|batch rest]; [exact H|].
  apply fold_left_invariant; [exact H|].
  intros m a _. apply monitors_canonical_receive.
Qed.

Lemma monitors_canonical_event (e : event) (w : World) :
  monitors_canonical w -> monitors_canonical (with_event e w).
Proof. intros H. exact H. Qed.

Lemma monitors_canonical_clock (t : Q) (w : World) :
  monitors_canonical w -> monitors_canonical (with_clock t w).
Proof. intros H. exact H. Qed.

Lemma monitors_canonical_inbound (l : list (list ws_msg)) (w : World) :
  monitors_canonical w -> monitors_canonical (with_inbound l w).
Proof. intros H. exact H. Qed.

Lemma monitors_canonical_spot (ex : exchange) (s : gset string) (t : Q) (w : World) :
  monitors_canonical w -> monitors_canonical (with_spot ex s t w).
Proof. intros H. exact H. Qed.

Lemma monitors_canonical_initial (now : Q) (incoming : list (list ws_msg)) :
  monitors_canonical (initial_world now incoming).
Proof. split; constructor. Qed.

Create HintDb world_inv.
#[local] Hint Resolve monitors_canonical_background monitors_canonical_event
  monitors_canonical_clock monitors_canonical_inbound monitors_canonical_spot
  monitors_canonical_initial : world_inv.

(** Decompose a computation along its binds, handlers and branches. *)
Ltac preserve_step :=
  first
    [ apply preserves_ret
    | apply preserves_lift
    | apply preserves_get_world
    | apply preserves_time_time
    | apply preserves_resp_json
    | apply preserves_session_get; auto with world_inv
    | apply preserves_asyncio_sleep; auto with world_inv
    | apply preserves_modify; intros; auto with world_inv
    | apply preserves_bind; [|intros ?]
    | apply preserves_try_except; [|intros ?]
    | match goal with
      | |- preserves _ (if ?b then _ else _) => destruct b
      | |- preserves _ (match ?x with _ => _ end) => destruct x
      end ].

Ltac returns_step :=
  first
    [ apply never_raises_ret
    | apply never_raises_get_world
    | apply never_raises_time_time
    | apply never_raises_modify
    | apply never_raises_asyncio_sleep
    | apply never_raises_try_except; intros ?
    | apply never_raises_bind; [|intros ?]
    | match goal with
      | |- never_raises (if ?b then _ else _) => destruct b
      | |- never_raises (match ?x with _ => _ end) => destruct x
      end ].

Lemma get_spot_symbols_canonical (ex : exchange) :
  preserves monitors_canonical (get_spot_symbols ex).
Proof.
  destruct ex; unfold get_spot_symbols, get_binance_spot_symbols,
    get_bybit_spot_symbols, get_bitget_spot_symbols, get_okx_spot_symbols,
    spot_symbols_with; repeat preserve_step.
Qed.

Lemma get_spot_symbols_returns (ex : exchange) : never_raises (get_spot_symbols ex).
Proof.
  destruct ex; unfold get_spot_symbols, get_binance_spot_symbols,
    get_bybit_spot_symbols, get_bitget_spot_symbols, get_okx_spot_symbols,
    spot_symbols_with; repeat returns_step.
Qed.

Lemma spot_universe_canonical (flag : bool) (ex : exchange) :
  preserves monitors_canonical (spot_universe flag (get_spot_symbols ex)).
Proof.
  destruct flag; simpl; [apply get_spot_symbols_canonical | apply preserves_ret].
Qed.

Lemma spot_universe_returns (flag : bool) (ex : exchange) :
  never_raises (spot_universe flag (get_spot_symbols ex)).
Proof.
  destruct flag; simpl; [apply get_spot_symbols_returns | apply never_raises_ret].
Qed.

Lemma binance_start_canonical :
  preserves monitors_canonical BinanceWebSocketMonitor.start.
Proof.
  apply preserves_modify. intros w [Hb Ho]. cbv zeta.
  destruct (BinanceState._task (binance_monitor w)); split; simpl; assumption.
Qed.

Lemma okx_start_canonical :
  preserves monitors_canonical OKXWebSocketMonitor.start.
Proof.
  apply preserves_modify. intros w [Hb Ho]. cbv zeta.
  destruct (OKXState._task (okx_monitor w)); split; simpl; assumption.
Qed.

Lemma collectors_canonical (ex : exchange) (flag : bool) :
  preserves monitors_canonical (collectors ex flag).
Proof.
  destruct ex; unfold collectors.
  - unfold BinanceWebSocketMonitor.get_snapshot.
    apply preserves_bind; [apply binance_start_canonical | intros _].
    apply preserves_bind; [apply (spot_universe_canonical flag binance) | intros s].
    repeat preserve_step.
  - unfold get_bybit_funding_rates.
    apply preserves_try_except; [|intros e; apply preserves_ret].
    apply preserves_bind; [apply (spot_universe_canonical flag bybit) | intros s].
    repeat preserve_step.
  - unfold get_bitget_funding_rates.
    apply preserves_try_except; [|intros e; apply preserves_ret].
    apply preserves_bind; [apply (spot_universe_canonical flag bitget) | intros s].
    repeat preserve_step.
  - unfold OKXWebSocketMonitor.get_snapshot.
    apply preserves_bind; [apply okx_start_canonical | intros _].
    apply preserves_bind; [apply preserves_get_world | intros w0].
    apply preserves_bind; [repeat preserve_step | intros _].
    apply preserves_bind; [apply (spot_universe_canonical flag okx) | intros s].
    repeat preserve_step.
Qed.

(** Every collector returns to its caller. *)
Lemma collectors_return (ex : exchange) (flag : bool) :
  never_raises (collectors ex flag).
Proof.
  destruct ex; unfold collectors.
  - unfold BinanceWebSocketMonitor.get_snapshot, BinanceWebSocketMonitor.start.
    apply never_raises_bind; [apply never_raises_modify | intros _].
    apply never_raises_bind; [apply (spot_universe_returns flag binance) | intros s].
    repeat returns_step.
  - unfold get_bybit_funding_rates. repeat returns_step.
  - unfold get_bitget_funding_rates. repeat returns_step.
  - unfold OKXWebSocketMonitor.get_snapshot, OKXWebSocketMonitor.start.
    apply never_raises_bind; [apply never_raises_modify | intros _].
    apply never_raises_bind; [apply never_raises_get_world | intros w0].
    apply never_raises_bind; [repeat returns_step | intros _].
    apply never_raises_bind; [apply (spot_universe_returns flag okx) | intros s].
    repeat returns_step.
Qed.

(** *** Aggregator *)

Lemma tasks_for_Forall (P : M snapshot -> Prop) (collector : exchange -> bool -> M snapshot)
    (exs : list string) (flag : bool) :
  (forall ex, P (collector ex flag)) ->
  Forall P (map snd (tasks_for collector exs flag)).
Proof.
  intros H. unfold tasks_for.
  repeat (destruct (bool_decide _)); simpl; repeat constructor; apply H.
Qed.

Lemma tasks_for_names (collector : exchange -> bool -> M snapshot)
    (exs : list string) (flag : bool) :
  map fst (tasks_for collector exs flag)
  = List.filter (fun n => bool_decide (n ∈ exs)) known_exchanges.
Proof.
  unfold tasks_for, known_exchanges. simpl.
  repeat (destruct (bool_decide _)); reflexivity.
Qed.

Lemma known_exchanges_NoDup : NoDup known_exchanges.
Proof.
  unfold known_exchanges.
  repeat (apply NoDup_cons_2; [rewrite ?elem_of_cons, ?elem_of_nil; intuition discriminate|]).
  apply NoDup_nil_2.
Qed.

Lemma filter_NoDup {A} (p : A -> bool) (l : list A) :
  NoDup l -> NoDup (List.filter p l).
Proof.
  induction 1 as [|x l Hx Hl IH]; simpl; [constructor|].
  destruct (p x); [|exact IH]. constructor; [|exact IH].
  rewrite list_elem_of_In, filter_In. rewrite list_elem_of_In in Hx. tauto.
Qed.

Lemma tasks_for_NoDup (collector : exchange -> bool -> M snapshot)
    (exs : list string) (flag : bool) :
  NoDup (map fst (tasks_for collector exs flag)).
Proof. rewrite tasks_for_names. apply filter_NoDup, known_exchanges_NoDup. Qed.

Lemma merge_results_fold (names : list string) (rs : list snapshot) (acc : dict snapshot) :
  NoDup names -> (forall n, In n names -> ~ In n (dict_keys acc)) ->
  fold_left (fun results nr => dict_set (fst nr) (snd nr) results)
    (combine names rs) acc
  = acc ++ combine names rs.
Proof.
  revert rs acc. induction names as [|n names IH]; intros rs acc Hnd Hfresh; simpl.
  - now rewrite app_nil_r.
  - destruct rs as [|r rs]; simpl; [now rewrite app_nil_r|].
    apply NoDup_cons in Hnd as [Hn Hnd].
    rewrite dict_set_fresh by (apply Hfresh; now left).
    rewrite IH; [now rewrite <- app_assoc | exact Hnd |].
    intros m Hm. unfold dict_keys. rewrite map_app, in_app_iff. simpl.
    intros [Hin|[->|[]]].
    + apply (Hfresh m); [now right | exact Hin].
    + apply Hn. now apply list_elem_of_In.
Qed.

Lemma merge_results_combine (names : list string) (rs : list snapshot) :
  NoDup names -> merge_results names rs = combine names rs.
Proof.
  intros Hnd. unfold merge_results.
  rewrite merge_results_fold; [reflexivity | exact Hnd | intros n _ []].
Qed.


(** The aggregator is [gather] followed by the pairing of names and
    responses; an exception leaves it as it left [gather]. *)
Lemma get_all_funding_rates_with_run (collector : exchange -> bool -> M snapshot)
    (exs : list string) (flag : bool) (net : Net) (w : World) :
  get_all_funding_rates_with collector exs flag net w =
  match gather (map snd (tasks_for collector exs flag)) net w with
  | (Ok rs, w') => (Ok (combine (map fst (tasks_for collector exs flag)) rs), w')
  | (Raise e, w') => (Raise e, w')
  end.
Proof.
  unfold get_all_funding_rates_with.
  pose proof (tasks_for_NoDup collector exs flag) as Hnd.
  destruct (tasks_for collector exs flag) as [|t tasks]; [reflexivity|].
  unfold bind at 1.
  destruct (gather (map snd (t :: tasks)) net w) as [[rs|e] w']; [|reflexivity].
  unfold ret. now rewrite merge_results_combine.
Qed.

Lemma gather_Awaited (net : Net) (tasks : list (string * M snapshot)) (w : World)
    (rs : list snapshot) (w' : World) :
  gather (map snd tasks) net w = (Ok rs, w') ->
  Awaited net tasks w (combine (map fst tasks) rs) w'.
Proof.
  revert w rs. induction tasks as [|[name m] tasks IH]; intros w rs; simpl.
  - unfold ret. intros [= <- <-]. constructor.
  - unfold bind at 1. destruct (m net w) as [[s|e] w1] eqn:Em; [|discriminate].
    unfold bind at 1.
    destruct (gather (map snd tasks) net w1) as [[l|e] w2] eqn:Eg; [|discriminate].
    unfold ret. intros [= <- <-]. simpl.
    econstructor; [exact Em | now apply IH].
Qed.

Lemma Awaited_gather (net : Net) (tasks : list (string * M snapshot)) (w : World)
    (named : list (string * snapshot)) (w' : World) :
  Awaited net tasks w named w' ->
  gather (map snd tasks) net w = (Ok (map snd named), w')
  /\ map fst named = map fst tasks.
Proof.
  induction 1 as [w|name m tasks w s w1 rs w2 Hm Haw [IHg IHn]]; simpl.
  - split; reflexivity.
  - unfold bind at 1. rewrite Hm. unfold bind at 1. rewrite IHg.
    unfold ret. simpl. split; [reflexivity | now rewrite IHn].
Qed.



Lemma get_all_funding_rates_returns (exs : list string) (flag : bool) :
  never_raises (get_all_funding_rates exs flag).
Proof.
  intros net w. unfold get_all_funding_rates.
  rewrite get_all_funding_rates_with_run.
  pose proof (never_raises_gather (map snd (tasks_for collectors exs flag))
                (tasks_for_Forall never_raises collectors exs flag
                   (fun ex => collectors_return ex flag)) net w) as H.
  destruct (gather _ net w) as [[rs|e] w']; simpl in *; [exact Logic.I | contradiction].
Qed.



(** *** REST funding fetchers *)

Lemma spot_universe_facts (flag : bool) (ex : exchange) (net : Net) (w : World)
    (spot : gset string) (w1 : World) :
  spot_universe flag (get_spot_symbols ex) net w = (Ok spot, w1) ->
  (flag = true -> spot = SPOT_SYMBOL_CACHE w1 ex)
  /\ (flag = false -> spot = ∅ /\ w1 = w)
  /\ (trace w1 = trace w \/ trace w1 = Request (spot_url ex) :: trace w).
Proof.
  destruct flag; simpl.
  - intros Hrun.
    destruct (get_spot_symbols_returns_cache ex net w) as (s0 & w0 & Hrun0 & Hs0).
    rewrite Hrun in Hrun0.
    assert (Es : s0 = spot) by congruence. assert (Ew : w0 = w1) by congruence.
    rewrite Es, Ew in Hs0. split; [auto|]. split; [discriminate|].
    rewrite get_spot_symbols_run in Hrun.
    destruct (spot_fresh ex w).
    + left. congruence.
    + right. cbv zeta in Hrun.
      destruct (spot_fetch ex net); inversion Hrun; subst; simpl;
        now rewrite background_trace.
  - unfold ret. intros [= <- <-]. split; [discriminate|]. split; auto.
Qed.

Lemma get_bybit_funding_rates_run (flag : bool) (net : Net) (w : World)
    (spot : gset string) (w1 : World) :
  spot_universe flag (get_spot_symbols bybit) net w = (Ok spot, w1) ->
  get_bybit_funding_rates flag net w
  = (Ok (snapshot_of bybit_code_ok
           (fun l => for_each (bybit_item_step flag spot) l [])
           (bybit_tickers net)),
     background (with_event (Request bybit_tickers_url) w1)).
Proof.
  intros Hs. unfold get_bybit_funding_rates, try_except.
  change get_bybit_spot_symbols with (get_spot_symbols bybit).
  unfold bind at 1. rewrite Hs.
  unfold bind at 1, session_get, snapshot_of.
  destruct (bybit_tickers net) as [|status [env|]]; simpl; try reflexivity.
  - destruct (status =? 200)%Z; simpl; [|reflexivity].
    unfold bind, resp_json, ret, lift. simpl.
    destruct (env_code env) as [[| |]|]; simpl; try reflexivity.
    destruct (env_items env) as [l|]; simpl; [|reflexivity].
    destruct (for_each (bybit_item_step flag spot) l []); reflexivity.
  - destruct (status =? 200)%Z; reflexivity.
Qed.

Lemma get_bitget_funding_rates_run (flag : bool) (net : Net) (w : World)
    (spot : gset string) (w1 : World) :
  spot_universe flag (get_spot_symbols bitget) net w = (Ok spot, w1) ->
  get_bitget_funding_rates flag net w
  = (Ok (snapshot_of (code_is "00000")
           (fun l => for_each (bitget_item_step flag spot) l [])
           (bitget_tickers net)),
     background (with_event (Request bitget_tickers_url) w1)).
Proof.
  intros Hs. unfold get_bitget_funding_rates, try_except.
  change get_bitget_spot_symbols with (get_spot_symbols bitget).
  unfold bind at 1. rewrite Hs.
  unfold bind at 1, session_get, snapshot_of.
  destruct (bitget_tickers net) as [|status [env|]]; simpl; try reflexivity.
  - destruct (status =? 200)%Z; simpl; [|reflexivity].
    unfold bind, resp_json, ret, lift. simpl.
    destruct (code_is "00000" (env_code env)); simpl; try reflexivity.
    destruct (env_items env) as [l|]; simpl; [|reflexivity].
    destruct (for_each (bitget_item_step flag spot) l []); reflexivity.
  - destruct (status =? 200)%Z; reflexivity.
Qed.

Lemma snapshot_of_error {C I : Type} (code_ok : option C -> bool)
    (loop : list I -> result snapshot) (r : response (envelope C I)) :
  whole_call_error code_ok loop r -> snapshot_of code_ok loop r = [].
Proof.
  intros [|status body Hst| |env Hc Hi|env l e Hc Hi Hl]; simpl; try reflexivity.
  - destruct body; [|reflexivity]. destruct (Z.eqb_spec status 200); [contradiction|].
    reflexivity.
  - rewrite Hc, Hi. reflexivity.
  - rewrite Hc, Hi, Hl. reflexivity.
Qed.

Lemma requests_to_other (url other : string) (tr : list event) :
  String.eqb other url = false ->
  requests_to url (Request other :: tr) = requests_to url tr.
Proof. intros H. unfold requests_to. simpl. now rewrite H. Qed.

Lemma requests_to_same (url : string) (tr : list event) :
  requests_to url (Request url :: tr) = S (requests_to url tr).
Proof. unfold requests_to. simpl. now rewrite String.eqb_refl. Qed.

Lemma requests_after_spot_universe (flag : bool) (ex : exchange) (net : Net) (w : World)
    (spot : gset string) (w1 : World) (url : string) :
  String.eqb (spot_url ex) url = false ->
  spot_universe flag (get_spot_symbols ex) net w = (Ok spot, w1) ->
  requests_to url (trace w1) = requests_to url (trace w).
Proof.
  intros Hurl Hs. apply spot_universe_facts in Hs as (_ & _ & [->| ->]);
    [reflexivity | now apply requests_to_other].
Qed.

(** C7. Each REST funding fetcher returns to its caller whatever the input;
    it answers the empty snapshot whenever the call fails as a whole (no
    connection, a status other than 200, an undecodable body, a missing
    listing, an instrument on which the loop raises); and it issues exactly
    one request to its tickers endpoint per call, so nothing is retried. *)
Theorem rest_fetchers_degrade (flag : bool) (net : Net) (w : World) :
  (exists spot w1 snap w',
      spot_universe flag get_bybit_spot_symbols net w = (Ok spot, w1)
      /\ get_bybit_funding_rates flag net w = (Ok snap, w')
      /\ requests_to bybit_tickers_url (trace w')
         = S (requests_to bybit_tickers_url (trace w))
      /\ (whole_call_error bybit_code_ok
            (fun l => for_each (bybit_item_step flag spot) l [])
            (bybit_tickers net) -> snap = []))
  /\ (exists spot w1 snap w',
         spot_universe flag get_bitget_spot_symbols net w = (Ok spot, w1)
         /\ get_bitget_funding_rates flag net w = (Ok snap, w')
         /\ requests_to bitget_tickers_url (trace w')
            = S (requests_to bitget_tickers_url (trace w))
         /\ (whole_call_error (code_is "00000")
               (fun l => for_each (bitget_item_step flag spot) l [])
               (bitget_tickers net) -> snap = [])).
Proof.
  split.
  - destruct (never_raises_returns _ net w (spot_universe_returns flag bybit))
      as (spot & w1 & Hs).
    exists spot, w1. eexists _, _. split; [exact Hs|].
    split; [apply (get_bybit_funding_rates_run _ _ _ _ _ Hs)|]. split.
    + rewrite background_trace. simpl. rewrite requests_to_same. f_equal.
      eapply requests_after_spot_universe; [|exact Hs]. reflexivity.
    + apply snapshot_of_error.
  - destruct (never_raises_returns _ net w (spot_universe_returns flag bitget))
      as (spot & w1 & Hs).
    exists spot, w1. eexists _, _. split; [exact Hs|].
    split; [apply (get_bitget_funding_rates_run _ _ _ _ _ Hs)|]. split.
    + rewrite background_trace. simpl. rewrite requests_to_same. f_equal.
      eapply requests_after_spot_universe; [|exact Hs]. reflexivity.
    + apply snapshot_of_error.
Qed.

Lemma rest_fetchers_degrade_witness :
  fst (get_bybit_funding_rates true net_down (initial_world 0 [])) = Ok []
  /\ fst (get_bitget_funding_rates true net_down (initial_world 0 [])) = Ok [].
Proof.
  destruct (rest_fetchers_degrade true net_down (initial_world 0 []))
    as [(s1 & w1 & snap1 & w1' & _ & Hrun1 & _ & Herr1)
        (s2 & w2 & snap2 & w2' & _ & Hrun2 & _ & Herr2)].
  rewrite Hrun1, Hrun2. simpl.
  rewrite (Herr1 (error_connection _ _)), (Herr2 (error_connection _ _)).
  split; reflexivity.
Defined.

(** *** The loops of the collectors *)

Lemma bybit_item_step_keyed (flag : bool) (spot : gset string) :
  keyed_step bybit_key_of flag spot (bybit_item_step flag spot).
Proof.
  intros item acc acc'. unfold bybit_item_step, bybit_key_of.
  destruct (by_symbol item) as [| |sym]; simpl; try discriminate.
  destruct (usdt_suffix_key sym) as [k|]; [|now intros [= <-]].
  destruct (filtered_out flag spot k); [now intros [= <-]|].
  destruct (by_fundingRate item), (by_turnover24h item), (by_lastPrice item),
    (by_nextFundingTime item); simpl; try discriminate.
  intros [= <-]. eexists. split; [|reflexivity]. reflexivity.
Qed.

Lemma bitget_item_step_keyed (flag : bool) (spot : gset string) :
  keyed_step bitget_key_of flag spot (bitget_item_step flag spot).
Proof.
  intros item acc acc'. unfold bitget_item_step, bitget_key_of.
  destruct (bg_symbol item) as [| |sym]; simpl; try discriminate.
  destruct (bitget_key sym) as [k|]; [|now intros [= <-]].
  destruct (filtered_out flag spot k); [now intros [= <-]|].
  destruct (bg_fundingRate item), (bg_quoteVolume item), (bg_last item);
    simpl; try discriminate;
    intros [= <-]; (eexists; split; [|reflexivity]; reflexivity).
Qed.

(** Whether a loop body raises depends on the instrument, not on the
    snapshot built so far. *)
Lemma bybit_item_step_no_raise (flag : bool) (spot : gset string)
    (item : bybit_ticker) (acc : snapshot) :
  no_raise (bybit_item_step flag spot item []) ->
  no_raise (bybit_item_step flag spot item acc).
Proof.
  unfold bybit_item_step.
  destruct (by_symbol item) as [| |sym]; simpl; try tauto.
  destruct (usdt_suffix_key sym) as [k|]; [|tauto].
  destruct (filtered_out flag spot k); [tauto|].
  destruct (by_fundingRate item), (by_turnover24h item), (by_lastPrice item),
    (by_nextFundingTime item); simpl; tauto.
Qed.

Lemma bitget_item_step_no_raise (flag : bool) (spot : gset string)
    (item : bitget_ticker) (acc : snapshot) :
  no_raise (bitget_item_step flag spot item []) ->
  no_raise (bitget_item_step flag spot item acc).
Proof.
  unfold bitget_item_step.
  destruct (bg_symbol item) as [| |sym]; simpl; try tauto.
  destruct (bitget_key sym) as [k|]; [|tauto].
  destruct (filtered_out flag spot k); [tauto|].
  destruct (bg_fundingRate item), (bg_quoteVolume item), (bg_last item);
    simpl; tauto.
Qed.

Lemma for_each_no_raise {I S} (step : I -> S -> result S) (xs : list I) (acc : S) :
  Forall (fun x => forall a, no_raise (step x a)) xs ->
  exists r, for_each step xs acc = Ok r.
Proof.
  intros H. revert acc. induction H as [|x xs Hx Hxs IH]; intros acc; simpl.
  - eauto.
  - specialize (Hx acc). destruct (step x acc) as [acc'|e]; simpl in *;
      [apply IH | contradiction].
Qed.

Lemma filtered_out_false (spot : gset string) (k : string) :
  filtered_out false spot k = false.
Proof. reflexivity. Qed.

Lemma filtered_out_true (spot : gset string) (k : string) :
  filtered_out true spot k = false -> k ∈ spot.
Proof.
  unfold filtered_out. simpl. rewrite negb_false_iff.
  apply bool_decide_eq_true_1.
Qed.

Section KeyedLoop.
Context {I : Type} (key_of : I -> option string) (flag : bool) (spot : gset string).
Context (step : I -> snapshot -> result snapshot).
Hypothesis step_keyed : keyed_step key_of flag spot step.

Lemma keyed_loop_canonical (xs : list I) (acc r : snapshot) :
  (forall x k, In x xs -> key_of x = Some k -> endswith k "/USDT:USDT" = true) ->
  Forall canonical_entry acc ->
  for_each step xs acc = Ok r -> Forall canonical_entry r.
Proof.
  intros Hkeys Hacc. apply for_each_invariant; [exact Hacc|].
  intros x a a' Hx Ha Hs. specialize (step_keyed x a a' Hs).
  destruct (key_of x) as [k|] eqn:Ek; [|now subst].
  destruct (filtered_out flag spot k); [now subst|].
  destruct step_keyed as (e & He & ->).
  apply dict_set_Forall; [|exact Ha].
  split; simpl; [exact He | eapply Hkeys; eauto].
Qed.

Lemma keyed_loop_within_spot (xs : list I) (acc r : snapshot) :
  flag = true ->
  (forall k, In k (dict_keys acc) -> k ∈ spot) ->
  for_each step xs acc = Ok r ->
  forall k, In k (dict_keys r) -> k ∈ spot.
Proof.
  intros Hflag Hacc. apply (for_each_invariant (fun s => forall k, In k (dict_keys s) -> k ∈ spot));
    [exact Hacc|].
  intros x a a' _ Ha Hs. specialize (step_keyed x a a' Hs).
  destruct (key_of x) as [k|] eqn:Ek; [|now subst].
  destruct (filtered_out flag spot k) eqn:Ef; [now subst|].
  destruct step_keyed as (e & He & ->).
  intros j Hj. apply dict_keys_set in Hj as [->|Hj]; [|now apply Ha].
  subst flag. now apply filtered_out_true.
Qed.

Lemma keyed_loop_keeps_all (xs : list I) (acc r : snapshot) :
  flag = false ->
  for_each step xs acc = Ok r ->
  (forall k, In k (dict_keys acc) -> In k (dict_keys r))
  /\ (forall x k, In x xs -> key_of x = Some k -> In k (dict_keys r)).
Proof.
  intros Hflag. revert acc. induction xs as [|x xs IH]; intros acc; simpl.
  - intros [= <-]. split; [auto | intros x k []].
  - destruct (step x acc) as [acc'|e] eqn:Es; simpl; [|discriminate].
    intros Hr. destruct (IH acc' Hr) as [Hmono Hall].
    pose proof (step_keyed x acc acc' Es) as Hshape.
    assert (Hgrow : forall k, In k (dict_keys acc) -> In k (dict_keys acc')).
    { intros k Hk. destruct (key_of x) as [k0|]; [|now subst].
      destruct (filtered_out flag spot k0); [now subst|].
      destruct Hshape as (e & _ & ->). apply dict_keys_set. now right. }
    split; [auto|].
    intros y k [<-|Hy] Hk; [|eauto].
    apply Hmono. rewrite Hk in Hshape. subst flag.
    rewrite filtered_out_false in Hshape. destruct Hshape as (e & _ & ->).
    apply dict_keys_set. now left.
Qed.

End KeyedLoop.

Lemma bybit_key_of_canonical (item : bybit_ticker) (k : string) :
  bybit_key_of item = Some k -> endswith k "/USDT:USDT" = true.
Proof.
  unfold bybit_key_of. destruct (by_symbol item); try discriminate.
  apply usdt_suffix_key_canonical.
Qed.

Lemma bitget_key_of_canonical (item : bitget_ticker) (k : string) :
  bitget_key_of item = Some k -> endswith k "/USDT:USDT" = true.
Proof.
  unfold bitget_key_of. destruct (bg_symbol item); try discriminate.
  apply bitget_key_canonical.
Qed.

(** What [snapshot_of] hands back is the empty snapshot or the result of the
    loop over the listing. *)
Lemma snapshot_of_cases {C I : Type} (code_ok : option C -> bool)
    (loop : list I -> result snapshot) (r : response (envelope C I)) :
  snapshot_of code_ok loop r = []
  \/ exists l, listing code_ok r = Some l /\ loop l = Ok (snapshot_of code_ok loop r).
Proof.
  unfold snapshot_of, listing. destruct r as [|status [env|]]; auto.
  destruct ((status =? 200)%Z && code_ok (env_code env)); auto.
  destruct (env_items env) as [l|]; auto.
  destruct (loop l) as [s|e] eqn:El; auto. right. eauto.
Qed.

Lemma snapshot_of_listing {C I : Type} (code_ok : option C -> bool)
    (loop : list I -> result snapshot) (r : response (envelope C I))
    (l : list I) (s : snapshot) :
  listing code_ok r = Some l -> loop l = Ok s -> snapshot_of code_ok loop r = s.
Proof.
  unfold snapshot_of, listing. destruct r as [|status [env|]]; try discriminate.
  destruct ((status =? 200)%Z && code_ok (env_code env)); [|discriminate].
  intros -> ->. reflexivity.
Qed.

(** *** The snapshots of the monitors *)

Lemma binance_snapshot_step_cases (flag : bool) (spot : gset string)
    (tv : dict Q) (snap : snapshot) (kv : string * BinanceState.mark) :
  if filtered_out flag spot (fst kv)
  then BinanceWebSocketMonitor.snapshot_step flag spot tv snap kv = snap
  else exists e, symbol e = fst kv
                 /\ BinanceWebSocketMonitor.snapshot_step flag spot tv snap kv
                    = dict_set (fst kv) e snap.
Proof.
  destruct kv as [sym mk]. unfold BinanceWebSocketMonitor.snapshot_step. simpl.
  destruct (filtered_out flag spot sym); [reflexivity|].
  eexists. split; [|reflexivity]. reflexivity.
Qed.

Lemma okx_snapshot_step_cases (flag : bool) (spot : gset string)
    (td : dict OKXState.ticker) (snap : snapshot) (kv : string * OKXState.funding) :
  if filtered_out flag spot (fst kv)
  then OKXWebSocketMonitor.snapshot_step flag spot td snap kv = snap
  else exists e, symbol e = fst kv
                 /\ OKXWebSocketMonitor.snapshot_step flag spot td snap kv
                    = dict_set (fst kv) e snap.
Proof.
  destruct kv as [sym fd]. unfold OKXWebSocketMonitor.snapshot_step. simpl.
  destruct (filtered_out flag spot sym); [reflexivity|].
  eexists. split; [|reflexivity]. reflexivity.
Qed.

Section MonitorSnapshot.
Context {V : Type} (flag : bool) (spot : gset string).
Context (step : snapshot -> string * V -> snapshot).
Hypothesis step_cases :
  forall snap kv,
    if filtered_out flag spot (fst kv) then step snap kv = snap
    else exists e, symbol e = fst kv /\ step snap kv = dict_set (fst kv) e snap.

Lemma monitor_snapshot_canonical (data : dict V) :
  Forall canonical_key data ->
  Forall canonical_entry (fold_left step data []).
Proof.
  intros Hdata. apply fold_left_invariant; [constructor|].
  intros kv a Hin Ha. specialize (step_cases a kv).
  destruct (filtered_out flag spot (fst kv)); [now rewrite step_cases|].
  destruct step_cases as (e & He & ->).
  apply dict_set_Forall; [|exact Ha]. split; simpl; [exact He|].
  rewrite List.Forall_forall in Hdata. exact (Hdata kv Hin).
Qed.

Lemma monitor_snapshot_within_spot (data : dict V) :
  flag = true ->
  forall k, In k (dict_keys (fold_left step data [])) -> k ∈ spot.
Proof.
  intros Hflag.
  apply (fold_left_invariant (fun s => forall k, In k (dict_keys s) -> k ∈ spot));
    [intros k []|].
  intros kv a _ Ha. specialize (step_cases a kv).
  destruct (filtered_out flag spot (fst kv)) eqn:Ef; [now rewrite step_cases|].
  destruct step_cases as (e & He & ->).
  intros j Hj. apply dict_keys_set in Hj as [->|Hj]; [|now apply Ha].
  subst flag. now apply filtered_out_true.
Qed.

Lemma monitor_snapshot_keeps_all_from (data : dict V) (acc : snapshot) :
  flag = false ->
  forall k, In k (dict_keys acc) \/ In k (dict_keys data) ->
            In k (dict_keys (fold_left step data acc)).
Proof.
  intros Hflag. revert acc. induction data as [|kv data IH]; intros acc k; simpl.
  - intros [H|[]]. exact H.
  - intros Hk. apply IH. specialize (step_cases acc kv). subst flag.
    rewrite filtered_out_false in step_cases. destruct step_cases as (e & _ & ->).
    rewrite dict_keys_set. destruct Hk as [H|[H|H]]; auto.
Qed.

End MonitorSnapshot.

Lemma binance_get_snapshot_run (flag : bool) (net : Net) (w : World)
    (spot : gset string) (w1 : World) :
  spot_universe flag (get_spot_symbols binance) net
    (snd (BinanceWebSocketMonitor.start net w)) = (Ok spot, w1) ->
  BinanceWebSocketMonitor.get_snapshot flag net w
  = (Ok (fold_left
           (BinanceWebSocketMonitor.snapshot_step flag spot
              (BinanceState._ticker_volume (binance_monitor w1)))
           (BinanceState._mark_data (binance_monitor w1)) []),
     w1).
Proof.
  set (w0 := snd (BinanceWebSocketMonitor.start net w)).
  intros Hs. unfold BinanceWebSocketMonitor.get_snapshot.
  change get_binance_spot_symbols with (get_spot_symbols binance).
  unfold bind at 1.
  change (BinanceWebSocketMonitor.start net w) with (@Ok unit tt, w0).
  cbv beta iota. unfold bind at 1. rewrite Hs. reflexivity.
Qed.

Lemma okx_get_snapshot_run (flag : bool) (net : Net) (w : World)
    (spot : gset string) (w1 : World) :
  let w0 := snd (OKXWebSocketMonitor.start net w) in
  let w0' := match OKXState._funding_data (okx_monitor w0) with
             | [] => snd (asyncio_sleep 3 net w0)
             | _ :: _ => w0
             end in
  spot_universe flag (get_spot_symbols okx) net w0' = (Ok spot, w1) ->
  OKXWebSocketMonitor.get_snapshot flag net w
  = (Ok (fold_left
           (OKXWebSocketMonitor.snapshot_step flag spot
              (OKXState._ticker_data (okx_monitor w1)))
           (OKXState._funding_data (okx_monitor w1)) []),
     w1).
Proof.
  intros w0 w0' Hs. unfold OKXWebSocketMonitor.get_snapshot.
  change get_okx_spot_symbols with (get_spot_symbols okx).
  unfold bind at 1.
  change (OKXWebSocketMonitor.start net w) with (@Ok unit tt, w0).
  cbv beta iota. unfold bind at 1, get_world. cbv beta iota.
  unfold bind at 1. unfold w0' in Hs.
  destruct (OKXState._funding_data (okx_monitor w0)) as [|kv rest].
  - change (asyncio_sleep 3 net w0) with (@Ok unit tt, snd (asyncio_sleep 3 net w0)).
    cbv beta iota. unfold bind at 1. rewrite Hs. reflexivity.
  - unfold ret at 1. cbv beta iota. unfold bind at 1. rewrite Hs. reflexivity.
Qed.

Lemma get_all_funding_rates_canonical (exs : list string) (flag : bool) :
  preserves monitors_canonical (get_all_funding_rates exs flag).
Proof.
  unfold get_all_funding_rates, get_all_funding_rates_with.
  pose proof (tasks_for_Forall (preserves monitors_canonical) collectors exs flag
                (fun ex => collectors_canonical ex flag)) as Hall.
  destruct (tasks_for collectors exs flag) as [|t tasks]; [apply preserves_ret|].
  apply preserves_bind; [now apply preserves_gather | intros rs; apply preserves_ret].
Qed.

Lemma check_threshold_alerts_canonical (settings : UserSettings) :
  preserves monitors_canonical (check_threshold_alerts settings).
Proof.
  unfold check_threshold_alerts.
  destruct (negb (active settings)); [apply preserves_ret|].
  apply preserves_bind; [apply get_all_funding_rates_canonical | intros r].
  repeat preserve_step.
Qed.

(** In every world the process can reach, the monitors hold canonical keys. *)
Lemma reachable_canonical (w : World) : reachable w -> monitors_canonical w.
Proof.
  induction 1 as [now incoming|t w Hr IH|l w Hr IH|w Hr IH|A m net w Hep Hr IH].
  - apply monitors_canonical_initial.
  - exact IH.
  - exact IH.
  - now apply monitors_canonical_background.
  - destruct Hep.
    + now apply get_spot_symbols_canonical.
    + now apply collectors_canonical.
    + now apply get_all_funding_rates_canonical.
    + now apply check_threshold_alerts_canonical.
Qed.

(** A snapshot of a collector: its keys lie in the spot set when the filter
    is on, and its entries are canonical when the monitors' keys are. *)
Lemma collectors_snapshot (ex : exchange) (flag : bool) (net : Net) (w : World) :
  exists snap w',
    collectors ex flag net w = (Ok snap, w')
    /\ (flag = true -> forall k, In k (dict_keys snap) -> k ∈ SPOT_SYMBOL_CACHE w' ex)
    /\ (monitors_canonical w -> Forall canonical_entry snap).
Proof.
  destruct ex; unfold collectors.
  - destruct (never_raises_returns _ net (snd (BinanceWebSocketMonitor.start net w))
                (spot_universe_returns flag binance)) as (spot & w1 & Hs).
    eexists _, _. split; [apply (binance_get_snapshot_run _ _ _ _ _ Hs)|]. split.
    + intros Hflag k Hk.
      destruct (spot_universe_facts _ _ _ _ _ _ Hs) as (Hspot & _ & _).
      rewrite <- (Hspot Hflag).
      eapply monitor_snapshot_within_spot; [|exact Hflag|exact Hk].
      intros snap kv. apply binance_snapshot_step_cases.
    + intros Hcan.
      assert (Hcan1 : monitors_canonical w1).
      { pose proof (spot_universe_canonical flag binance net _
                      (binance_start_canonical net w Hcan)) as H.
        now rewrite Hs in H. }
      eapply monitor_snapshot_canonical; [|apply Hcan1].
      intros snap kv. apply binance_snapshot_step_cases.
  - destruct (never_raises_returns _ net w (spot_universe_returns flag bybit))
      as (spot & w1 & Hs).
    eexists _, _. split; [apply (get_bybit_funding_rates_run _ _ _ _ _ Hs)|].
    destruct (snapshot_of_cases bybit_code_ok
                (fun l => for_each (bybit_item_step flag spot) l [])
                (bybit_tickers net)) as [->|(l & _ & Hl)].
    + split; [intros _ k [] | constructor].
    + split.
      * intros Hflag k Hk. rewrite background_cache. simpl.
        destruct (spot_universe_facts _ _ _ _ _ _ Hs) as (Hspot & _ & _).
        rewrite <- (Hspot Hflag).
        eapply (keyed_loop_within_spot _ _ _ _ (bybit_item_step_keyed flag spot));
          [exact Hflag | | exact Hl | exact Hk].
        intros j [].
      * intros _.
        eapply (keyed_loop_canonical _ _ _ _ (bybit_item_step_keyed flag spot));
          [| |exact Hl]; [|constructor].
        intros x k _. apply bybit_key_of_canonical.
  - destruct (never_raises_returns _ net w (spot_universe_returns flag bitget))
      as (spot & w1 & Hs).
    eexists _, _. split; [apply (get_bitget_funding_rates_run _ _ _ _ _ Hs)|].
    destruct (snapshot_of_cases (code_is "00000")
                (fun l => for_each (bitget_item_step flag spot) l [])
                (bitget_tickers net)) as [->|(l & _ & Hl)].
    + split; [intros _ k [] | constructor].
    + split.
      * intros Hflag k Hk. rewrite background_cache. simpl.
        destruct (spot_universe_facts _ _ _ _ _ _ Hs) as (Hspot & _ & _).
        rewrite <- (Hspot Hflag).
        eapply (keyed_loop_within_spot _ _ _ _ (bitget_item_step_keyed flag spot));
          [exact Hflag | | exact Hl | exact Hk].
        intros j [].
      * intros _.
        eapply (keyed_loop_canonical _ _ _ _ (bitget_item_step_keyed flag spot));
          [| |exact Hl]; [|constructor].
        intros x k _. apply bitget_key_of_canonical.
  - set (w0 := snd (OKXWebSocketMonitor.start net w)).
    set (w0' := match OKXState._funding_data (okx_monitor w0) with
                | [] => snd (asyncio_sleep 3 net w0)
                | _ :: _ => w0
                end).
    destruct (never_raises_returns _ net w0' (spot_universe_returns flag okx))
      as (spot & w1 & Hs).
    eexists _, _. split; [apply (okx_get_snapshot_run _ _ _ _ _ Hs)|]. split.
    + intros Hflag k Hk.
      destruct (spot_universe_facts _ _ _ _ _ _ Hs) as (Hspot & _ & _).
      rewrite <- (Hspot Hflag).
      eapply monitor_snapshot_within_spot; [|exact Hflag|exact Hk].
      intros snap kv. apply okx_snapshot_step_cases.
    + intros Hcan.
      assert (Hcan0 : monitors_canonical w0) by (apply okx_start_canonical, Hcan).
      assert (Hcan0' : monitors_canonical w0').
      { unfold w0'. destruct (OKXState._funding_data (okx_monitor w0)); [|exact Hcan0].
        apply (preserves_asyncio_sleep monitors_canonical); auto with world_inv. }
      assert (Hcan1 : monitors_canonical w1).
      { pose proof (spot_universe_canonical flag okx net _ Hcan0') as H.
        now rewrite Hs in H. }
      eapply monitor_snapshot_canonical; [|apply Hcan1].
      intros snap kv. apply okx_snapshot_step_cases.
Qed.

(** *** The intersection filter and the shape of snapshots *)

(** What holds of the intersection filter on every input.  With the spot
    filter enabled, every collector returns a snapshot all of whose keys
    belong to that exchange's spot-symbol set as the call leaves it.  With
    the filter disabled, whatever the spot sets hold: a REST fetcher files
    every instrument of the listing that has a USDT-perpetual key provided no
    instrument of the listing raises, and a streaming monitor files every
    instrument held in its funding state. *)
Theorem intersection_filter (net : Net) (w : World) :
  (forall ex, exists snap w',
      collectors ex true net w = (Ok snap, w')
      /\ forall k, In k (dict_keys snap) -> k ∈ SPOT_SYMBOL_CACHE w' ex)
  /\ (forall l,
        listing bybit_code_ok (bybit_tickers net) = Some l ->
        Forall (fun item => no_raise (bybit_item_step false ∅ item [])) l ->
        exists snap w',
          get_bybit_funding_rates false net w = (Ok snap, w')
          /\ forall item k, In item l -> bybit_key_of item = Some k ->
                            In k (dict_keys snap))
  /\ (forall l,
        listing (code_is "00000") (bitget_tickers net) = Some l ->
        Forall (fun item => no_raise (bitget_item_step false ∅ item [])) l ->
        exists snap w',
          get_bitget_funding_rates false net w = (Ok snap, w')
          /\ forall item k, In item l -> bitget_key_of item = Some k ->
                            In k (dict_keys snap))
  /\ (exists snap w',
        BinanceWebSocketMonitor.get_snapshot false net w = (Ok snap, w')
        /\ forall k, In k (dict_keys (BinanceState._mark_data (binance_monitor w'))) ->
                     In k (dict_keys snap))
  /\ (exists snap w',
        OKXWebSocketMonitor.get_snapshot false net w = (Ok snap, w')
        /\ forall k, In k (dict_keys (OKXState._funding_data (okx_monitor w'))) ->
                     In k (dict_keys snap)).
Proof.
  split; [|split; [|split; [|split]]].
  - intros ex. destruct (collectors_snapshot ex true net w) as (snap & w' & Hrun & Hspot & _).
    exists snap, w'. split; [exact Hrun | now apply Hspot].
  - intros l Hl Hparse.
    assert (Hs : spot_universe false (get_spot_symbols bybit) net w = (Ok ∅, w))
      by reflexivity.
    destruct (for_each_no_raise (bybit_item_step false ∅) l []) as [r Hr].
    { eapply Forall_impl; [exact Hparse|]. intros item Hi a.
      now apply bybit_item_step_no_raise. }
    eexists _, _. split; [apply (get_bybit_funding_rates_run _ _ _ _ _ Hs)|].
    rewrite (snapshot_of_listing _ _ _ l r Hl Hr).
    apply (keyed_loop_keeps_all _ _ _ _ (bybit_item_step_keyed false ∅) l [] r eq_refl Hr).
  - intros l Hl Hparse.
    assert (Hs : spot_universe false (get_spot_symbols bitget) net w = (Ok ∅, w))
      by reflexivity.
    destruct (for_each_no_raise (bitget_item_step false ∅) l []) as [r Hr].
    { eapply Forall_impl; [exact Hparse|]. intros item Hi a.
      now apply bitget_item_step_no_raise. }
    eexists _, _. split; [apply (get_bitget_funding_rates_run _ _ _ _ _ Hs)|].
    rewrite (snapshot_of_listing _ _ _ l r Hl Hr).
    apply (keyed_loop_keeps_all _ _ _ _ (bitget_item_step_keyed false ∅) l [] r eq_refl Hr).
  - eexists _, _. split; [apply (binance_get_snapshot_run false net w ∅); reflexivity|].
    intros k Hk. eapply monitor_snapshot_keeps_all_from; [| reflexivity | right; exact Hk].
    intros snap kv. apply binance_snapshot_step_cases.
  - destruct (never_raises_returns _ net w (collectors_return okx false))
      as (snap & w' & Hrun).
    exists snap, w'. split; [exact Hrun|].
    simpl in Hrun.
    set (w0 := snd (OKXWebSocketMonitor.start net w)) in *.
    set (w0' := match OKXState._funding_data (okx_monitor w0) with
                | [] => snd (asyncio_sleep 3 net w0)
                | _ :: _ => w0
                end).
    assert (Hs : spot_universe false (get_spot_symbols okx) net w0' = (Ok ∅, w0'))
      by reflexivity.
    rewrite (okx_get_snapshot_run false net w ∅ w0' Hs) in Hrun.
    inversion Hrun; subst. clear Hrun.
    intros k Hk. eapply monitor_snapshot_keeps_all_from; [| reflexivity | right; exact Hk].
    intros snap kv. apply okx_snapshot_step_cases.
Qed.

Lemma intersection_filter_witness :
  (exists snap w',
      collectors bybit true net_sample (initial_world 0 []) = (Ok snap, w')
      /\ forall k, In k (dict_keys snap) -> k ∈ SPOT_SYMBOL_CACHE w' bybit)
  /\ (exists snap w',
         get_bybit_funding_rates false net_sample (initial_world 0 []) = (Ok snap, w')
         /\ In "ETH/USDT:USDT" (dict_keys snap)).
Proof.
  destruct (intersection_filter net_sample (initial_world 0 []))
    as (Hon & Hbybit & _).
  split; [exact (Hon bybit)|].
  destruct (Hbybit [ sample_bybit_ticker "BTCUSDT" (1 # 10000);
                     sample_bybit_ticker "ETHUSDT" (-15 # 10000) ])
    as (snap & w' & Hrun & Hall).
  - reflexivity.
  - repeat constructor.
  - exists snap, w'. split; [exact Hrun|].
    apply (Hall (sample_bybit_ticker "ETHUSDT" (-15 # 10000))).
    + right. left. reflexivity.
    + reflexivity.
Defined.

(** C1 fails on the code at a listing with one instrument that does not
    parse.  With the filter disabled, the Bybit fetcher files BTCUSDT when
    the listing holds it alone, and returns the empty snapshot when the
    listing holds BTCUSDT followed by ETHUSDT with a funding rate that is not
    a number: the instrument that parsed is missing.  The Bitget fetcher
    does the same. *)
Theorem rest_parsed_instrument_lost :
  let w := initial_world 0 [] in
  let bybit_btc := sample_bybit_ticker "BTCUSDT" (1 # 10000) in
  let bitget_btc := sample_bitget_ticker "BTCUSDT_UMCBL" (2 # 10000) in
  fst (get_bybit_funding_rates false (net_with_tickers [bybit_btc] []) w)
  = Ok [("BTC/USDT:USDT",
         {| symbol := "BTC/USDT:USDT"; rate := (1 # 10000) * 100; volume := 2000000;
            price := 65000; next_funding := 7384000 |})]
  /\ fst (get_bybit_funding_rates false
            (net_with_tickers [bybit_btc; unparsed_bybit_ticker "ETHUSDT"] []) w)
     = Ok []
  /\ fst (get_bitget_funding_rates false (net_with_tickers [] [bitget_btc]) w)
     = Ok [("BTC/USDT:USDT",
            {| symbol := "BTC/USDT:USDT"; rate := (2 # 10000) * 100; volume := 2000000;
               price := 65000; next_funding := 0 |})]
  /\ fst (get_bitget_funding_rates false
            (net_with_tickers [] [bitget_btc; unparsed_bitget_ticker "ETHUSDT_UMCBL"]) w)
     = Ok [].
Proof.
  cbv zeta. repeat split; vm_compute; reflexivity.
Qed.

(** C10. In every world the process can reach, every collector returns a
    snapshot in which each entry's symbol field equals the key it is stored
    under, and each key ends in [/USDT:USDT]. *)
Theorem snapshots_canonical (ex : exchange) (flag : bool) (net : Net) (w : World) :
  reachable w ->
  exists snap w',
    collectors ex flag net w = (Ok snap, w')
    /\ Forall canonical_entry snap.
Proof.
  intros Hr. destruct (collectors_snapshot ex flag net w) as (snap & w' & Hrun & _ & Hcan).
  exists snap, w'. split; [exact Hrun|]. apply Hcan. now apply reachable_canonical.
Qed.

Lemma snapshots_canonical_witness :
  reachable world_binance_streaming
  /\ exists snap w',
       collectors binance false net_down world_binance_streaming = (Ok snap, w')
       /\ Forall canonical_entry snap
       /\ snap = [("BTC/USDT:USDT",
                   {| symbol := "BTC/USDT:USDT"; rate := (5 # 10000) * 100;
                      volume := 0; price := 65000; next_funding := 7384000 |})].
Proof.
  assert (Hr : reachable world_binance_streaming).
  { apply reach_idle. apply reach_call; [apply ep_collector | apply reach_init]. }
  split; [exact Hr|].
  destruct (snapshots_canonical binance false net_down world_binance_streaming Hr)
    as (snap & w' & Hrun & Hcan).
  exists snap, w'. split; [exact Hrun|]. split; [exact Hcan|].
  assert (E : fst (collectors binance false net_down world_binance_streaming) = Ok snap)
    by (now rewrite Hrun).
  vm_compute in E. injection E as <-. reflexivity.
Defined.

(** *** Cold start of the monitors *)

Lemma sleeps_in_request (url : string) (tr : list event) :
  sleeps_in (Request url :: tr) = sleeps_in tr.
Proof. reflexivity. Qed.

Lemma sleeps_after_spot_universe (flag : bool) (ex : exchange) (net : Net) (w : World)
    (spot : gset string) (w1 : World) :
  spot_universe flag (get_spot_symbols ex) net w = (Ok spot, w1) ->
  sleeps_in (trace w1) = sleeps_in (trace w) /\ clock w1 = clock w.
Proof.
  intros Hs. split.
  - apply spot_universe_facts in Hs as (_ & _ & [->| ->]); reflexivity.
  - destruct flag; simpl in Hs.
    + rewrite get_spot_symbols_run in Hs. destruct (spot_fresh ex w).
      * congruence.
      * cbv zeta in Hs. destruct (spot_fetch ex net); inversion Hs; subst; simpl;
          now rewrite background_clock.
    + unfold ret in Hs. congruence.
Qed.

(** The OKX monitor does wait on a cold start: with no funding data held, a
    snapshot request sleeps once, for three seconds, before it builds its
    answer. *)
Lemma okx_cold_start_waits (flag : bool) (net : Net) (w : World) :
  OKXState._funding_data (okx_monitor w) = [] ->
  let run := OKXWebSocketMonitor.get_snapshot flag net w in
  sleeps_in (trace (snd run)) = S (sleeps_in (trace w))
  /\ (clock (snd run) == clock w + 3)%Q.
Proof.
  intros Hcold. cbv zeta.
  set (w0 := snd (OKXWebSocketMonitor.start net w)).
  set (w0' := match OKXState._funding_data (okx_monitor w0) with
              | [] => snd (asyncio_sleep 3 net w0)
              | _ :: _ => w0
              end).
  destruct (never_raises_returns _ net w0' (spot_universe_returns flag okx))
    as (spot & w1 & Hs).
  rewrite (okx_get_snapshot_run flag net w spot w1 Hs). simpl.
  destruct (sleeps_after_spot_universe _ _ _ _ _ _ Hs) as [Hsl Hcl].
  rewrite Hsl, Hcl.
  assert (Hcold0 : OKXState._funding_data (okx_monitor w0) = []).
  { unfold w0, OKXWebSocketMonitor.start, modify. simpl.
    destruct (OKXState._task (okx_monitor w)); simpl; exact Hcold. }
  assert (Htr0 : trace w0 = trace w /\ clock w0 = clock w).
  { unfold w0, OKXWebSocketMonitor.start, modify. simpl.
    destruct (OKXState._task (okx_monitor w)); split; reflexivity. }
  unfold w0'. rewrite Hcold0. unfold asyncio_sleep. simpl.
  rewrite background_trace, background_clock. simpl.
  destruct Htr0 as [-> ->]. split; reflexivity.
Qed.

(** C9 fails on the code for the Binance monitor.  Its snapshot request never
    sleeps and never advances the clock; on a cold start with the filter
    disabled it returns the empty snapshot at once. *)
Theorem binance_cold_start_returns_at_once (net : Net) (now : Q)
    (incoming : list (list ws_msg)) :
  (let run := BinanceWebSocketMonitor.get_snapshot false net (initial_world now incoming) in
   fst run = Ok [] /\ trace (snd run) = [] /\ clock (snd run) = now)
  /\ (forall flag w,
        let run := BinanceWebSocketMonitor.get_snapshot flag net w in
        sleeps_in (trace (snd run)) = sleeps_in (trace w)
        /\ clock (snd run) = clock w).
Proof.
  split.
  - cbv zeta. repeat split; reflexivity.
  - intros flag w. cbv zeta.
    set (w0 := snd (BinanceWebSocketMonitor.start net w)).
    destruct (never_raises_returns _ net w0 (spot_universe_returns flag binance))
      as (spot & w1 & Hs).
    rewrite (binance_get_snapshot_run flag net w spot w1 Hs). simpl.
    destruct (sleeps_after_spot_universe _ _ _ _ _ _ Hs) as [-> ->].
    unfold w0, BinanceWebSocketMonitor.start, modify. simpl.
    destruct (BinanceState._task (binance_monitor w)); split; reflexivity.
Qed.


(** ** Further properties *)

(** *** Ranking *)















(** *** Threshold alerts *)






(** *** Spot-symbol cache *)

(** X5.  The four caches are independent and a getter asks at most once: a get
    call for one exchange leaves the cached set and the time stamp of every
    other exchange as they were, issues no request to any other address, and
    issues at most one request to its own listing address (none when the
    cache is fresh). *)
Theorem spot_caches_independent (ex : exchange) (net : Net) (w : World) :
  let w' := snd (get_spot_symbols ex net w) in
  (forall other, other <> ex ->
     SPOT_SYMBOL_CACHE w' other = SPOT_SYMBOL_CACHE w other
     /\ SPOT_SYMBOL_LAST_FETCH w' other = SPOT_SYMBOL_LAST_FETCH w other)
  /\ (forall url, url <> spot_url ex ->
        requests_to url (trace w') = requests_to url (trace w))
  /\ requests_to (spot_url ex) (trace w')
     = (if spot_fresh ex w then requests_to (spot_url ex) (trace w)
        else S (requests_to (spot_url ex) (trace w)))
  /\ sleeps_in (trace w') = sleeps_in (trace w).
Proof.
  cbv zeta. rewrite get_spot_symbols_run.
  destruct (spot_fresh ex w); [simpl; auto|]. cbv zeta.
  assert (Hother : forall url, url <> spot_url ex -> String.eqb (spot_url ex) url = false).
  { intros url Hne. apply String.eqb_neq. congruence. }
  destruct (spot_fetch ex net) as [symbols|]; simpl;
    rewrite ?background_cache, ?background_last, ?background_trace; simpl.
  - split; [|split; [|split]].
    + intros other Hne. destruct (decide (other = ex)); [contradiction | auto].
    + intros url Hne. now apply requests_to_other, Hother.
    + apply requests_to_same.
    + reflexivity.
  - split; [|split; [|split]].
    + auto.
    + intros url Hne. now apply requests_to_other, Hother.
    + apply requests_to_same.
    + reflexivity.
Qed.

Lemma spot_caches_independent_witness :
  SPOT_SYMBOL_CACHE (snd (get_spot_symbols okx net_down world_bybit_cached)) bybit
  = SPOT_SYMBOL_CACHE world_bybit_cached bybit.
Proof.
  destruct (spot_caches_independent okx net_down world_bybit_cached) as [H _].
  apply (H bybit). discriminate.
Defined.

(** X6.  A refresh on which an exception is raised is silent: for every exchange
    and every cached state, when the listing cannot be had (no connection, a
    body that does not decode, a member missing from the listing) the getter
    returns the set cached before the call, and the cached sets and time
    stamps of all exchanges stay as they were. *)
Theorem spot_refresh_exception_is_silent (ex : exchange) (net : Net) (w : World) :
  spot_fetch ex net = None ->
  fst (get_spot_symbols ex net w) = Ok (SPOT_SYMBOL_CACHE w ex)
  /\ SPOT_SYMBOL_CACHE (snd (get_spot_symbols ex net w)) = SPOT_SYMBOL_CACHE w
  /\ SPOT_SYMBOL_LAST_FETCH (snd (get_spot_symbols ex net w)) = SPOT_SYMBOL_LAST_FETCH w.
Proof.
  intros Hfail.
  destruct (spot_cache_kept_on_exception ex net w Hfail) as (w' & -> & Hc & Hl).
  auto.
Qed.

Lemma spot_refresh_exception_is_silent_witness :
  fst (get_spot_symbols bybit net_down (with_clock 4000 world_bybit_cached))
  = Ok (SPOT_SYMBOL_CACHE (with_clock 4000 world_bybit_cached) bybit).
Proof.
  apply (spot_refresh_exception_is_silent bybit net_down
           (with_clock 4000 world_bybit_cached)).
  reflexivity.
Defined.

(** X7.  A cached set aged 3600 seconds or more is not served: the listing is
    requested, and when it is collected the new set replaces the old one as
    a whole (symbols no longer listed are gone), stamped with the time read
    at the start of the call. *)
Theorem spot_cache_stale_is_replaced (ex : exchange) (net : Net) (w : World)
    (symbols : gset string) :
  (3600 <= clock w - SPOT_SYMBOL_LAST_FETCH w ex)%Q ->
  spot_fetch ex net = Some symbols ->
  let run := get_spot_symbols ex net w in
  fst run = Ok symbols
  /\ SPOT_SYMBOL_CACHE (snd run) ex = symbols
  /\ SPOT_SYMBOL_LAST_FETCH (snd run) ex = clock w
  /\ requests_to (spot_url ex) (trace (snd run))
     = S (requests_to (spot_url ex) (trace w)).
Proof.
  intros Hage Hfetch. cbv zeta. rewrite get_spot_symbols_run.
  assert (Hstale : spot_fresh ex w = false).
  { unfold spot_fresh. apply andb_false_iff. right. now apply Qltb_ge. }
  rewrite Hstale, Hfetch. cbv zeta. simpl.
  destruct (decide (ex = ex)); [|congruence].
  rewrite background_trace. simpl. rewrite requests_to_same. auto.
Qed.

Lemma spot_cache_stale_is_replaced_witness :
  SPOT_SYMBOL_CACHE
    (snd (get_spot_symbols bybit net_sample (with_clock 3600 world_bybit_cached)))
    bybit = {[ "BTC/USDT:USDT" ]}.
Proof.
  refine (proj1 (proj2 (spot_cache_stale_is_replaced bybit net_sample
                          (with_clock 3600 world_bybit_cached) {[ "BTC/USDT:USDT" ]} _ _))).
  - vm_compute. discriminate.
  - vm_compute. reflexivity.
Defined.

Lemma for_each_collects {I : Type} (step : I -> gset string -> result (gset string))
    (lists : I -> string -> Prop) :
  (forall s acc acc', step s acc = Ok acc' ->
     forall k, k ∈ acc' <-> k ∈ acc \/ lists s k) ->
  forall l acc r, for_each step l acc = Ok r ->
    forall k, k ∈ r <-> k ∈ acc \/ exists s, In s l /\ lists s k.
Proof.
  intros Hstep l. induction l as [|s l IH]; intros acc r; simpl.
  - intros [= <-] k. split; [auto | intros [H|(s & [] & _)]; exact H].
  - destruct (step s acc) as [acc'|e] eqn:Es; simpl; [|discriminate].
    intros Hr k. rewrite (IH acc' r Hr k), (Hstep s acc acc' Es k). split.
    + intros [[H|H]|(s' & Hin & H)]; eauto.
    + intros [H|(s' & [<-|Hin] & H)]; eauto.
Qed.

Lemma binance_spot_step_lists (s : binance_spot_item) (acc acc' : gset string) :
  binance_spot_step s acc = Ok acc' ->
  forall k, k ∈ acc' <-> k ∈ acc \/ binance_lists s k.
Proof.
  unfold binance_spot_step, binance_lists.
  destruct (bn_quoteAsset s) as [q|]; simpl; [|discriminate].
  destruct (String.eqb_spec q "USDT") as [->|Hq].
  - destruct (bn_status s) as [st|]; simpl; [|discriminate].
    destruct (String.eqb_spec st "TRADING") as [->|Hst].
    + destruct (bn_baseAsset s) as [b|]; simpl; [|discriminate].
      intros [= <-] k. rewrite elem_of_union, elem_of_singleton. split.
      * intros [->|H]; eauto 6.
      * intros [H|(_ & _ & b' & [= <-] & ->)]; auto.
    + intros [= <-] k. split; [auto | intros [H|(_ & [= E] & _)]; congruence].
  - intros [= <-] k. split; [auto | intros [H|([= E] & _)]; congruence].
Qed.

Lemma bybit_spot_step_lists (s : bybit_spot_item) (acc acc' : gset string) :
  bybit_spot_step s acc = Ok acc' ->
  forall k, k ∈ acc' <-> k ∈ acc \/ bybit_lists s k.
Proof.
  unfold bybit_spot_step, bybit_lists.
  destruct (by_quoteCoin s) as [q|]; simpl; [|discriminate].
  destruct (String.eqb_spec q "USDT") as [->|Hq].
  - destruct (by_baseCoin s) as [b|]; simpl; [|discriminate].
    intros [= <-] k. rewrite elem_of_union, elem_of_singleton. split.
    + intros [->|H]; eauto 6.
    + intros [H|(_ & b' & [= <-] & ->)]; auto.
  - intros [= <-] k. split; [auto | intros [H|([= E] & _)]; congruence].
Qed.

Lemma bitget_spot_step_lists (s : bitget_spot_item) (acc acc' : gset string) :
  bitget_spot_step s acc = Ok acc' ->
  forall k, k ∈ acc' <-> k ∈ acc \/ bitget_lists s k.
Proof.
  unfold bitget_spot_step, bitget_lists.
  destruct (bg_quoteCoin s) as [q|]; simpl; [|discriminate].
  destruct (String.eqb_spec q "USDT") as [->|Hq].
  - destruct (bg_status s) as [st|]; simpl; [|discriminate].
    destruct (String.eqb_spec st "online") as [->|Hst].
    + destruct (bg_baseCoin s) as [b|]; simpl; [|discriminate].
      intros [= <-] k. rewrite elem_of_union, elem_of_singleton. split.
      * intros [->|H]; eauto 6.
      * intros [H|(_ & _ & b' & [= <-] & ->)]; auto.
    + intros [= <-] k. split; [auto | intros [H|(_ & [= E] & _)]; congruence].
  - intros [= <-] k. split; [auto | intros [H|([= E] & _)]; congruence].
Qed.

Lemma okx_spot_step_lists (s : okx_spot_item) (acc acc' : gset string) :
  okx_spot_step s acc = Ok acc' ->
  forall k, k ∈ acc' <-> k ∈ acc \/ okx_lists s k.
Proof.
  unfold okx_spot_step, okx_lists.
  destruct (ok_quoteCcy s) as [q|]; simpl; [|discriminate].
  destruct (String.eqb_spec q "USDT") as [->|Hq].
  - destruct (ok_state s) as [st|]; simpl; [|discriminate].
    destruct (String.eqb_spec st "live") as [->|Hst].
    + destruct (ok_baseCcy s) as [b|]; simpl; [|discriminate].
      intros [= <-] k. rewrite elem_of_union, elem_of_singleton. split.
      * intros [->|H]; eauto 6.
      * intros [H|(_ & _ & b' & [= <-] & ->)]; auto.
    + intros [= <-] k. split; [auto | intros [H|(_ & [= E] & _)]; congruence].
  - intros [= <-] k. split; [auto | intros [H|([= E] & _)]; congruence].
Qed.

Lemma collects_from_empty {I : Type} (step : I -> gset string -> result (gset string))
    (lists : I -> string -> Prop) (l : list I) (r : gset string) :
  (forall s acc acc', step s acc = Ok acc' ->
     forall k, k ∈ acc' <-> k ∈ acc \/ lists s k) ->
  for_each step l ∅ = Ok r ->
  forall k, k ∈ r <-> exists s, In s l /\ lists s k.
Proof.
  intros Hstep Hr k. rewrite (for_each_collects step lists Hstep l ∅ r Hr k).
  split; [intros [H|H]; [now apply not_elem_of_empty in H | exact H] | auto].
Qed.

(** X8.  What a collected spot listing holds: exactly the keys [BASE/USDT:USDT] of
    the listed instruments quoted in USDT that are in the tradable state --
    [TRADING] on Binance, [online] on Bitget, [live] on OKX; on Bybit every
    instrument quoted in USDT counts, whatever its state. *)
Theorem spot_listing_selection :
  (forall l symbols,
     binance_spot_collect (Some l) = Ok symbols ->
     forall k, k ∈ symbols <-> exists s, In s l /\ binance_lists s k)
  /\ (forall env l symbols,
        env_code env = Some 0%Z -> env_items env = Some l ->
        bybit_spot_collect env = Ok symbols ->
        forall k, k ∈ symbols <-> exists s, In s l /\ bybit_lists s k)
  /\ (forall env l symbols,
        env_code env = Some "00000" -> env_items env = Some l ->
        bitget_spot_collect env = Ok symbols ->
        forall k, k ∈ symbols <-> exists s, In s l /\ bitget_lists s k)
  /\ (forall env l symbols,
        env_code env = Some "0" -> env_items env = Some l ->
        okx_spot_collect env = Ok symbols ->
        forall k, k ∈ symbols <-> exists s, In s l /\ okx_lists s k).
Proof.
  split; [|split; [|split]].
  - intros l symbols. unfold binance_spot_collect. simpl.
    apply collects_from_empty, binance_spot_step_lists.
  - intros env l symbols Hc Hl. unfold bybit_spot_collect. rewrite Hc, Hl. simpl.
    apply collects_from_empty, bybit_spot_step_lists.
  - intros env l symbols Hc Hl. unfold bitget_spot_collect. rewrite Hc, Hl. simpl.
    apply collects_from_empty, bitget_spot_step_lists.
  - intros env l symbols Hc Hl. unfold okx_spot_collect. rewrite Hc, Hl. simpl.
    apply collects_from_empty, okx_spot_step_lists.
Qed.

Lemma spot_listing_selection_witness :
  let listing := [ {| bn_quoteAsset := Some "USDT"; bn_status := Some "TRADING";
                      bn_baseAsset := Some "BTC" |};
                   {| bn_quoteAsset := Some "USDT"; bn_status := Some "BREAK";
                      bn_baseAsset := Some "LUNA" |} ] in
  exists symbols,
    binance_spot_collect (Some listing) = Ok symbols
    /\ "BTC/USDT:USDT" ∈ symbols.
Proof.
  intros listing.
  destruct (binance_spot_collect (Some listing)) as [symbols|e] eqn:E;
    [|vm_compute in E; discriminate].
  exists symbols. split; [reflexivity|].
  apply (proj1 spot_listing_selection listing symbols E).
  eexists. split; [left; reflexivity|].
  split; [reflexivity|]. split; [reflexivity|]. exists "BTC". split; reflexivity.
Defined.

(** *** Stream handlers *)

Lemma dict_get_set_ne {V} (k j : string) (v : V) (d : dict V) :
  k <> j -> dict_get j (dict_set k v d) = dict_get j d.
Proof.
  intros Hne. induction d as [|[k' v'] d IH]; simpl.
  - destruct (String.eqb_spec k j); [contradiction | reflexivity].
  - destruct (String.eqb_spec k' k) as [->|Hk]; simpl.
    + destruct (String.eqb_spec k j); [contradiction | reflexivity].
    + destruct (String.eqb_spec k' j); [reflexivity | exact IH].
Qed.

Lemma for_each_app {I S} (step : I -> S -> result S) (a b : list I) (acc r : S) :
  for_each step (a ++ b) acc = Ok r ->
  exists m, for_each step a acc = Ok m /\ for_each step b m = Ok r.
Proof.
  revert acc. induction a as [|x a IH]; intros acc; simpl.
  - eauto.
  - destruct (step x acc) as [acc'|e]; simpl; [apply IH | discriminate].
Qed.

Lemma guarded_loop_for_each {I S} (step : I -> S -> result S) (xs : list I) (acc r : S) :
  for_each step xs acc = Ok r -> BinanceState.guarded_loop step xs acc = r.
Proof.
  revert acc. induction xs as [|x xs IH]; intros acc; simpl.
  - now intros [= <-].
  - destruct (step x acc) as [acc'|e]; simpl; [apply IH | discriminate].
Qed.

Section FrameLoop.
Context {I V : Type} (step : I -> dict V -> result (dict V)).
Hypothesis step_shape :
  forall item d d', step item d = Ok d' ->
    (step item [] = Ok [] /\ d' = d)
    \/ exists k v, step item [] = Ok [(k, v)] /\ d' = dict_set k v d.
Hypothesis step_total : forall item d, no_raise (step item []) -> no_raise (step item d).
Hypothesis step_raises : forall item e d, step item [] = Raise e -> step item d = Raise e.

Lemma frame_handled (xs : list I) (acc : dict V) :
  Forall (fun y => no_raise (step y [])) xs ->
  exists r, for_each step xs acc = Ok r.
Proof.
  intros H. apply for_each_no_raise.
  eapply Forall_impl; [exact H|]. intros y Hy a. now apply step_total.
Qed.

Lemma frame_untouched (xs : list I) (acc r : dict V) (j : string) :
  for_each step xs acc = Ok r ->
  (forall y v, In y xs -> ~ writes step y j v) ->
  dict_get j r = dict_get j acc.
Proof.
  revert acc. induction xs as [|x xs IH]; intros acc; simpl.
  - now intros [= <-].
  - destruct (step x acc) as [acc'|e] eqn:Es; simpl; [|discriminate].
    intros Hr Hno. rewrite (IH acc' Hr) by (intros y v Hy; apply Hno; now right).
    destruct (step_shape x acc acc' Es) as [[_ ->]|(k & v & Hw & ->)]; [reflexivity|].
    apply dict_get_set_ne. intros ->. apply (Hno x v); [now left | exact Hw].
Qed.

Lemma frame_last_write (pre post : list I) (item : I) (acc r : dict V)
    (k : string) (v : V) :
  for_each step (pre ++ item :: post) acc = Ok r ->
  writes step item k v ->
  (forall y v', In y post -> ~ writes step y k v') ->
  dict_get k r = Some v.
Proof.
  intros Hr Hw Hpost. apply for_each_app in Hr as (m & _ & Hr). simpl in Hr.
  destruct (step item m) as [m'|e] eqn:Es; simpl in Hr; [|discriminate].
  rewrite (frame_untouched post m' r k Hr Hpost).
  unfold writes in Hw.
  destruct (step_shape item m m' Es) as [[H _]|(k' & v' & H & ->)];
    rewrite Hw in H; [discriminate|].
  injection H as <- <-. apply dict_get_set_eq.
Qed.

Lemma frame_malformed (pre post : list I) (bad : I) (e : exn) (acc : dict V) :
  Forall (fun y => no_raise (step y [])) pre ->
  step bad [] = Raise e ->
  BinanceState.guarded_loop step (pre ++ bad :: post) acc
  = BinanceState.guarded_loop step pre acc.
Proof.
  intros Hpre Hbad. revert acc.
  induction Hpre as [|x pre Hx Hpre IH]; intros acc; simpl.
  - now rewrite (step_raises bad e acc Hbad).
  - pose proof (step_total x acc Hx) as Hok.
    destruct (step x acc) as [acc'|e']; simpl in Hok; [apply IH | contradiction].
Qed.

End FrameLoop.

Lemma on_mark_item_shape (item : binance_mark_item) (d d' : dict BinanceState.mark) :
  BinanceState.on_mark_item item d = Ok d' ->
  (BinanceState.on_mark_item item [] = Ok [] /\ d' = d)
  \/ exists k v, BinanceState.on_mark_item item [] = Ok [(k, v)] /\ d' = dict_set k v d.
Proof.
  unfold BinanceState.on_mark_item.
  destruct (mk_s item) as [| |sym]; try discriminate; [intros [= <-]; auto|].
  destruct (String.eqb sym ""); [intros [= <-]; auto|].
  destruct (usdt_suffix_key sym) as [k|]; [|intros [= <-]; auto].
  destruct (mk_r item), (mk_p item), (mk_T item); simpl; try discriminate;
    intros [= <-]; right; eauto.
Qed.

Lemma on_mark_item_total (item : binance_mark_item) (d : dict BinanceState.mark) :
  no_raise (BinanceState.on_mark_item item []) -> no_raise (BinanceState.on_mark_item item d).
Proof.
  unfold BinanceState.on_mark_item.
  destruct (mk_s item) as [| |sym]; simpl; try tauto.
  destruct (String.eqb sym ""); [tauto|].
  destruct (usdt_suffix_key sym) as [k|]; [|tauto].
  destruct (mk_r item), (mk_p item), (mk_T item); simpl; tauto.
Qed.

Lemma on_mark_item_raises (item : binance_mark_item) (e : exn) (d : dict BinanceState.mark) :
  BinanceState.on_mark_item item [] = Raise e -> BinanceState.on_mark_item item d = Raise e.
Proof.
  unfold BinanceState.on_mark_item.
  destruct (mk_s item) as [| |sym]; simpl; try discriminate; [tauto|].
  destruct (String.eqb sym ""); [discriminate|].
  destruct (usdt_suffix_key sym) as [k|]; [|discriminate].
  destruct (mk_r item), (mk_p item), (mk_T item); simpl; try discriminate; tauto.
Qed.

Lemma on_funding_item_shape (item : okx_funding_item) (d d' : dict OKXState.funding) :
  OKXState.on_funding_item item d = Ok d' ->
  (OKXState.on_funding_item item [] = Ok [] /\ d' = d)
  \/ exists k v, OKXState.on_funding_item item [] = Ok [(k, v)] /\ d' = dict_set k v d.
Proof.
  unfold OKXState.on_funding_item.
  destruct (of_instId item) as [| |inst]; simpl; try discriminate.
  destruct (of_fundingRate item), (of_nextFundingTime item); simpl; try discriminate.
  intros [= <-]. right. eauto.
Qed.

Lemma on_funding_item_total (item : okx_funding_item) (d : dict OKXState.funding) :
  no_raise (OKXState.on_funding_item item []) -> no_raise (OKXState.on_funding_item item d).
Proof.
  unfold OKXState.on_funding_item.
  destruct (of_instId item) as [| |inst]; simpl; try tauto.
  destruct (of_fundingRate item), (of_nextFundingTime item); simpl; tauto.
Qed.

Lemma on_funding_item_raises (item : okx_funding_item) (e : exn) (d : dict OKXState.funding) :
  OKXState.on_funding_item item [] = Raise e -> OKXState.on_funding_item item d = Raise e.
Proof.
  unfold OKXState.on_funding_item.
  destruct (of_instId item) as [| |inst]; simpl; try tauto.
  destruct (of_fundingRate item), (of_nextFundingTime item); simpl; try discriminate; tauto.
Qed.

(** X9.  Last write wins on the streams.  In a mark-price frame (Binance) or a
    funding-rate frame (OKX) that is handled without exception, the value
    left under a key is the one written by the last item of the frame that
    writes that key; a key no item of the frame writes keeps its value; the
    other half of the monitor's state (ticker volumes, ticker data) is not
    touched.  A well-formed Binance item for [BASEUSDT] writes, under
    [BASE/USDT:USDT], its funding fraction times 100, its price and its next
    funding time. *)
Theorem stream_last_write_wins :
  (forall st pre item post k v,
     Forall (fun y => no_raise (BinanceState.on_mark_item y [])) (pre ++ item :: post) ->
     writes BinanceState.on_mark_item item k v ->
     (forall y v', In y post -> ~ writes BinanceState.on_mark_item y k v') ->
     let st' := BinanceState.on_message (BnMarkPrice (pre ++ item :: post)) st in
     dict_get k (BinanceState._mark_data st') = Some v
     /\ (forall j,
           (forall y v', In y (pre ++ item :: post) ->
                         ~ writes BinanceState.on_mark_item y j v') ->
           dict_get j (BinanceState._mark_data st')
           = dict_get j (BinanceState._mark_data st))
     /\ BinanceState._ticker_volume st' = BinanceState._ticker_volume st)
  /\ (forall st pre item post k v,
        Forall (fun y => no_raise (OKXState.on_funding_item y [])) (pre ++ item :: post) ->
        writes OKXState.on_funding_item item k v ->
        (forall y v', In y post -> ~ writes OKXState.on_funding_item y k v') ->
        let st' := OKXState.on_message (OkFundingRate (pre ++ item :: post)) st in
        dict_get k (OKXState._funding_data st') = Some v
        /\ (forall j,
              (forall y v', In y (pre ++ item :: post) ->
                            ~ writes OKXState.on_funding_item y j v') ->
              dict_get j (OKXState._funding_data st')
              = dict_get j (OKXState._funding_data st))
        /\ OKXState._ticker_data st' = OKXState._ticker_data st)
  /\ (forall base r p T,
        writes BinanceState.on_mark_item
          {| mk_s := Val (base +:+ "USDT"); mk_r := Val r; mk_p := Val p; mk_T := Val T |}
          (base +:+ "/USDT:USDT")
          {| BinanceState.mark_rate := (r * 100)%Q; BinanceState.mark_price := p;
             BinanceState.mark_next_funding := T |}).
Proof.
  split; [|split].
  - intros st pre item post k v Hok Hw Hpost. cbv zeta. simpl.
    destruct (frame_handled _ on_mark_item_total _ (BinanceState._mark_data st) Hok)
      as [r Hr].
    rewrite (guarded_loop_for_each _ _ _ _ Hr).
    split; [|split; [|reflexivity]].
    + exact (frame_last_write _ on_mark_item_shape pre post item _ r k v Hr Hw Hpost).
    + intros j Hj. exact (frame_untouched _ on_mark_item_shape _ _ r j Hr Hj).
  - intros st pre item post k v Hok Hw Hpost. cbv zeta. simpl.
    destruct (frame_handled _ on_funding_item_total _ (OKXState._funding_data st) Hok)
      as [r Hr].
    rewrite (guarded_loop_for_each _ _ _ _ Hr).
    split; [|split; [|reflexivity]].
    + exact (frame_last_write _ on_funding_item_shape pre post item _ r k v Hr Hw Hpost).
    + intros j Hj. exact (frame_untouched _ on_funding_item_shape _ _ r j Hr Hj).
  - intros base r p T. unfold writes, BinanceState.on_mark_item. simpl.
    assert (E : String.eqb (base +:+ "USDT") "" = false).
    { apply String.eqb_neq. destruct base; discriminate. }
    rewrite E, usdt_suffix_key_app. reflexivity.
Qed.

Lemma stream_last_write_wins_witness :
  let item r := {| mk_s := Val "BTCUSDT"; mk_r := Val r; mk_p := Val 65000%Q;
                   mk_T := Val 7384000%Z |} in
  dict_get "BTC/USDT:USDT"
    (BinanceState._mark_data
       (BinanceState.on_message (BnMarkPrice ([item (1 # 10000)] ++ item (5 # 10000) :: []))
          BinanceState.init))
  = Some {| BinanceState.mark_rate := ((5 # 10000) * 100)%Q;
            BinanceState.mark_price := 65000%Q;
            BinanceState.mark_next_funding := 7384000%Z |}.
Proof.
  intros item.
  refine (proj1 (proj1 stream_last_write_wins BinanceState.init
                   [item (1 # 10000)] (item (5 # 10000)) [] "BTC/USDT:USDT" _ _ _ _)).
  - repeat constructor.
  - reflexivity.
  - intros y v' [].
Defined.

(** X10.  A malformed item costs the rest of its frame and nothing else.  When
    the items before it are handled and the item itself raises, the frame
    leaves the monitor as the frame cut before that item would: what was
    written stays, the later items are not applied. *)
Theorem stream_malformed_item_drops_rest :
  (forall st pre bad post e,
     Forall (fun y => no_raise (BinanceState.on_mark_item y [])) pre ->
     BinanceState.on_mark_item bad [] = Raise e ->
     BinanceState.on_message (BnMarkPrice (pre ++ bad :: post)) st
     = BinanceState.on_message (BnMarkPrice pre) st)
  /\ (forall st pre bad post e,
        Forall (fun y => no_raise (OKXState.on_funding_item y [])) pre ->
        OKXState.on_funding_item bad [] = Raise e ->
        OKXState.on_message (OkFundingRate (pre ++ bad :: post)) st
        = OKXState.on_message (OkFundingRate pre) st).
Proof.
  split.
  - intros st pre bad post e Hpre Hbad. simpl.
    now rewrite (frame_malformed _ on_mark_item_total on_mark_item_raises
                   pre post bad e _ Hpre Hbad).
  - intros st pre bad post e Hpre Hbad. simpl.
    now rewrite (frame_malformed _ on_funding_item_total on_funding_item_raises
                   pre post bad e _ Hpre Hbad).
Qed.

Lemma stream_malformed_item_drops_rest_witness :
  let good := {| mk_s := Val "BTCUSDT"; mk_r := Val (1 # 10000)%Q; mk_p := Val 65000%Q;
                 mk_T := Val 7384000%Z |} in
  let bad := {| mk_s := Val "ETHUSDT"; mk_r := Malformed; mk_p := Val 3000%Q;
                mk_T := Val 7384000%Z |} in
  let late := {| mk_s := Val "SOLUSDT"; mk_r := Val (1 # 10000)%Q; mk_p := Val 150%Q;
                 mk_T := Val 7384000%Z |} in
  BinanceState.on_message (BnMarkPrice ([good] ++ bad :: [late])) BinanceState.init
  = BinanceState.on_message (BnMarkPrice [good]) BinanceState.init.
Proof.
  intros good bad late.
  apply (proj1 stream_malformed_item_drops_rest BinanceState.init [good] bad [late]
           ValueError).
  - repeat constructor.
  - reflexivity.
Defined.

(** *** The monitors *)

Lemma dict_keys_set_present {V} (k : string) (v : V) (d : dict V) :
  In k (dict_keys d) -> dict_keys (dict_set k v d) = dict_keys d.
Proof.
  unfold dict_keys. induction d as [|[k' v'] d IH]; simpl; [contradiction|].
  destruct (String.eqb_spec k' k) as [->|Hne]; simpl; [reflexivity|].
  intros [H|H]; [contradiction|]. now rewrite IH.
Qed.

Lemma dict_set_NoDup {V} (k : string) (v : V) (d : dict V) :
  NoDup (dict_keys d) -> NoDup (dict_keys (dict_set k v d)).
Proof.
  intros Hnd. destruct (in_dec String.string_dec k (dict_keys d)) as [Hin|Hout].
  - now rewrite dict_keys_set_present.
  - rewrite dict_set_fresh by exact Hout. unfold dict_keys in *.
    rewrite map_app. simpl. apply NoDup_app. split; [exact Hnd|]. split.
    + intros x Hx Hk. apply list_elem_of_singleton in Hk. subst x.
      apply Hout. now apply list_elem_of_In.
    + apply NoDup_singleton.
Qed.

Section EntryPointInvariant.
Variable Inv : World -> Prop.
Hypothesis Inv_background : forall w, Inv w -> Inv (background w).
Hypothesis Inv_event : forall e w, Inv w -> Inv (with_event e w).
Hypothesis Inv_clock : forall t w, Inv w -> Inv (with_clock t w).
Hypothesis Inv_spot : forall ex s t w, Inv w -> Inv (with_spot ex s t w).
Hypothesis Inv_binance_start : preserves Inv BinanceWebSocketMonitor.start.
Hypothesis Inv_okx_start : preserves Inv OKXWebSocketMonitor.start.

Lemma inv_get_spot_symbols (ex : exchange) : preserves Inv (get_spot_symbols ex).
Proof.
  destruct ex; unfold get_spot_symbols, get_binance_spot_symbols,
    get_bybit_spot_symbols, get_bitget_spot_symbols, get_okx_spot_symbols,
    spot_symbols_with; repeat preserve_step;
    match goal with
    | H : Inv ?w |- Inv _ =>
        first [ exact (Inv_spot binance _ _ w H) | exact (Inv_spot bybit _ _ w H)
              | exact (Inv_spot bitget _ _ w H) | exact (Inv_spot okx _ _ w H) ]
    end.
Qed.

Lemma inv_spot_universe (flag : bool) (ex : exchange) :
  preserves Inv (spot_universe flag (get_spot_symbols ex)).
Proof.
  destruct flag; simpl; [apply inv_get_spot_symbols | apply preserves_ret].
Qed.

Lemma inv_collectors (ex : exchange) (flag : bool) : preserves Inv (collectors ex flag).
Proof.
  destruct ex; unfold collectors.
  - unfold BinanceWebSocketMonitor.get_snapshot.
    apply preserves_bind; [apply Inv_binance_start | intros _].
    apply preserves_bind; [apply (inv_spot_universe flag binance) | intros s].
    repeat preserve_step.
  - unfold get_bybit_funding_rates.
    apply preserves_try_except; [|intros e; apply preserves_ret].
    apply preserves_bind; [apply (inv_spot_universe flag bybit) | intros s].
    repeat preserve_step.
  - unfold get_bitget_funding_rates.
    apply preserves_try_except; [|intros e; apply preserves_ret].
    apply preserves_bind; [apply (inv_spot_universe flag bitget) | intros s].
    repeat preserve_step.
  - unfold OKXWebSocketMonitor.get_snapshot.
    apply preserves_bind; [apply Inv_okx_start | intros _].
    apply preserves_bind; [apply preserves_get_world | intros w0].
    apply preserves_bind; [repeat preserve_step | intros _].
    apply preserves_bind; [apply (inv_spot_universe flag okx) | intros s].
    repeat preserve_step.
Qed.

Lemma inv_get_all_funding_rates (exs : list string) (flag : bool) :
  preserves Inv (get_all_funding_rates exs flag).
Proof.
  unfold get_all_funding_rates, get_all_funding_rates_with.
  pose proof (tasks_for_Forall (preserves Inv) collectors exs flag
                (fun ex => inv_collectors ex flag)) as Hall.
  destruct (tasks_for collectors exs flag) as [|t tasks]; [apply preserves_ret|].
  apply preserves_bind; [now apply preserves_gather | intros rs; apply preserves_ret].
Qed.

Lemma inv_reachable :
  (forall now incoming, Inv (initial_world now incoming)) ->
  (forall l w, Inv w -> Inv (with_inbound l w)) ->
  forall w, reachable w -> Inv w.
Proof.
  intros Hinit Hinb w.
  induction 1 as [now incoming|t w Hr IH|l w Hr IH|w Hr IH|A m net w Hep Hr IH]; auto.
  destruct Hep.
  - now apply inv_get_spot_symbols.
  - now apply inv_collectors.
  - now apply inv_get_all_funding_rates.
  - unfold check_threshold_alerts. destruct (negb (active settings)); [exact IH|].
    apply preserves_bind; [apply inv_get_all_funding_rates | | exact IH].
    intros r. repeat preserve_step.
Qed.

End EntryPointInvariant.

Lemma monitors_unique_receive (m : ws_msg) (w : World) :
  monitors_unique w -> monitors_unique (receive m w).
Proof.
  intros [Hb Ho]. destruct m as [b|o]; simpl.
  - destruct (BinanceState._task (binance_monitor w)); [|now split].
    split; [|exact Ho]. simpl. destruct b; simpl; try exact Hb.
    apply guarded_loop_invariant; [exact Hb|].
    intros x a a' Ha Hs.
    destruct (on_mark_item_shape x a a' Hs) as [[_ ->]|(k & v & _ & ->)];
      [exact Ha | now apply dict_set_NoDup].
  - destruct (OKXState._task (okx_monitor w)); [|now split].
    split; [exact Hb|]. simpl. destruct o; simpl; try exact Ho.
    apply guarded_loop_invariant; [exact Ho|].
    intros x a a' Ha Hs.
    destruct (on_funding_item_shape x a a' Hs) as [[_ ->]|(k & v & _ & ->)];
      [exact Ha | now apply dict_set_NoDup].
Qed.

Lemma monitors_unique_background (w : World) :
  monitors_unique w -> monitors_unique (background w).
Proof.
  intros H. unfold background. destruct (inbound w) as [|batch rest]; [exact H|].
  apply fold_left_invariant; [exact H|].
  intros m a _. apply monitors_unique_receive.
Qed.

Lemma reachable_unique (w : World) : reachable w -> monitors_unique w.
Proof.
  apply (inv_reachable monitors_unique).
  - apply monitors_unique_background.
  - intros e w' H. exact H.
  - intros t w' H. exact H.
  - intros ex s t w' H. exact H.
  - apply preserves_modify. intros w' [Hb Ho]. cbv zeta.
    destruct (BinanceState._task (binance_monitor w')); split; simpl; assumption.
  - apply preserves_modify. intros w' [Hb Ho]. cbv zeta.
    destruct (OKXState._task (okx_monitor w')); split; simpl; assumption.
  - intros now incoming. split; constructor.
  - intros l w' H. exact H.
Qed.

Section ExactSnapshot.
Context {V : Type} (flag : bool) (spot : gset string).
Context (entry : string * V -> string * FundingEntry).
Context (step : snapshot -> string * V -> snapshot).
Hypothesis entry_key : forall kv, fst (entry kv) = fst kv.
Hypothesis step_eq :
  forall snap kv,
    step snap kv = if filtered_out flag spot (fst kv) then snap
                   else dict_set (fst kv) (snd (entry kv)) snap.

Lemma monitor_snapshot_exact_from (data : dict V) (acc : snapshot) :
  NoDup (dict_keys acc ++ dict_keys data) ->
  fold_left step data acc = acc ++ map entry (passing flag spot data).
Proof.
  revert acc. induction data as [|kv data IH]; intros acc Hnd; simpl.
  - now rewrite app_nil_r.
  - rewrite step_eq. unfold passing. simpl in *.
    pose proof Hnd as Hnd0.
    apply NoDup_app in Hnd0 as (Hacc & Hdisj & Hdata).
    apply NoDup_cons in Hdata as [Hk Hdata].
    assert (Hfresh : ~ In (fst kv) (dict_keys acc)).
    { intros Hin. apply list_elem_of_In in Hin. apply (Hdisj _ Hin).
      apply elem_of_cons. now left. }
    destruct (filtered_out flag spot (fst kv)); simpl.
    + apply IH. apply NoDup_app. split; [exact Hacc|]. split; [|exact Hdata].
      intros x Hx Hin. apply (Hdisj x Hx). apply elem_of_cons. now right.
    + rewrite dict_set_fresh by exact Hfresh.
      rewrite IH.
      * rewrite <- app_assoc. simpl. f_equal. f_equal.
        rewrite (surjective_pairing (entry kv)), entry_key. reflexivity.
      * unfold dict_keys in *. rewrite map_app. simpl. rewrite <- app_assoc. exact Hnd.
Qed.

End ExactSnapshot.

Lemma passing_flag_off {V} (spot spot' : gset string) (data : dict V) :
  passing false spot data = passing false spot' data.
Proof. reflexivity. Qed.

(** X11.  A monitor's snapshot is its state, item by item.  In every world the
    process can reach, the snapshot a monitor returns lists, in the order of
    the monitor's funding state, one entry per instrument held there -- all of
    them with the filter off, those whose key is in the exchange's spot set
    with the filter on -- each carrying the stored rate, price and next
    funding time, with zero for a volume (Binance) or a price and a volume
    (OKX) for which no ticker has arrived. *)
Theorem monitor_snapshot_is_filtered_state (flag : bool) (net : Net) (w : World) :
  reachable w ->
  (exists snap w',
      BinanceWebSocketMonitor.get_snapshot flag net w = (Ok snap, w')
      /\ snap = map (binance_entry_of (BinanceState._ticker_volume (binance_monitor w')))
                  (passing flag (SPOT_SYMBOL_CACHE w' binance)
                     (BinanceState._mark_data (binance_monitor w'))))
  /\ (exists snap w',
         OKXWebSocketMonitor.get_snapshot flag net w = (Ok snap, w')
         /\ snap = map (okx_entry_of (OKXState._ticker_data (okx_monitor w')))
                     (passing flag (SPOT_SYMBOL_CACHE w' okx)
                        (OKXState._funding_data (okx_monitor w')))).
Proof.
  intros Hr. pose proof (reachable_unique w Hr) as Huniq.
  assert (Hstart_b : preserves monitors_unique BinanceWebSocketMonitor.start).
  { apply preserves_modify. intros w' [Hb Ho]. cbv zeta.
    destruct (BinanceState._task (binance_monitor w')); split; simpl; assumption. }
  assert (Hstart_o : preserves monitors_unique OKXWebSocketMonitor.start).
  { apply preserves_modify. intros w' [Hb Ho]. cbv zeta.
    destruct (OKXState._task (okx_monitor w')); split; simpl; assumption. }
  assert (Hspot : forall ex, preserves monitors_unique (spot_universe flag (get_spot_symbols ex))).
  { intros ex. apply inv_spot_universe.
    - apply monitors_unique_background.
    - intros e w' H. exact H.
    - intros ex' s t w' H. exact H. }
  split.
  - destruct (never_raises_returns _ net (snd (BinanceWebSocketMonitor.start net w))
                (spot_universe_returns flag binance)) as (spot & w1 & Hs).
    eexists _, _. split; [apply (binance_get_snapshot_run _ _ _ _ _ Hs)|].
    assert (Hu1 : monitors_unique w1).
    { pose proof (Hspot binance net _ (Hstart_b net w Huniq)) as H. now rewrite Hs in H. }
    rewrite (monitor_snapshot_exact_from flag spot
               (binance_entry_of (BinanceState._ticker_volume (binance_monitor w1))));
      [| reflexivity | intros snap [sym mk]; reflexivity | exact (proj1 Hu1)].
    simpl. destruct (spot_universe_facts _ _ _ _ _ _ Hs) as (Hon & Hoff & _).
    destruct flag; [now rewrite (Hon eq_refl) | reflexivity].
  - set (w0 := snd (OKXWebSocketMonitor.start net w)).
    set (w0' := match OKXState._funding_data (okx_monitor w0) with
                | [] => snd (asyncio_sleep 3 net w0)
                | _ :: _ => w0
                end).
    destruct (never_raises_returns _ net w0' (spot_universe_returns flag okx))
      as (spot & w1 & Hs).
    eexists _, _. split; [apply (okx_get_snapshot_run _ _ _ _ _ Hs)|].
    assert (Hu0 : monitors_unique w0) by (apply Hstart_o, Huniq).
    assert (Hu0' : monitors_unique w0').
    { unfold w0'. destruct (OKXState._funding_data (okx_monitor w0)); [|exact Hu0].
      apply (preserves_asyncio_sleep monitors_unique);
        [apply monitors_unique_background | intros e w' H; exact H
         | intros t w' H; exact H | exact Hu0]. }
    assert (Hu1 : monitors_unique w1).
    { pose proof (Hspot okx net _ Hu0') as H. now rewrite Hs in H. }
    rewrite (monitor_snapshot_exact_from flag spot
               (okx_entry_of (OKXState._ticker_data (okx_monitor w1))));
      [| reflexivity | intros snap [sym fd]; reflexivity | exact (proj2 Hu1)].
    simpl. destruct (spot_universe_facts _ _ _ _ _ _ Hs) as (Hon & Hoff & _).
    destruct flag; [now rewrite (Hon eq_refl) | reflexivity].
Qed.

Lemma monitor_snapshot_is_filtered_state_witness :
  exists snap w',
    BinanceWebSocketMonitor.get_snapshot false net_down world_binance_streaming
    = (Ok snap, w')
    /\ snap = map (binance_entry_of (BinanceState._ticker_volume (binance_monitor w')))
                (passing false (SPOT_SYMBOL_CACHE w' binance)
                   (BinanceState._mark_data (binance_monitor w'))).
Proof.
  apply (monitor_snapshot_is_filtered_state false net_down world_binance_streaming).
  apply reach_idle. apply reach_call; [apply ep_collector | apply reach_init].
Defined.

(** *** Snapshots of the collectors *)

Lemma keyed_loop_unique {I : Type} (key_of : I -> option string) (flag : bool)
    (spot : gset string) (step : I -> snapshot -> result snapshot)
    (xs : list I) (acc r : snapshot) :
  keyed_step key_of flag spot step ->
  NoDup (dict_keys acc) ->
  for_each step xs acc = Ok r -> NoDup (dict_keys r).
Proof.
  intros Hkeyed Hacc.
  apply (for_each_invariant (fun s => NoDup (dict_keys s))); [exact Hacc|].
  intros x a a' _ Ha Hs. specialize (Hkeyed x a a' Hs).
  destruct (key_of x) as [k|]; [|now subst].
  destruct (filtered_out flag spot k); [now subst|].
  destruct Hkeyed as (e & _ & ->). now apply dict_set_NoDup.
Qed.

Lemma monitor_snapshot_unique {V : Type} (flag : bool) (spot : gset string)
    (step : snapshot -> string * V -> snapshot) (data : dict V) :
  (forall snap kv,
     if filtered_out flag spot (fst kv) then step snap kv = snap
     else exists e, symbol e = fst kv /\ step snap kv = dict_set (fst kv) e snap) ->
  NoDup (dict_keys (fold_left step data [])).
Proof.
  intros Hcases.
  apply (fold_left_invariant (fun s => NoDup (dict_keys s))); [constructor|].
  intros kv a _ Ha. specialize (Hcases a kv).
  destruct (filtered_out flag spot (fst kv)); [now rewrite Hcases|].
  destruct Hcases as (e & _ & ->). now apply dict_set_NoDup.
Qed.

(** X12.  A snapshot is a mapping: whatever the exchange, the flag, the network and
    the state, the snapshot a collector returns holds each key once, so that
    looking a key up finds exactly the entries listed under it. *)
Theorem snapshot_keys_unique (ex : exchange) (flag : bool) (net : Net) (w : World) :
  exists snap w',
    collectors ex flag net w = (Ok snap, w')
    /\ NoDup (dict_keys snap)
    /\ forall k e, In (k, e) snap <-> dict_get k snap = Some e.
Proof.
  assert (Hgoal : exists snap w',
             collectors ex flag net w = (Ok snap, w') /\ NoDup (dict_keys snap)).
  { destruct ex; unfold collectors.
    - destruct (never_raises_returns _ net (snd (BinanceWebSocketMonitor.start net w))
                  (spot_universe_returns flag binance)) as (spot & w1 & Hs).
      eexists _, _. split; [apply (binance_get_snapshot_run _ _ _ _ _ Hs)|].
      apply (monitor_snapshot_unique flag spot).
      intros snap kv. apply binance_snapshot_step_cases.
    - destruct (never_raises_returns _ net w (spot_universe_returns flag bybit))
        as (spot & w1 & Hs).
      eexists _, _. split; [apply (get_bybit_funding_rates_run _ _ _ _ _ Hs)|].
      destruct (snapshot_of_cases bybit_code_ok
                  (fun l => for_each (bybit_item_step flag spot) l [])
                  (bybit_tickers net)) as [->|(l & _ & Hl)]; [constructor|].
      refine (keyed_loop_unique _ flag spot _ l [] _ (bybit_item_step_keyed flag spot) _ Hl).
      apply NoDup_nil_2.
    - destruct (never_raises_returns _ net w (spot_universe_returns flag bitget))
        as (spot & w1 & Hs).
      eexists _, _. split; [apply (get_bitget_funding_rates_run _ _ _ _ _ Hs)|].
      destruct (snapshot_of_cases (code_is "00000")
                  (fun l => for_each (bitget_item_step flag spot) l [])
                  (bitget_tickers net)) as [->|(l & _ & Hl)]; [constructor|].
      refine (keyed_loop_unique _ flag spot _ l [] _ (bitget_item_step_keyed flag spot) _ Hl).
      apply NoDup_nil_2.
    - set (w0 := snd (OKXWebSocketMonitor.start net w)).
      set (w0' := match OKXState._funding_data (okx_monitor w0) with
                  | [] => snd (asyncio_sleep 3 net w0)
                  | _ :: _ => w0
                  end).
      destruct (never_raises_returns _ net w0' (spot_universe_returns flag okx))
        as (spot & w1 & Hs).
      eexists _, _. split; [apply (okx_get_snapshot_run _ _ _ _ _ Hs)|].
      apply (monitor_snapshot_unique flag spot).
      intros snap kv. apply okx_snapshot_step_cases. }
  destruct Hgoal as (snap & w' & Hrun & Hnd).
  exists snap, w'. split; [exact Hrun|]. split; [exact Hnd|].
  intros k e. now apply dict_get_In.
Qed.

Lemma bitget_item_step_no_funding_time (flag : bool) (spot : gset string)
    (item : bitget_ticker) (acc acc' : snapshot) :
  Forall (fun kv => next_funding (snd kv) = 0%Z) acc ->
  bitget_item_step flag spot item acc = Ok acc' ->
  Forall (fun kv => next_funding (snd kv) = 0%Z) acc'.
Proof.
  intros Hacc. unfold bitget_item_step.
  destruct (bg_symbol item) as [| |sym]; simpl; try discriminate.
  destruct (bitget_key sym) as [k|]; [|now intros [= <-]].
  destruct (filtered_out flag spot k); [now intros [= <-]|].
  destruct (bg_fundingRate item), (bg_quoteVolume item), (bg_last item);
    simpl; try discriminate;
    intros [= <-]; apply dict_set_Forall; auto.
Qed.

(** X13.  Bitget reports no next funding time: every entry of a Bitget snapshot
    has next-funding time zero, so every alert raised on a Bitget entry
    carries the no-information text instead of a countdown. *)
Theorem bitget_has_no_countdown (flag : bool) (net : Net) (w : World) :
  exists snap w',
    get_bitget_funding_rates flag net w = (Ok snap, w')
    /\ Forall (fun kv => next_funding (snd kv) = 0%Z) snap
    /\ forall now exchange_name kv,
         In kv snap ->
         alert_countdown (alert_for now exchange_name kv) = no_information.
Proof.
  destruct (never_raises_returns _ net w (spot_universe_returns flag bitget))
    as (spot & w1 & Hs).
  eexists _, _. split; [apply (get_bitget_funding_rates_run _ _ _ _ _ Hs)|].
  assert (Hall : Forall (fun kv => next_funding (snd kv) = 0%Z)
                   (snapshot_of (code_is "00000")
                      (fun l => for_each (bitget_item_step flag spot) l [])
                      (bitget_tickers net))).
  { destruct (snapshot_of_cases (code_is "00000")
                (fun l => for_each (bitget_item_step flag spot) l [])
                (bitget_tickers net)) as [->|(l & _ & Hl)]; [constructor|].
    revert Hl.
    apply (for_each_invariant (fun s => Forall (fun kv => next_funding (snd kv) = 0%Z) s));
      [constructor|].
    intros x a a' _ Ha. now apply bitget_item_step_no_funding_time. }
  split; [exact Hall|].
  intros now exchange_name [k e] Hin.
  rewrite List.Forall_forall in Hall. specialize (Hall _ Hin). simpl in Hall.
  simpl. unfold countdown_of. now rewrite Hall.
Qed.

Lemma spot_url_is_not_a_tickers_url (ex : exchange) :
  String.eqb bybit_tickers_url (spot_url ex) = false
  /\ String.eqb bitget_tickers_url (spot_url ex) = false.
Proof. destruct ex; split; reflexivity. Qed.

(** X14.  With the spot filter off no collector goes near the spot cache: the
    cached sets and their time stamps are left as they were and no spot
    listing is requested, of any exchange. *)
Theorem filter_off_leaves_spot_cache (ex : exchange) (net : Net) (w : World) :
  let w' := snd (collectors ex false net w) in
  SPOT_SYMBOL_CACHE w' = SPOT_SYMBOL_CACHE w
  /\ SPOT_SYMBOL_LAST_FETCH w' = SPOT_SYMBOL_LAST_FETCH w
  /\ forall other, requests_to (spot_url other) (trace w')
                   = requests_to (spot_url other) (trace w).
Proof.
  cbv zeta. destruct ex; unfold collectors.
  - rewrite (binance_get_snapshot_run false net w ∅
               (snd (BinanceWebSocketMonitor.start net w)) eq_refl).
    simpl. unfold BinanceWebSocketMonitor.start, modify. simpl.
    destruct (BinanceState._task (binance_monitor w)); auto.
  - rewrite (get_bybit_funding_rates_run false net w ∅ w eq_refl). simpl.
    rewrite background_cache, background_last, background_trace. simpl.
    repeat split. intros other. apply requests_to_other.
    exact (proj1 (spot_url_is_not_a_tickers_url other)).
  - rewrite (get_bitget_funding_rates_run false net w ∅ w eq_refl). simpl.
    rewrite background_cache, background_last, background_trace. simpl.
    repeat split. intros other. apply requests_to_other.
    exact (proj2 (spot_url_is_not_a_tickers_url other)).
  - set (w0 := snd (OKXWebSocketMonitor.start net w)).
    set (w0' := match OKXState._funding_data (okx_monitor w0) with
                | [] => snd (asyncio_sleep 3 net w0)
                | _ :: _ => w0
                end).
    assert (Hs : spot_universe false (get_spot_symbols okx) net w0' = (Ok ∅, w0'))
      by reflexivity.
    rewrite (okx_get_snapshot_run false net w ∅ w0' Hs). simpl.
    assert (H0 : SPOT_SYMBOL_CACHE w0 = SPOT_SYMBOL_CACHE w
                 /\ SPOT_SYMBOL_LAST_FETCH w0 = SPOT_SYMBOL_LAST_FETCH w
                 /\ trace w0 = trace w).
    { unfold w0, OKXWebSocketMonitor.start, modify. simpl.
      destruct (OKXState._task (okx_monitor w)); auto. }
    destruct H0 as (Hc & Hl & Ht). unfold w0'.
    destruct (OKXState._funding_data (okx_monitor w0)).
    + unfold asyncio_sleep. simpl.
      rewrite background_cache, background_last, background_trace. simpl.
      rewrite Hc, Hl, Ht. auto.
    + rewrite Hc, Hl, Ht. auto.
Qed.

(** *** The selected exchanges *)

Lemma tasks_for_ext (collector : exchange -> bool -> M snapshot)
    (exs1 exs2 : list string) (flag : bool) :
  (forall n, n ∈ known_exchanges -> n ∈ exs1 <-> n ∈ exs2) ->
  tasks_for collector exs1 flag = tasks_for collector exs2 flag.
Proof.
  intros H.
  assert (Hb : forall n, n ∈ known_exchanges ->
                 bool_decide (n ∈ exs1) = bool_decide (n ∈ exs2)).
  { intros n Hn. apply bool_decide_ext. now apply H. }
  unfold tasks_for.
  rewrite (Hb "bybit"), (Hb "binance"), (Hb "bitget"), (Hb "okx");
    [reflexivity | | | | ]; unfold known_exchanges; rewrite !elem_of_cons; auto 10.
Qed.

Lemma get_all_funding_rates_ext (exs1 exs2 : list string) (flag : bool) :
  (forall n, n ∈ known_exchanges -> n ∈ exs1 <-> n ∈ exs2) ->
  get_all_funding_rates exs1 flag = get_all_funding_rates exs2 flag.
Proof.
  intros H. unfold get_all_funding_rates, get_all_funding_rates_with.
  now rewrite (tasks_for_ext collectors exs1 exs2 flag H).
Qed.

Lemma cleaned_exchanges_elem_of (exs : list string) (n : string) :
  n ∈ cleaned_exchanges exs <-> n ∈ known_exchanges /\ n ∈ exs.
Proof.
  unfold cleaned_exchanges.
  rewrite !list_elem_of_In, filter_In, bool_decide_eq_true, list_elem_of_In.
  unfold known_exchanges. tauto.
Qed.

Lemma dict_get_is_Some {V} (k : string) (d : dict V) :
  is_Some (dict_get k d) <-> In k (dict_keys d).
Proof.
  unfold dict_keys. induction d as [|[k' v'] d IH]; simpl.
  - split; [intros [x Hx]; discriminate | tauto].
  - destruct (String.eqb_spec k' k) as [->|Hne].
    + split; [now left | now eexists].
    + rewrite IH. split; [now right | intros [?|?]; [contradiction | assumption]].
Qed.

Lemma aggregated_entry_iff (exs : list string) (flag : bool) (net : Net) (w : World)
    (results : dict snapshot) (w' : World) (name : string) :
  get_all_funding_rates exs flag net w = (Ok results, w') ->
  is_Some (dict_get name results) <-> name ∈ known_exchanges /\ name ∈ exs.
Proof.
  unfold get_all_funding_rates. rewrite get_all_funding_rates_with_run.
  destruct (gather _ net w) as [[rs|e] w1] eqn:Eg; [|discriminate].
  intros [= <- <-].
  apply gather_Awaited, Awaited_gather in Eg as [_ Hn].
  rewrite dict_get_is_Some. unfold dict_keys. rewrite Hn, tasks_for_names.
  rewrite filter_In, bool_decide_eq_true, <- list_elem_of_In. tauto.
Qed.

(** X15.  Identifiers other than the four known ones are ignored by the
    aggregator: it runs the same on the settings' list and on the cleaned
    list the status command keeps, and when the list names no known exchange
    it returns the empty mapping without touching the state. *)
Theorem aggregator_ignores_unknown_ids (exs : list string) (flag : bool) :
  get_all_funding_rates (cleaned_exchanges exs) flag = get_all_funding_rates exs flag
  /\ (cleaned_exchanges exs = [] ->
      forall net w, get_all_funding_rates exs flag net w = (Ok [], w)).
Proof.
  assert (Hsame : get_all_funding_rates (cleaned_exchanges exs) flag
                  = get_all_funding_rates exs flag).
  { apply get_all_funding_rates_ext. intros n Hn.
    rewrite cleaned_exchanges_elem_of. tauto. }
  split; [exact Hsame|].
  intros Hnone net w. rewrite <- Hsame, Hnone. reflexivity.
Qed.

Lemma list_remove_elem_of (x y : string) (l : list string) :
  NoDup l -> y ∈ list_remove x l <-> y <> x /\ y ∈ l.
Proof.
  induction l as [|z l IH]; simpl; intros Hnd.
  - rewrite elem_of_nil. tauto.
  - apply NoDup_cons in Hnd as [Hz Hnd]. specialize (IH Hnd).
    destruct (String.eqb_spec z x) as [->|Hne].
    + rewrite elem_of_cons. split.
      * intros Hy. split; [intros -> ; contradiction | now right].
      * intros [Hy [->|Hin]]; [contradiction | exact Hin].
    + rewrite !elem_of_cons, IH. split.
      * intros [->|[Hy Hin]]; [split; [exact Hne | now left] | split; [exact Hy | now right]].
      * intros [Hy [->|Hin]]; [now left | right; now split].
Qed.

Lemma list_remove_NoDup (x : string) (l : list string) :
  NoDup l -> NoDup (list_remove x l).
Proof.
  induction l as [|z l IH]; simpl; intros Hnd; [exact Hnd|].
  apply NoDup_cons in Hnd as [Hz Hnd].
  destruct (String.eqb z x); [exact Hnd|].
  apply NoDup_cons_2; [|now apply IH].
  rewrite list_remove_elem_of by exact Hnd. tauto.
Qed.

Lemma toggle_exchange_elem_of (x y : string) (exs : list string) :
  NoDup exs ->
  y ∈ toggle_exchange x exs <-> (if bool_decide (y = x) then y ∉ exs else y ∈ exs).
Proof.
  intros Hnd. unfold toggle_exchange.
  destruct (bool_decide (x ∈ exs)) eqn:Ex.
  - apply bool_decide_eq_true in Ex. rewrite list_remove_elem_of by exact Hnd.
    destruct (bool_decide (y = x)) eqn:Ey.
    + apply bool_decide_eq_true in Ey. subst y. tauto.
    + apply bool_decide_eq_false in Ey. tauto.
  - apply bool_decide_eq_false in Ex. rewrite elem_of_app, list_elem_of_singleton.
    destruct (bool_decide (y = x)) eqn:Ey.
    + apply bool_decide_eq_true in Ey. subst y. tauto.
    + apply bool_decide_eq_false in Ey. tauto.
Qed.

Lemma toggle_exchange_NoDup (x : string) (exs : list string) :
  NoDup exs -> NoDup (toggle_exchange x exs).
Proof.
  intros Hnd. unfold toggle_exchange.
  destruct (bool_decide (x ∈ exs)) eqn:Ex.
  - now apply list_remove_NoDup.
  - apply bool_decide_eq_false in Ex. apply NoDup_app.
    split; [exact Hnd|]. split; [|apply NoDup_singleton].
    intros y Hy. rewrite list_elem_of_singleton. intros ->. contradiction.
Qed.

(** X16.  The exchange button is a switch as long as the selection holds no
    exchange twice: pressing it keeps the selection free of repetitions,
    flips the membership of the pressed exchange and of no other, and
    pressing it twice gives the collection run of the selection one started
    from. *)
Theorem toggle_exchange_is_a_switch (x : string) (exs : list string) :
  NoDup exs ->
  NoDup (toggle_exchange x exs)
  /\ (x ∈ toggle_exchange x exs <-> x ∉ exs)
  /\ (forall y, y <> x -> y ∈ toggle_exchange x exs <-> y ∈ exs)
  /\ (forall flag,
        get_all_funding_rates (toggle_exchange x (toggle_exchange x exs)) flag
        = get_all_funding_rates exs flag).
Proof.
  intros Hnd. split; [now apply toggle_exchange_NoDup|].
  split; [|split].
  - rewrite toggle_exchange_elem_of by exact Hnd.
    now rewrite bool_decide_eq_true_2 by reflexivity.
  - intros y Hy. rewrite toggle_exchange_elem_of by exact Hnd.
    now rewrite bool_decide_eq_false_2 by exact Hy.
  - intros flag. apply get_all_funding_rates_ext. intros n _.
    rewrite toggle_exchange_elem_of by now apply toggle_exchange_NoDup.
    pose proof (toggle_exchange_elem_of x n exs Hnd) as Hin.
    destruct (bool_decide (n = x)); [|tauto].
    destruct (decide (n ∈ exs)); tauto.
Qed.

Lemma toggle_exchange_is_a_switch_witness :
  NoDup ["bybit"; "okx"]
  /\ toggle_exchange "okx" ["bybit"; "okx"] = ["bybit"]
  /\ toggle_exchange "binance" ["bybit"; "okx"] = ["bybit"; "okx"; "binance"]
  /\ ("okx" ∈ toggle_exchange "okx" ["bybit"; "okx"] <-> "okx" ∉ ["bybit"; "okx"]).
Proof.
  assert (Hnd : NoDup ["bybit"; "okx"]).
  { repeat (apply NoDup_cons_2;
            [rewrite ?elem_of_cons, ?elem_of_nil; intuition discriminate|]).
    apply NoDup_nil_2. }
  split; [exact Hnd|]. split; [reflexivity|]. split; [reflexivity|].
  exact (proj1 (proj2 (toggle_exchange_is_a_switch "okx" ["bybit"; "okx"] Hnd))).
Defined.

Lemma exchange_id_inj (a b : exchange) : exchange_id a = exchange_id b -> a = b.
Proof. destruct a, b; simpl; congruence. Qed.

Lemma exchange_id_known (ex : exchange) : exchange_id ex ∈ known_exchanges.
Proof. destruct ex; unfold known_exchanges; simpl; rewrite !elem_of_cons; auto 10. Qed.

(** X17.  Pressing an exchange button decides the next collection: with a
    selection free of repetitions, the collection that follows the press
    returns, holds a snapshot for the pressed exchange exactly when it was not
    selected before, and holds one for any other exchange exactly when that
    one was selected. *)
Theorem toggled_exchange_in_next_collection (ex : exchange) (exs : list string)
    (flag : bool) (net : Net) (w : World) :
  NoDup exs ->
  exists results w',
    get_all_funding_rates (toggle_exchange (exchange_id ex) exs) flag net w
    = (Ok results, w')
    /\ (is_Some (dict_get (exchange_id ex) results) <-> exchange_id ex ∉ exs)
    /\ forall other, other <> ex ->
         is_Some (dict_get (exchange_id other) results) <-> exchange_id other ∈ exs.
Proof.
  intros Hnd.
  destruct (never_raises_returns _ net w
              (get_all_funding_rates_returns (toggle_exchange (exchange_id ex) exs) flag))
    as (results & w' & Hrun).
  exists results, w'. split; [exact Hrun|]. split.
  - rewrite (aggregated_entry_iff _ _ _ _ _ _ _ Hrun).
    rewrite toggle_exchange_elem_of by exact Hnd.
    rewrite bool_decide_eq_true_2 by reflexivity.
    pose proof (exchange_id_known ex). tauto.
  - intros other Hne. rewrite (aggregated_entry_iff _ _ _ _ _ _ _ Hrun).
    rewrite toggle_exchange_elem_of by exact Hnd.
    rewrite bool_decide_eq_false_2
      by (intros E; apply Hne; now apply exchange_id_inj).
    pose proof (exchange_id_known other). tauto.
Qed.

Lemma toggled_exchange_in_next_collection_witness :
  NoDup ["bybit"; "bitget"]
  /\ exists results w',
       get_all_funding_rates (toggle_exchange "bybit" ["bybit"; "bitget"]) false
         net_sample (initial_world 0 []) = (Ok results, w')
       /\ dict_get "bybit" results = None
       /\ is_Some (dict_get "bitget" results).
Proof.
  assert (Hnd : NoDup ["bybit"; "bitget"]).
  { repeat (apply NoDup_cons_2;
            [rewrite ?elem_of_cons, ?elem_of_nil; intuition discriminate|]).
    apply NoDup_nil_2. }
  split; [exact Hnd|].
  destruct (toggled_exchange_in_next_collection bybit ["bybit"; "bitget"] false
              net_sample (initial_world 0 []) Hnd)
    as (results & w' & Hrun & Hself & Hother).
  exists results, w'. split; [exact Hrun|]. split.
  - destruct (dict_get "bybit" results) as [s|] eqn:E; [|reflexivity].
    exfalso. simpl in Hself.
    apply (proj1 Hself); [rewrite E; now eexists | rewrite !elem_of_cons; auto].
  - apply (Hother bitget); [discriminate | simpl; rewrite !elem_of_cons; auto].
Defined.

(** *** Exchange links *)

Lemma str_app_cons (c : ascii) (a b : string) :
  String c a +:+ b = String c (a +:+ b).
Proof. reflexivity. Qed.

Lemma substring_split (n : nat) (s : string) :
  (n <= String.length s)%nat ->
  String.substring 0 n s +:+ String.substring n (String.length s - n) s = s.
Proof.
  revert s. induction n as [|n IH]; intros [|c s] Hn; simpl in Hn.
  - reflexivity.
  - change (String.substring 0 0 (String c s)) with EmptyString.
    change (EmptyString +:+ ?x) with x.
    replace (String.length (String c s) - 0)%nat with (S (String.length s)) by (simpl; lia).
    change (String.substring 0 (S (String.length s)) (String c s))
      with (String c (String.substring 0 (String.length s) s)).
    now rewrite substring_whole.
  - lia.
  - change (String.substring 0 (S n) (String c s))
      with (String c (String.substring 0 n s)).
    change (String.substring (S n) (String.length (String c s) - S n) (String c s))
      with (String.substring n (String.length s - n) s).
    rewrite str_app_cons. f_equal. apply IH. lia.
Qed.

Lemma endswith_split (s suf : string) :
  endswith s suf = true -> drop_last (String.length suf) s +:+ suf = s.
Proof.
  unfold endswith, drop_last. cbv zeta. intros H.
  apply andb_true_iff in H as [Hle Heq].
  apply Nat.leb_le in Hle. apply String.eqb_eq in Heq.
  pose proof (substring_split (String.length s - String.length suf) s) as Hs.
  replace (String.length s - (String.length s - String.length suf))%nat
    with (String.length suf) in Hs by lia.
  rewrite Heq in Hs. apply Hs. lia.
Qed.

Lemma lacks_app (c : ascii) (a b : string) :
  lacks c (a +:+ b) = lacks c a && lacks c b.
Proof.
  induction a as [|x a IH]; [reflexivity|].
  rewrite str_app_cons. simpl. rewrite IH. now rewrite andb_assoc.
Qed.

Lemma lacks_split_head (c d : ascii) (s : string) :
  lacks c s = true -> lacks c (split_head d s) = true.
Proof.
  induction s as [|x s IH]; simpl; [reflexivity|].
  intros H. apply andb_true_iff in H as [Hx Hs].
  destruct (Ascii.eqb x d); [reflexivity|].
  simpl. rewrite Hx. now apply IH.
Qed.

Lemma str_lower_app (a b : string) :
  str_lower (a +:+ b) = str_lower a +:+ str_lower b.
Proof.
  induction a as [|x a IH]; [reflexivity|].
  rewrite str_app_cons. simpl. now rewrite IH.
Qed.

Lemma split_head_ccxt (base : string) :
  lacks "/" base = true -> split_head "/" (ccxt base) = base.
Proof.
  intros H. unfold ccxt.
  change (base +:+ "/USDT:USDT") with (base +:+ String "/" "USDT:USDT").
  now apply split_head_app.
Qed.

Lemma usdt_suffix_key_inv (sym k : string) :
  usdt_suffix_key sym = Some k ->
  exists base, sym = base +:+ "USDT" /\ k = ccxt base.
Proof.
  unfold usdt_suffix_key. destruct (endswith sym "USDT") eqn:E; [|discriminate].
  intros [= <-]. exists (drop_last 4 sym). split; [|reflexivity].
  symmetry. exact (endswith_split sym "USDT" E).
Qed.

Lemma exchange_url_of_key (base : string) :
  lacks "/" base = true ->
  get_exchange_url "bybit" (ccxt base)
  = "https://www.bybit.com/trade/usdt/" +:+ base +:+ "USDT"
  /\ get_exchange_url "binance" (ccxt base)
     = "https://www.binance.com/futures/trade/" +:+ base +:+ "USDT"
  /\ get_exchange_url "bitget" (ccxt base)
     = "https://www.bitget.com/futures/" +:+ base +:+ "USDT"
  /\ get_exchange_url "okx" (ccxt base)
     = "https://www.okx.com/trade-swap/" +:+ str_lower base +:+ "-usdt-swap".
Proof.
  intros H. unfold get_exchange_url. cbv zeta.
  rewrite (split_head_ccxt base H). repeat split; reflexivity.
Qed.

(** X18.  The link shown with an entry addresses the instrument the entry came
    from.  For a Bybit or Binance symbol that yields a key, the link built
    from the key ends in that very symbol; for a Bitget symbol it ends in the
    pair before the underscore; for an OKX instrument [BASE-USDT-SWAP] it ends
    in the instrument identifier in lower case.  An exchange identifier
    outside the four known ones gives the placeholder link. *)
Theorem exchange_link_names_the_instrument :
  (forall sym k,
     usdt_suffix_key sym = Some k -> lacks "/" sym = true ->
     get_exchange_url "bybit" k = "https://www.bybit.com/trade/usdt/" +:+ sym
     /\ get_exchange_url "binance" k = "https://www.binance.com/futures/trade/" +:+ sym)
  /\ (forall raw k,
        bitget_key raw = Some k -> lacks "/" raw = true ->
        get_exchange_url "bitget" k
        = "https://www.bitget.com/futures/" +:+ split_head "_" raw)
  /\ (forall base,
        lacks "/" base = true -> lacks "-" base = true ->
        get_exchange_url "okx" (okx_key (base +:+ "-USDT-SWAP"))
        = "https://www.okx.com/trade-swap/" +:+ str_lower (base +:+ "-USDT-SWAP"))
  /\ (forall exchange sym,
        exchange ∉ known_exchanges -> get_exchange_url exchange sym = "#").
Proof.
  split; [|split; [|split]].
  - intros sym k Hk Hs. apply usdt_suffix_key_inv in Hk as (base & -> & ->).
    rewrite lacks_app in Hs. apply andb_true_iff in Hs as [Hb _].
    destruct (exchange_url_of_key base Hb) as (-> & -> & _). split; reflexivity.
  - intros raw k Hk Hs. unfold bitget_key in Hk.
    destruct (endswith raw "_UMCBL"); [|discriminate].
    pose proof (lacks_split_head "/" "_" raw Hs) as Hp.
    apply usdt_suffix_key_inv in Hk as (base & Hpair & ->).
    rewrite Hpair in Hp |- *.
    rewrite lacks_app in Hp. apply andb_true_iff in Hp as [Hb _].
    now destruct (exchange_url_of_key base Hb) as (_ & _ & -> & _).
  - intros base Hs Hd. rewrite (okx_key_app base Hd).
    destruct (exchange_url_of_key base Hs) as (_ & _ & _ & ->).
    now rewrite str_lower_app.
  - intros exchange sym Hx. unfold get_exchange_url. cbv zeta.
    unfold known_exchanges in Hx. rewrite !elem_of_cons, elem_of_nil in Hx.
    unfold dict_get.
    destruct (String.eqb_spec "bybit" exchange) as [<-|_]; [tauto|].
    destruct (String.eqb_spec "binance" exchange) as [<-|_]; [tauto|].
    destruct (String.eqb_spec "bitget" exchange) as [<-|_]; [tauto|].
    destruct (String.eqb_spec "okx" exchange) as [<-|_]; [tauto|].
    reflexivity.
Qed.

Lemma exchange_link_names_the_instrument_witness :
  usdt_suffix_key "BTCUSDT" = Some "BTC/USDT:USDT"
  /\ get_exchange_url "binance" "BTC/USDT:USDT"
     = "https://www.binance.com/futures/trade/BTCUSDT"
  /\ get_exchange_url "bitget" "ETH/USDT:USDT" = "https://www.bitget.com/futures/ETHUSDT"
  /\ get_exchange_url "okx" "SOL/USDT:USDT" = "https://www.okx.com/trade-swap/sol-usdt-swap"
  /\ get_exchange_url "spot_filter" "SOL/USDT:USDT" = "#".
Proof.
  destruct exchange_link_names_the_instrument as (Hu & Hb & Ho & Hx).
  split; [reflexivity|]. split.
  - exact (proj2 (Hu "BTCUSDT" "BTC/USDT:USDT" eq_refl eq_refl)).
  - split; [exact (Hb "ETHUSDT_UMCBL" "ETH/USDT:USDT" eq_refl eq_refl)|].
    split; [exact (Ho "SOL" eq_refl eq_refl)|].
    apply Hx. unfold known_exchanges. rewrite !elem_of_cons, elem_of_nil.
    intuition discriminate.
Defined.



(** *** Batches *)

Lemma py_slice_window {A} (i n : nat) (l : list A) :
  py_slice i (i + n) l = firstn n (skipn i l).
Proof. unfold py_slice. f_equal. lia. Qed.

Lemma skipn_add {A} (a b : nat) (l : list A) :
  skipn a (skipn b l) = skipn (b + a) l.
Proof.
  revert l. induction b as [|b IH]; intros l; [reflexivity|].
  destruct l as [|x l]; simpl; [now destruct a | apply IH].
Qed.

Lemma skipn_len {A} (n : nat) (l : list A) :
  length (skipn n l) = (length l - n)%nat.
Proof.
  revert l. induction n as [|n IH]; intros [|x l]; simpl; try reflexivity; try lia.
  apply IH.
Qed.

Lemma range_count_step (a n : nat) :
  (0 < n)%nat -> (0 < a)%nat ->
  ((a + n - 1) / n = S ((a - n + n - 1) / n))%nat.
Proof.
  intros Hn Ha.
  replace (a + n - 1)%nat with ((a - 1) + 1 * n)%nat by lia.
  rewrite Nat.div_add by lia.
  destruct (le_lt_dec a n) as [Hle|Hlt].
  - replace (a - n + n - 1)%nat with (n - 1)%nat by lia.
    rewrite !Nat.div_small by lia. reflexivity.
  - replace (a - n + n - 1)%nat with (a - 1)%nat by lia. lia.
Qed.

Lemma batches_nil {A} (n : nat) : (0 < n)%nat -> batches n (@nil A) = [].
Proof.
  intros Hn. unfold batches, range_step. simpl.
  now rewrite Nat.div_small by lia.
Qed.

Lemma batches_cons {A} (n : nat) (l : list A) :
  (0 < n)%nat -> l <> [] ->
  batches n l = firstn n l :: batches n (skipn n l).
Proof.
  intros Hn Hl. unfold batches, range_step.
  assert (Hlen : (0 < length l)%nat) by (destruct l; [contradiction | simpl; lia]).
  rewrite (range_count_step (length l) n Hn Hlen), skipn_len.
  set (c := ((length l - n + n - 1) / n)%nat).
  change (seq 0 (S c)) with (0%nat :: seq 1 c).
  rewrite <- seq_shift, !map_cons, !map_map. f_equal.
  - rewrite (py_slice_window (0 * n) n l). reflexivity.
  - apply map_ext. intros q. rewrite !py_slice_window, skipn_add.
    reflexivity.
Qed.

Lemma batches_ind {A} (n : nat) (P : list A -> list (list A) -> Prop) :
  (0 < n)%nat ->
  P [] [] ->
  (forall l, l <> [] ->
     P (skipn n l) (batches n (skipn n l)) ->
     P l (firstn n l :: batches n (skipn n l))) ->
  forall l, P l (batches n l).
Proof.
  intros Hn Hnil Hcons l.
  remember (length l) as k eqn:Hk. revert l Hk.
  induction k as [k IH] using lt_wf_ind. intros l Hk.
  destruct l as [|x l].
  - now rewrite batches_nil.
  - rewrite batches_cons by (auto; discriminate).
    apply Hcons; [discriminate|].
    apply (IH (length (skipn n (x :: l)))); [|reflexivity].
    rewrite skipn_len. subst k. simpl. lia.
Qed.

Lemma concat_batches {A} (n : nat) (l : list A) :
  (0 < n)%nat -> concat (batches n l) = l.
Proof.
  intros Hn. apply (batches_ind n (fun l bs => concat bs = l)); [exact Hn | reflexivity|].
  intros l' _ IH. simpl. rewrite IH. apply firstn_skipn.
Qed.

Lemma batches_sizes {A} (n : nat) (l : list A) :
  (0 < n)%nat ->
  Forall (fun b => (1 <= length b <= n)%nat) (batches n l).
Proof.
  intros Hn.
  apply (batches_ind n (fun _ bs => Forall (fun b => (1 <= length b <= n)%nat) bs));
    [exact Hn | constructor|].
  intros l' Hl IH. constructor; [|exact IH].
  destruct l' as [|x l']; [contradiction|].
  split.
  - destruct n; [lia | simpl; lia].
  - pose proof (firstn_le_length n (x :: l')). lia.
Qed.

Lemma length_batches {A} (n : nat) (l : list A) :
  length (batches n l) = ((length l + n - 1) / n)%nat.
Proof. unfold batches, range_step. now rewrite !length_map, length_seq. Qed.

Lemma subscribe_args_length (ids : list string) :
  length (subscribe_args ids) = (2 * length ids)%nat.
Proof. induction ids as [|x ids IH]; simpl in *; [reflexivity | lia]. Qed.

Lemma subscribe_args_firstn (m : nat) (ids : list string) :
  firstn (2 * m) (subscribe_args ids) = subscribe_args (firstn m ids).
Proof.
  revert ids. induction m as [|m IH]; intros ids; [reflexivity|].
  replace (2 * S m)%nat with (S (S (2 * m))) by lia.
  destruct ids as [|x ids]; [reflexivity|].
  change (subscribe_args (x :: ids))
    with (funding_rate_arg x :: tickers_arg x :: subscribe_args ids).
  change (firstn (S m) (x :: ids)) with (x :: firstn m ids).
  change (subscribe_args (x :: firstn m ids))
    with (funding_rate_arg x :: tickers_arg x :: subscribe_args (firstn m ids)).
  simpl firstn. now rewrite <- IH.
Qed.

Lemma subscribe_args_skipn (m : nat) (ids : list string) :
  skipn (2 * m) (subscribe_args ids) = subscribe_args (skipn m ids).
Proof.
  revert ids. induction m as [|m IH]; intros ids; [reflexivity|].
  replace (2 * S m)%nat with (S (S (2 * m))) by lia.
  destruct ids as [|x ids]; [reflexivity|].
  change (subscribe_args (x :: ids))
    with (funding_rate_arg x :: tickers_arg x :: subscribe_args ids).
  simpl skipn. apply IH.
Qed.

(** The batches of 50 arguments are the argument lists of the batches of 25
    instruments: the two channels of an instrument are never separated. *)
Lemma batches_of_subscribe_args (ids : list string) :
  batches 50 (subscribe_args ids) = map subscribe_args (batches 25 ids).
Proof.
  apply (batches_ind 25
           (fun l bs => batches 50 (subscribe_args l) = map subscribe_args bs));
    [lia | apply (@batches_nil subscribe_arg 50); lia |].
  intros l Hl IH.
  rewrite batches_cons; [|lia|].
  - change 50%nat with (2 * 25)%nat.
    rewrite subscribe_args_firstn, subscribe_args_skipn.
    change (2 * 25)%nat with 50%nat. rewrite IH. reflexivity.
  - destruct l as [|x l]; [contradiction | discriminate].
Qed.

(** *** The OKX subscription handshake *)

Lemma for_each_in_place_ok {I S} (step : I -> S -> result S) (xs : list I) (acc r : S) :
  for_each step xs acc = Ok r -> for_each_in_place step xs acc = (r, None).
Proof.
  revert acc. induction xs as [|x xs IH]; intros acc; simpl.
  - now intros [= <-].
  - destruct (step x acc) as [acc'|e]; simpl; [apply IH | discriminate].
Qed.

Lemma for_each_in_place_raise {I S} (step : I -> S -> result S) (xs : list I) (acc : S)
    (e : exn) :
  for_each step xs acc = Raise e ->
  exists s, for_each_in_place step xs acc = (s, Some e).
Proof.
  revert acc. induction xs as [|x xs IH]; intros acc; simpl.
  - discriminate.
  - destruct (step x acc) as [acc'|e']; simpl; [apply IH|].
    intros [= <-]. eauto.
Qed.

Lemma for_each_in_place_invariant {I S} (P : S -> Prop) (step : I -> S -> result S)
    (xs : list I) (acc : S) :
  P acc ->
  (forall x a a', P a -> step x a = Ok a' -> P a') ->
  P (fst (for_each_in_place step xs acc)).
Proof.
  intros Hacc Hstep. revert acc Hacc.
  induction xs as [|x xs IH]; intros acc Hacc; simpl; [exact Hacc|].
  destruct (step x acc) as [acc'|e] eqn:E; [|exact Hacc].
  apply IH. eapply Hstep; eauto.
Qed.

Lemma okx_subscribe_step_spec (inst : okx_swap_inst) (s s' : gset string) :
  okx_subscribe_step inst s = Ok s' ->
  forall id, id ∈ s' <->
    id ∈ s \/ (sw_settleCcy inst = Some "USDT" /\ sw_instId inst = Val id
               /\ endswith id "-USDT-SWAP" = true).
Proof.
  unfold okx_subscribe_step.
  destruct (sw_settleCcy inst) as [settle|]; simpl; [|discriminate].
  destruct (String.eqb_spec settle "USDT") as [->|Hne].
  - destruct (sw_instId inst) as [| |inst_id]; simpl; try discriminate.
    destruct (endswith inst_id "-USDT-SWAP") eqn:E; intros [= <-] id.
    + rewrite elem_of_union, elem_of_singleton. split.
      * intros [->|H]; [right; auto | now left].
      * intros [H|(_ & [= ->] & _)]; [now right | now left].
    + split; [now left|]. intros [H|(_ & [= ->] & H)]; [exact H | congruence].
  - intros [= <-] id. split; [now left|].
    intros [H|([= H] & _)]; [exact H | congruence].
Qed.

Lemma okx_subscribe_loop_spec (l : list okx_swap_inst) (s s' : gset string) :
  for_each okx_subscribe_step l s = Ok s' ->
  forall id, id ∈ s' <->
    id ∈ s \/ exists inst, In inst l /\ sw_settleCcy inst = Some "USDT"
                           /\ sw_instId inst = Val id
                           /\ endswith id "-USDT-SWAP" = true.
Proof.
  revert s. induction l as [|inst l IH]; intros s; simpl.
  - intros [= <-] id. split; [now left|]. intros [H|(inst & [] & _)]. exact H.
  - destruct (okx_subscribe_step inst s) as [s1|e] eqn:E; simpl; [|discriminate].
    intros Hr id. rewrite (IH s1 Hr id), (okx_subscribe_step_spec inst s s1 E id).
    split.
    + intros [[H|H]|(i & Hi & H)]; [now left | right; exists inst; auto
                                   | right; exists i; auto].
    + intros [H|(i & [<-|Hi] & H)]; [now left; left | left; right; exact H
                                    | right; exists i; auto].
Qed.

Lemma sleeps_in_sleep (d : Q) (tr : list event) :
  sleeps_in (Sleep d :: tr) = S (sleeps_in tr).
Proof. reflexivity. Qed.

Lemma send_batches_run (ws_accepts : nat) (msgs : list (list subscribe_arg))
    (net : Net) (w : World) :
  exists w',
    send_batches ws_accepts msgs net w = (Ok (firstn ws_accepts msgs), w')
    /\ sleeps_in (trace w') = (sleeps_in (trace w) + length (firstn ws_accepts msgs))%nat
    /\ forall url, requests_to url (trace w') = requests_to url (trace w).
Proof.
  revert ws_accepts w. induction msgs as [|batch msgs IH]; intros ws_accepts w.
  - exists w. destruct ws_accepts; simpl; repeat split; lia.
  - destruct ws_accepts as [|n].
    + exists w. simpl. repeat split. lia.
    + set (w1 := snd (asyncio_sleep (1 # 10) net w)).
      destruct (IH n w1) as (w' & Hrun & Hsleeps & Hreq).
      exists w'. split; [|split].
      * change (send_batches (S n) (batch :: msgs))
          with (asyncio_sleep (1 # 10) ;;;
                sent <- send_batches n msgs ;; ret (batch :: sent))%M.
        unfold bind at 1. change (asyncio_sleep (1 # 10) net w) with (@Ok unit tt, w1).
        cbv beta iota. unfold bind at 1. rewrite Hrun. reflexivity.
      * rewrite Hsleeps. unfold w1, asyncio_sleep. simpl snd.
        rewrite background_trace. simpl trace. rewrite sleeps_in_sleep.
        simpl length. lia.
      * intros url. rewrite Hreq. unfold w1, asyncio_sleep. simpl snd.
        rewrite background_trace. reflexivity.
Qed.

Lemma send_subscriptions_run (ws_accepts : nat) (subscribed : gset string)
    (net : Net) (w : World) :
  exists w',
    send_subscriptions ws_accepts subscribed net w
    = (Ok {| _subscribed_symbols := subscribed;
             sent := firstn ws_accepts (subscription_messages subscribed) |}, w')
    /\ sleeps_in (trace w')
       = (sleeps_in (trace w)
          + length (firstn ws_accepts (subscription_messages subscribed)))%nat
    /\ forall url, requests_to url (trace w') = requests_to url (trace w).
Proof.
  destruct (send_batches_run ws_accepts (subscription_messages subscribed) net w)
    as (w' & Hrun & Hsleeps & Hreq).
  exists w'. split; [|split; assumption].
  unfold send_subscriptions, bind. rewrite Hrun. reflexivity.
Qed.

Lemma in_subscribe_args (id : string) (ids : list string) :
  (In (funding_rate_arg id) (subscribe_args ids) <-> In id ids)
  /\ (In (tickers_arg id) (subscribe_args ids) <-> In id ids).
Proof.
  unfold subscribe_args. rewrite !in_flat_map. split; split.
  - intros (x & Hx & [E|[E|[]]]); [|discriminate]. injection E as ->. exact Hx.
  - intros H. exists id. split; [exact H | now left].
  - intros (x & Hx & [E|[E|[]]]); [discriminate|]. injection E as ->. exact Hx.
  - intros H. exists id. split; [exact H | right; now left].
Qed.

Lemma subscription_messages_spec (subscribed : gset string) :
  concat (subscription_messages subscribed) = subscribe_args (elements subscribed)
  /\ Forall (fun msg => (1 <= length msg <= 50)%nat) (subscription_messages subscribed)
  /\ (forall id, id ∈ subscribed ->
        exists msg, In msg (subscription_messages subscribed)
                    /\ In (funding_rate_arg id) msg /\ In (tickers_arg id) msg)
  /\ (forall msg id, In msg (subscription_messages subscribed) ->
        In (funding_rate_arg id) msg <-> In (tickers_arg id) msg)
  /\ length (subscription_messages subscribed) = ((size subscribed + 24) / 25)%nat.
Proof.
  unfold subscription_messages. split; [apply concat_batches; lia|].
  split; [apply batches_sizes; lia|].
  rewrite batches_of_subscribe_args. split; [|split].
  - intros id Hid. apply elem_of_elements, list_elem_of_In in Hid.
    rewrite <- (concat_batches 25 (elements subscribed)) in Hid by lia.
    apply in_concat in Hid as (b & Hb & Hid).
    exists (subscribe_args b). split; [now apply in_map|].
    split; now apply in_subscribe_args.
  - intros msg id Hmsg. apply in_map_iff in Hmsg as (b & <- & _).
    destruct (in_subscribe_args id b) as [-> ->]. reflexivity.
  - rewrite length_map, length_batches.
    change (size subscribed) with (length (elements subscribed)).
    f_equal. lia.
Qed.

(** X20.  When the SWAP listing is read without an exception and the socket takes
    every message, the handshake subscribes the whole set: the set is the
    earlier set together with the USDT-settled [-USDT-SWAP] instruments of
    the listing, every instrument of it is subscribed on both channels in one
    and the same message, a message carries between 1 and 50 arguments, and
    there is one pause per message, one message for every 25 instruments. *)
Theorem okx_subscription_complete (instruments : response (envelope string okx_swap_inst))
    (l : list okx_swap_inst) (ws_accepts : nat) (subscribed subscribed' : gset string)
    (net : Net) (w : World) :
  listing (code_is "0") instruments = Some l ->
  for_each okx_subscribe_step l subscribed = Ok subscribed' ->
  (length (subscription_messages subscribed') <= ws_accepts)%nat ->
  exists w',
    _subscribe_to_channels instruments ws_accepts subscribed net w
    = (Ok {| _subscribed_symbols := subscribed';
             sent := subscription_messages subscribed' |}, w')
    /\ (forall id, id ∈ subscribed' <->
          id ∈ subscribed
          \/ exists inst, In inst l /\ sw_settleCcy inst = Some "USDT"
                          /\ sw_instId inst = Val id
                          /\ endswith id "-USDT-SWAP" = true)
    /\ concat (subscription_messages subscribed') = subscribe_args (elements subscribed')
    /\ Forall (fun msg => (1 <= length msg <= 50)%nat) (subscription_messages subscribed')
    /\ (forall id, id ∈ subscribed' ->
          exists msg, In msg (subscription_messages subscribed')
                      /\ In (funding_rate_arg id) msg /\ In (tickers_arg id) msg)
    /\ (forall msg id, In msg (subscription_messages subscribed') ->
          In (funding_rate_arg id) msg <-> In (tickers_arg id) msg)
    /\ length (subscription_messages subscribed') = ((size subscribed' + 24) / 25)%nat
    /\ sleeps_in (trace w')
       = (sleeps_in (trace w) + length (subscription_messages subscribed'))%nat.
Proof.
  intros Hlisting Hloop Hws.
  unfold listing in Hlisting.
  destruct instruments as [|status [env|]]; try discriminate.
  destruct ((status =? 200)%Z && code_is "0" (env_code env)) eqn:Eok; [|discriminate].
  apply andb_true_iff in Eok as [Est Ecode].
  set (w1 := background (with_event (Request okx_swap_instruments_url) w)).
  destruct (send_subscriptions_run ws_accepts subscribed' net w1)
    as (w' & Hrun & Hsleeps & _).
  rewrite firstn_all2 in Hrun, Hsleeps by exact Hws.
  exists w'. split.
  - unfold _subscribe_to_channels, session_get. cbv zeta. fold w1.
    rewrite Est, Ecode, Hlisting, (for_each_in_place_ok _ _ _ _ Hloop). exact Hrun.
  - split; [exact (okx_subscribe_loop_spec l subscribed subscribed' Hloop)|].
    destruct (subscription_messages_spec subscribed') as (H1 & H2 & H3 & H4 & H5).
    repeat (split; [assumption|]).
    rewrite Hsleeps. unfold w1. rewrite background_trace. reflexivity.
Qed.

Lemma okx_subscription_complete_witness :
  exists w',
    _subscribe_to_channels sample_swap_listing 1 ∅ net_down (initial_world 0 [])
    = (Ok {| _subscribed_symbols := {[ "ETH-USDT-SWAP" ]} ∪ ({[ "BTC-USDT-SWAP" ]} ∪ ∅);
             sent := subscription_messages
                       ({[ "ETH-USDT-SWAP" ]} ∪ ({[ "BTC-USDT-SWAP" ]} ∪ ∅)) |}, w')
    /\ length (subscription_messages ({[ "ETH-USDT-SWAP" ]} ∪ ({[ "BTC-USDT-SWAP" ]} ∪ ∅)))
       = 1%nat
    /\ sleeps_in (trace w') = 1%nat.
Proof.
  assert (Hlen : length (subscription_messages
                           ({[ "ETH-USDT-SWAP" ]} ∪ ({[ "BTC-USDT-SWAP" ]} ∪ ∅))) = 1%nat)
    by (vm_compute; reflexivity).
  destruct (okx_subscription_complete sample_swap_listing sample_swap_instruments 1
              ∅ ({[ "ETH-USDT-SWAP" ]} ∪ ({[ "BTC-USDT-SWAP" ]} ∪ ∅))
              net_down (initial_world 0 []) eq_refl eq_refl)
    as (w' & Hrun & _ & _ & _ & _ & _ & _ & Hsleeps).
  - rewrite Hlen. lia.
  - exists w'. split; [exact Hrun|]. split; [exact Hlen|].
    rewrite Hsleeps, Hlen. reflexivity.
Defined.

(** X21.  The handshake never raises and never forgets an instrument: the set
    only grows, one listing request is made, there is one pause per message
    sent, and what goes out is an initial part of the messages of the set,
    cut where the socket stops taking them.  A listing that is refused -- any
    answer with a status other than 200, with or without a body, or a code
    other than ["0"] -- leaves the set as it was and the earlier instruments
    are subscribed again.  A request that fails, a body that does not decode
    or a listing without its data leaves the set as it was and ends the
    handshake with no message; a malformed instrument ends it with no
    message too, the set keeping the instruments added before it.  A
    listing read to its end is added to the set, and the set is subscribed. *)
Theorem okx_subscription_degrades (instruments : response (envelope string okx_swap_inst))
    (ws_accepts : nat) (subscribed : gset string) (net : Net) (w : World) :
  exists st w',
    _subscribe_to_channels instruments ws_accepts subscribed net w = (Ok st, w')
    /\ subscribed ⊆ _subscribed_symbols st
    /\ requests_to okx_swap_instruments_url (trace w')
       = S (requests_to okx_swap_instruments_url (trace w))
    /\ sleeps_in (trace w') = (sleeps_in (trace w) + length (sent st))%nat
    /\ (sent st = [] \/
        sent st = firstn ws_accepts (subscription_messages (_subscribed_symbols st)))
    /\ ((exists status body, instruments = Reply status body /\ status <> 200%Z)
        \/ (exists env, instruments = Reply 200 (Some env)
                        /\ code_is "0" (env_code env) = false) ->
        _subscribed_symbols st = subscribed
        /\ sent st = firstn ws_accepts (subscription_messages subscribed))
    /\ (instruments = ConnectionFailed
        \/ instruments = Reply 200 None
        \/ (exists env, instruments = Reply 200 (Some env)
                        /\ code_is "0" (env_code env) = true /\ env_items env = None) ->
        _subscribed_symbols st = subscribed /\ sent st = [])
    /\ (forall l e,
          listing (code_is "0") instruments = Some l ->
          for_each okx_subscribe_step l subscribed = Raise e ->
          _subscribed_symbols st = fst (for_each_in_place okx_subscribe_step l subscribed)
          /\ sent st = [])
    /\ (forall l subscribed',
          listing (code_is "0") instruments = Some l ->
          for_each okx_subscribe_step l subscribed = Ok subscribed' ->
          _subscribed_symbols st = subscribed'
          /\ sent st = firstn ws_accepts (subscription_messages subscribed')).
Proof.
  set (w1 := background (with_event (Request okx_swap_instruments_url) w)).
  assert (Hreq1 : requests_to okx_swap_instruments_url (trace w1)
                  = S (requests_to okx_swap_instruments_url (trace w))).
  { unfold w1. rewrite background_trace. simpl trace. apply requests_to_same. }
  assert (Hsl1 : sleeps_in (trace w1) = sleeps_in (trace w)).
  { unfold w1. rewrite background_trace. reflexivity. }
  (* the two ways the call ends *)
  assert (Hquiet : forall s,
            subscribed ⊆ s ->
            exists st w',
              (Ok {| _subscribed_symbols := s; sent := [] |}, w1) = (Ok st, w')
              /\ _subscribed_symbols st = s /\ sent st = []
              /\ subscribed ⊆ _subscribed_symbols st
              /\ requests_to okx_swap_instruments_url (trace w')
                 = S (requests_to okx_swap_instruments_url (trace w))
              /\ sleeps_in (trace w') = (sleeps_in (trace w) + length (sent st))%nat).
  { intros s Hs. eexists _, w1. split; [reflexivity|]. simpl.
    repeat split; [exact Hs | exact Hreq1 | lia]. }
  assert (Hsend : forall s,
            subscribed ⊆ s ->
            exists st w',
              send_subscriptions ws_accepts s net w1 = (Ok st, w')
              /\ _subscribed_symbols st = s
              /\ sent st = firstn ws_accepts (subscription_messages s)
              /\ subscribed ⊆ _subscribed_symbols st
              /\ requests_to okx_swap_instruments_url (trace w')
                 = S (requests_to okx_swap_instruments_url (trace w))
              /\ sleeps_in (trace w') = (sleeps_in (trace w) + length (sent st))%nat).
  { intros s Hs. destruct (send_subscriptions_run ws_accepts s net w1)
      as (w' & Hrun & Hsl & Hreq).
    eexists _, w'. split; [exact Hrun|]. simpl.
    repeat split; [exact Hs | now rewrite Hreq | now rewrite Hsl, Hsl1]. }
  unfold _subscribe_to_channels, session_get. cbv zeta. fold w1.
  destruct instruments as [|status [env|]].
  - (* the request fails *)
    destruct (Hquiet subscribed (reflexivity _))
      as (st & w' & Hrun & Hset & Hsent & Hsub & Hreq & Hsl).
    exists st, w'. split; [exact Hrun|].
    split; [exact Hsub|]. split; [exact Hreq|]. split; [exact Hsl|].
    split; [now left|]. split; [|split; [|split]].
    + intros [(status & body & H & _)|(env & H & _)]; discriminate H.
    + intros _. now split.
    + intros l e Hl. discriminate Hl.
    + intros l s' Hl. discriminate Hl.
  - destruct (status =? 200)%Z eqn:Est.
    + apply Z.eqb_eq in Est. subst status.
      destruct (code_is "0" (env_code env)) eqn:Ecode.
      * destruct (env_items env) as [l|] eqn:Eitems.
        -- (* the listing is walked *)
           assert (Hstep : forall x a a',
                     subscribed ⊆ a -> okx_subscribe_step x a = Ok a' -> subscribed ⊆ a').
           { intros x a a' Ha Hx id Hid.
             apply (okx_subscribe_step_spec x a a' Hx id). left. now apply Ha. }
           pose proof (for_each_in_place_invariant (fun s => subscribed ⊆ s)
                         okx_subscribe_step l subscribed (reflexivity _) Hstep) as Hgrow.
           assert (Hl0 : listing (code_is "0") (Reply 200 (Some env)) = Some l).
           { unfold listing. simpl. now rewrite Ecode. }
           destruct (for_each okx_subscribe_step l subscribed) as [s'|e] eqn:Eloop.
           ++ rewrite (for_each_in_place_ok _ _ _ _ Eloop) in Hgrow |- *.
              simpl in Hgrow.
              destruct (Hsend s' Hgrow)
                as (st & w' & Hrun & Hset & Hsent & Hsub & Hreq & Hsl).
              exists st, w'. split; [exact Hrun|].
              split; [exact Hsub|]. split; [exact Hreq|]. split; [exact Hsl|].
              split; [right; now rewrite Hset|]. split; [|split; [|split]].
              ** intros [(status & body & H & Hne)|(env' & H & Hc)].
                 --- inversion H; subst. contradiction.
                 --- inversion H; subst. congruence.
              ** intros [H|[H|(env' & H & _ & Hi)]]; try discriminate H.
                 inversion H; subst. congruence.
              ** intros l' e Hl'. rewrite Hl0 in Hl'. injection Hl' as <-.
                 rewrite Eloop. discriminate.
              ** intros l' s'' Hl'. rewrite Hl0 in Hl'. injection Hl' as <-.
                 rewrite Eloop. intros [= <-]. now split.
           ++ destruct (for_each_in_place_raise _ _ _ _ Eloop) as (s0 & Es0).
              rewrite Es0 in Hgrow |- *. simpl in Hgrow.
              destruct (Hquiet s0 Hgrow)
                as (st & w' & Hrun & Hset & Hsent & Hsub & Hreq & Hsl).
              exists st, w'. split; [exact Hrun|].
              split; [exact Hsub|]. split; [exact Hreq|]. split; [exact Hsl|].
              split; [now left|]. split; [|split; [|split]].
              ** intros [(status & body & H & Hne)|(env' & H & Hc)].
                 --- inversion H; subst. contradiction.
                 --- inversion H; subst. congruence.
              ** intros [H|[H|(env' & H & _ & Hi)]]; try discriminate H.
                 inversion H; subst. congruence.
              ** intros l' e' Hl' _. rewrite Hl0 in Hl'. injection Hl' as <-.
                 rewrite Es0. simpl. now split.
              ** intros l' s'' Hl'. rewrite Hl0 in Hl'. injection Hl' as <-.
                 rewrite Eloop. discriminate.
        -- (* the listing has no data *)
           destruct (Hquiet subscribed (reflexivity _))
             as (st & w' & Hrun & Hset & Hsent & Hsub & Hreq & Hsl).
           exists st, w'. split; [exact Hrun|].
           split; [exact Hsub|]. split; [exact Hreq|]. split; [exact Hsl|].
           split; [now left|]. split; [|split; [|split]].
           ++ intros [(status & body & H & Hne)|(env' & H & Hc)].
              ** inversion H; subst. contradiction.
              ** inversion H; subst. congruence.
           ++ intros _. now split.
           ++ intros l e Hl. unfold listing in Hl. simpl in Hl.
              rewrite Ecode, Eitems in Hl. discriminate Hl.
           ++ intros l s' Hl. unfold listing in Hl. simpl in Hl.
              rewrite Ecode, Eitems in Hl. discriminate Hl.
      * (* a code other than "0" *)
        destruct (Hsend subscribed (reflexivity _))
          as (st & w' & Hrun & Hset & Hsent & Hsub & Hreq & Hsl).
        exists st, w'. split; [exact Hrun|].
        split; [exact Hsub|]. split; [exact Hreq|]. split; [exact Hsl|].
        split; [right; now rewrite Hset|]. split; [|split; [|split]].
        -- intros _. now split.
        -- intros [H|[H|(env' & H & Hc & _)]]; try discriminate H.
           inversion H; subst. congruence.
        -- intros l e Hl. unfold listing in Hl. simpl in Hl.
           rewrite Ecode in Hl. discriminate Hl.
        -- intros l s' Hl. unfold listing in Hl. simpl in Hl.
           rewrite Ecode in Hl. discriminate Hl.
    + (* a status other than 200, with a body *)
      destruct (Hsend subscribed (reflexivity _))
        as (st & w' & Hrun & Hset & Hsent & Hsub & Hreq & Hsl).
      exists st, w'. split; [exact Hrun|].
      split; [exact Hsub|]. split; [exact Hreq|]. split; [exact Hsl|].
      split; [right; now rewrite Hset|]. split; [|split; [|split]].
      * intros _. now split.
      * intros [H|[H|(env' & H & _)]]; try discriminate H;
          inversion H; subst; discriminate Est.
      * intros l e Hl. unfold listing in Hl. rewrite Est in Hl. discriminate Hl.
      * intros l s' Hl. unfold listing in Hl. rewrite Est in Hl. discriminate Hl.
  - destruct (status =? 200)%Z eqn:Est.
    + (* status 200, a body that does not decode *)
      apply Z.eqb_eq in Est. subst status.
      destruct (Hquiet subscribed (reflexivity _))
        as (st & w' & Hrun & Hset & Hsent & Hsub & Hreq & Hsl).
      exists st, w'. split; [exact Hrun|].
      split; [exact Hsub|]. split; [exact Hreq|]. split; [exact Hsl|].
      split; [now left|]. split; [|split; [|split]].
      * intros [(status & body & H & Hne)|(env' & H & Hc)].
        -- inversion H; subst. contradiction.
        -- discriminate H.
      * intros _. now split.
      * intros l e Hl. discriminate Hl.
      * intros l s' Hl. discriminate Hl.
    + (* a status other than 200, without a body *)
      destruct (Hsend subscribed (reflexivity _))
        as (st & w' & Hrun & Hset & Hsent & Hsub & Hreq & Hsl).
      exists st, w'. split; [exact Hrun|].
      split; [exact Hsub|]. split; [exact Hreq|]. split; [exact Hsl|].
      split; [right; now rewrite Hset|]. split; [|split; [|split]].
      * intros _. now split.
      * intros [H|[H|(env' & H & _)]]; try discriminate H.
        inversion H; subst. discriminate Est.
      * intros l e Hl. discriminate Hl.
      * intros l s' Hl. discriminate Hl.
Qed.

Lemma okx_subscription_degrades_witness :
  exists st w',
    _subscribe_to_channels (Reply 503 None) 5 {[ "BTC-USDT-SWAP" ]} net_down
      (initial_world 0 []) = (Ok st, w')
    /\ _subscribed_symbols st = {[ "BTC-USDT-SWAP" ]}
    /\ sent st = [[funding_rate_arg "BTC-USDT-SWAP"; tickers_arg "BTC-USDT-SWAP"]].
Proof.
  destruct (okx_subscription_degrades (Reply 503 None) 5 {[ "BTC-USDT-SWAP" ]} net_down
              (initial_world 0 []))
    as (st & w' & Hrun & _ & _ & _ & _ & Hrefused & _).
  destruct Hrefused as [Hset Hsent].
  { left. exists 503%Z, None. split; [reflexivity | discriminate]. }
  exists st, w'. split; [exact Hrun|]. split; [exact Hset|].
  rewrite Hsent. vm_compute. reflexivity.
Defined.

(** *** The REST fetcher of Binance *)

Lemma get_binance_funding_rates_run
    (premium : response (option (list binance_premium_item)))
    (ticker24 : response (option (list binance_24hr_item)))
    (flag : bool) (net : Net) (w : World) (spot : gset string) (w1 : World) :
  spot_universe flag (get_spot_symbols binance) net w = (Ok spot, w1) ->
  get_binance_funding_rates premium ticker24 flag net w
  = (Ok (binance_rest_snapshot flag spot premium ticker24),
     if asks_for_tickers premium
     then background (with_event (Request binance_24hr_url)
                        (background (with_event (Request binance_premium_url) w1)))
     else background (with_event (Request binance_premium_url) w1)).
Proof.
  intros Hs. unfold get_binance_funding_rates, try_except.
  change get_binance_spot_symbols with (get_spot_symbols binance).
  unfold bind at 1. rewrite Hs.
  unfold bind at 1, session_get, binance_rest_snapshot, asks_for_tickers.
  destruct premium as [|status [prem_data|]]; simpl; try reflexivity.
  - destruct (status =? 200)%Z; simpl; [|reflexivity].
    unfold bind at 1, resp_json, ret. simpl.
    unfold bind at 1, ticker_data_of.
    destruct ticker24 as [|status2 [ticker_data|]]; simpl; try reflexivity.
    + destruct (status2 =? 200)%Z; unfold bind, ret, lift; simpl;
        destruct (binance_rest_join flag spot prem_data _); reflexivity.
    + destruct (status2 =? 200)%Z; unfold bind, ret, lift; simpl; [reflexivity|].
      destruct (binance_rest_join flag spot prem_data _); reflexivity.
  - destruct (status =? 200)%Z; reflexivity.
Qed.

Lemma binance_premium_step_keyed (flag : bool) (spot : gset string)
    (ticker_dict : dict binance_24hr_item) :
  keyed_step binance_premium_key_of flag spot (binance_premium_step flag spot ticker_dict).
Proof.
  intros item acc acc'. unfold binance_premium_step, binance_premium_key_of.
  destruct (pi_symbol item) as [| |sym]; simpl; try discriminate.
  destruct (usdt_suffix_key sym) as [k|]; [|now intros [= <-]].
  destruct (filtered_out flag spot k); [now intros [= <-]|].
  destruct (pi_lastFundingRate item), (quote_volume ticker_dict sym),
    (pi_markPrice item), (pi_nextFundingTime item); simpl; try discriminate.
  intros [= <-]. eexists. split; [|reflexivity]. reflexivity.
Qed.

Lemma binance_premium_key_canonical (item : binance_premium_item) (k : string) :
  binance_premium_key_of item = Some k -> endswith k "/USDT:USDT" = true.
Proof.
  unfold binance_premium_key_of. destruct (pi_symbol item) as [| |sym]; try discriminate.
  apply usdt_suffix_key_canonical.
Qed.

Lemma binance_rest_snapshot_cases (flag : bool) (spot : gset string)
    (premium : response (option (list binance_premium_item)))
    (ticker24 : response (option (list binance_24hr_item))) :
  binance_rest_snapshot flag spot premium ticker24 = []
  \/ exists status pl tl ticker_dict,
       premium = Reply status (Some (Some pl))
       /\ (status =? 200)%Z = true
       /\ ticker_data_of ticker24 = Ok (Some tl)
       /\ for_each ticker_dict_step tl [] = Ok ticker_dict
       /\ for_each (binance_premium_step flag spot ticker_dict) pl []
          = Ok (binance_rest_snapshot flag spot premium ticker24).
Proof.
  unfold binance_rest_snapshot.
  destruct premium as [|status [prem_data|]]; auto.
  destruct (status =? 200)%Z eqn:Est; auto.
  destruct (ticker_data_of ticker24) as [ticker_data|e] eqn:Et; simpl; auto.
  unfold binance_rest_join.
  destruct ticker_data as [tl|]; simpl; auto.
  destruct (for_each ticker_dict_step tl []) as [ticker_dict|e] eqn:Ed; simpl; auto.
  destruct prem_data as [pl|]; simpl; auto.
  destruct (for_each (binance_premium_step flag spot ticker_dict) pl []) as [s|e] eqn:El;
    auto.
  right. exists status, pl, tl, ticker_dict. auto.
Qed.

Lemma binance_rest_world_cache
    (premium : response (option (list binance_premium_item))) (w1 : World) :
  let w' := if asks_for_tickers premium
            then background (with_event (Request binance_24hr_url)
                               (background (with_event (Request binance_premium_url) w1)))
            else background (with_event (Request binance_premium_url) w1) in
  SPOT_SYMBOL_CACHE w' = SPOT_SYMBOL_CACHE w1
  /\ trace w' = (if asks_for_tickers premium
                 then [Request binance_24hr_url; Request binance_premium_url]
                 else [Request binance_premium_url]) ++ trace w1.
Proof.
  cbv zeta. destruct (asks_for_tickers premium);
    rewrite ?background_cache, ?background_trace; simpl;
    rewrite ?background_cache, ?background_trace; simpl; split; reflexivity.
Qed.

(** X22.  The REST fetcher of Binance hands back a well-formed snapshot or the
    empty one: every entry is stored once, under its own canonical key, was
    built from an element of the funding answer whose symbol gives that key,
    and with the filter on belongs to the cached spot universe. *)
Theorem binance_rest_snapshot_sound
    (premium : response (option (list binance_premium_item)))
    (ticker24 : response (option (list binance_24hr_item)))
    (flag : bool) (net : Net) (w : World) :
  exists snap w',
    get_binance_funding_rates premium ticker24 flag net w = (Ok snap, w')
    /\ Forall canonical_entry snap
    /\ NoDup (dict_keys snap)
    /\ (flag = true -> forall k, In k (dict_keys snap) -> k ∈ SPOT_SYMBOL_CACHE w' binance)
    /\ forall k e, In (k, e) snap ->
         exists status pl item sym r p T,
           premium = Reply status (Some (Some pl)) /\ In item pl
           /\ pi_symbol item = Val sym /\ usdt_suffix_key sym = Some k
           /\ pi_lastFundingRate item = Val r /\ rate e = (r * 100)%Q
           /\ pi_markPrice item = Val p /\ price e = p
           /\ pi_nextFundingTime item = Val T /\ next_funding e = T.
Proof.
  destruct (never_raises_returns _ net w (spot_universe_returns flag binance))
    as (spot & w1 & Hs).
  eexists _, _. split; [apply (get_binance_funding_rates_run _ _ _ _ _ _ _ Hs)|].
  destruct (binance_rest_world_cache premium w1) as [Hcache _]. cbv zeta in Hcache.
  rewrite Hcache.
  destruct (binance_rest_snapshot_cases flag spot premium ticker24)
    as [->|(status & pl & tl & td & Hp & Hst & Ht & Hd & Hl)].
  { split; [constructor|]. split; [apply NoDup_nil_2|].
    split; [intros _ k []|]. intros k e []. }
  split; [|split; [|split]].
  - refine (keyed_loop_canonical _ flag spot _ (binance_premium_step_keyed flag spot td)
              pl [] _ _ _ Hl); [|constructor].
    intros x k _. apply binance_premium_key_canonical.
  - refine (keyed_loop_unique _ flag spot _ pl [] _
              (binance_premium_step_keyed flag spot td) _ Hl).
    apply NoDup_nil_2.
  - intros Hflag k Hk.
    destruct (spot_universe_facts _ _ _ _ _ _ Hs) as (Hspot & _ & _).
    rewrite <- (Hspot Hflag).
    refine (keyed_loop_within_spot _ flag spot _ (binance_premium_step_keyed flag spot td)
              pl [] _ Hflag _ Hl k Hk).
    intros j [].
  - intros k e Hin. revert Hl k e Hin.
    set (origin := fun kv : string * FundingEntry =>
           exists status pl item sym r p T,
             premium = Reply status (Some (Some pl)) /\ In item pl
             /\ pi_symbol item = Val sym /\ usdt_suffix_key sym = Some (fst kv)
             /\ pi_lastFundingRate item = Val r /\ rate (snd kv) = (r * 100)%Q
             /\ pi_markPrice item = Val p /\ price (snd kv) = p
             /\ pi_nextFundingTime item = Val T /\ next_funding (snd kv) = T).
    intros Hl.
    assert (HF : Forall origin (binance_rest_snapshot flag spot premium ticker24)).
    { revert Hl. apply (for_each_invariant (Forall origin)); [constructor|].
      intros item a a' Hitem Ha. unfold binance_premium_step.
      destruct (pi_symbol item) as [| |sym] eqn:Esym; simpl; try discriminate.
      destruct (usdt_suffix_key sym) as [k|] eqn:Ek; [|now intros [= <-]].
      destruct (filtered_out flag spot k); [now intros [= <-]|].
      destruct (pi_lastFundingRate item) as [| |r] eqn:Er; simpl; try discriminate.
      destruct (quote_volume td sym) as [v|]; simpl; try discriminate.
      destruct (pi_markPrice item) as [| |p] eqn:Ep; simpl; try discriminate.
      destruct (pi_nextFundingTime item) as [| |T] eqn:ET; simpl; try discriminate.
      intros [= <-]. apply dict_set_Forall; [|exact Ha].
      exists status, pl, item, sym, r, p, T. simpl. auto 12. }
    intros k e Hin. rewrite List.Forall_forall in HF. exact (HF (k, e) Hin).
Qed.

Lemma binance_rest_snapshot_sound_witness :
  exists snap,
    fst (get_binance_funding_rates sample_premium sample_ticker24 false net_down
           (initial_world 0 [])) = Ok snap
    /\ Forall canonical_entry snap
    /\ snap = [("BTC/USDT:USDT",
                {| symbol := "BTC/USDT:USDT"; rate := (1 # 10000) * 100;
                   volume := 1000000; price := 65000; next_funding := 7200000 |})].
Proof.
  destruct (binance_rest_snapshot_sound sample_premium sample_ticker24 false net_down
              (initial_world 0 [])) as (snap & w' & Hrun & Hcan & _).
  exists snap. rewrite Hrun. split; [reflexivity|]. split; [exact Hcan|].
  assert (E : fst (get_binance_funding_rates sample_premium sample_ticker24 false
                     net_down (initial_world 0 [])) = Ok snap) by (now rewrite Hrun).
  vm_compute in E. injection E as <-. reflexivity.
Defined.

Lemma premium_step_without_tickers (flag : bool) (spot : gset string)
    (pl : list binance_premium_item) (acc r : snapshot) :
  Forall (fun kv => volume (snd kv) = 0%Q) acc ->
  for_each (binance_premium_step flag spot []) pl acc = Ok r ->
  Forall (fun kv => volume (snd kv) = 0%Q) r.
Proof.
  intros Hacc.
  apply (for_each_invariant (Forall (fun kv => volume (snd kv) = 0%Q))); [exact Hacc|].
  intros item a a' _ Ha. unfold binance_premium_step.
  destruct (pi_symbol item) as [| |sym]; simpl; try discriminate.
  destruct (usdt_suffix_key sym) as [k|]; [|now intros [= <-]].
  destruct (filtered_out flag spot k); [now intros [= <-]|].
  destruct (pi_lastFundingRate item); simpl; try discriminate.
  destruct (pi_markPrice item); simpl; try discriminate.
  destruct (pi_nextFundingTime item); simpl; try discriminate.
  intros [= <-]. apply dict_set_Forall; [reflexivity | exact Ha].
Qed.

(** X23.  The REST fetcher of Binance always returns, and the two endpoints fail
    differently.  When the funding endpoint does not answer with status 200
    and a body, the snapshot is empty and the volume endpoint is not asked.
    When the volume endpoint answers with another status, the snapshot is the
    one an empty volume list gives, every volume being zero; when the request
    to it fails or its body does not decode, the whole snapshot is lost. *)
Theorem binance_rest_degrades
    (premium : response (option (list binance_premium_item)))
    (ticker24 : response (option (list binance_24hr_item)))
    (flag : bool) (net : Net) (w : World) :
  exists snap w',
    get_binance_funding_rates premium ticker24 flag net w = (Ok snap, w')
    /\ requests_to binance_premium_url (trace w')
       = S (requests_to binance_premium_url (trace w))
    /\ (premium = ConnectionFailed
        \/ (exists status body, premium = Reply status body /\ status <> 200%Z)
        \/ premium = Reply 200 None ->
        snap = []
        /\ requests_to binance_24hr_url (trace w') = requests_to binance_24hr_url (trace w))
    /\ (ticker24 = ConnectionFailed \/ ticker24 = Reply 200 None -> snap = [])
    /\ (forall status body,
          ticker24 = Reply status body -> status <> 200%Z ->
          fst (get_binance_funding_rates premium (Reply 200 (Some (Some []))) flag net w)
          = Ok snap
          /\ Forall (fun kv => volume (snd kv) = 0%Q) snap).
Proof.
  destruct (never_raises_returns _ net w (spot_universe_returns flag binance))
    as (spot & w1 & Hs).
  eexists _, _. split; [apply (get_binance_funding_rates_run _ _ _ _ _ _ _ Hs)|].
  destruct (binance_rest_world_cache premium w1) as [_ Htrace]. cbv zeta in Htrace.
  rewrite Htrace.
  assert (Hp1 : requests_to binance_premium_url (trace w1)
                = requests_to binance_premium_url (trace w))
    by (apply (requests_after_spot_universe flag binance net w spot w1); [reflexivity | exact Hs]).
  assert (Hp2 : requests_to binance_24hr_url (trace w1)
                = requests_to binance_24hr_url (trace w))
    by (apply (requests_after_spot_universe flag binance net w spot w1); [reflexivity | exact Hs]).
  split; [|split; [|split]].
  - destruct (asks_for_tickers premium); simpl.
    + rewrite requests_to_other by reflexivity. now rewrite requests_to_same, Hp1.
    + now rewrite requests_to_same, Hp1.
  - intros Hfail.
    assert (Hno : asks_for_tickers premium = false
                  /\ binance_rest_snapshot flag spot premium ticker24 = []).
    { unfold asks_for_tickers, binance_rest_snapshot.
      destruct Hfail as [->|[(status & body & -> & Hne)| ->]]; auto.
      apply Z.eqb_neq in Hne. rewrite Hne. destruct body; auto. }
    destruct Hno as [-> ->]. split; [reflexivity|]. simpl.
    now rewrite requests_to_other by reflexivity.
  - intros Hfail. unfold binance_rest_snapshot.
    destruct premium as [|status [prem_data|]]; auto.
    destruct (status =? 200)%Z; auto.
    destruct Hfail as [-> | ->]; reflexivity.
  - intros status body -> Hne. apply Z.eqb_neq in Hne.
    rewrite (get_binance_funding_rates_run _ _ _ _ _ _ _ Hs). simpl fst.
    assert (Heq : binance_rest_snapshot flag spot premium (Reply status body)
                  = binance_rest_snapshot flag spot premium (Reply 200 (Some (Some [])))).
    { unfold binance_rest_snapshot, ticker_data_of. now rewrite Hne. }
    split; [now rewrite Heq|].
    rewrite Heq.
    destruct (binance_rest_snapshot_cases flag spot premium (Reply 200 (Some (Some []))))
      as [->|(st & pl & tl & td & _ & _ & Ht & Hd & Hl)]; [constructor|].
    simpl in Ht. injection Ht as <-. simpl in Hd. injection Hd as <-.
    apply (premium_step_without_tickers flag spot pl [] _ (List.Forall_nil _) Hl).
Qed.

Lemma binance_rest_degrades_witness :
  exists snap,
    fst (get_binance_funding_rates sample_premium (Reply 503 None) false net_down
           (initial_world 0 [])) = Ok snap
    /\ Forall (fun kv => volume (snd kv) = 0%Q) snap
    /\ dict_keys snap = ["BTC/USDT:USDT"].
Proof.
  destruct (binance_rest_degrades sample_premium (Reply 503 None) false net_down
              (initial_world 0 [])) as (snap & w' & Hrun & _ & _ & _ & Hvol).
  destruct (Hvol 503%Z None eq_refl) as [_ H0]; [discriminate|].
  exists snap. rewrite Hrun. split; [reflexivity|]. split; [exact H0|].
  assert (E : fst (get_binance_funding_rates sample_premium (Reply 503 None) false
                     net_down (initial_world 0 [])) = Ok snap) by (now rewrite Hrun).
  vm_compute in E. injection E as <-. reflexivity.
Defined.

(** *** The REST fetcher of OKX *)

Lemma bind_ok {A B} (m : M A) (k : A -> M B) (net : Net) (w w1 : World) (a : A) :
  m net w = (Ok a, w1) -> bind m k net w = k a net w1.
Proof. intros H. unfold bind. now rewrite H. Qed.

Lemma advanced_refl (w : World) : advanced w w 0 0.
Proof. unfold advanced. repeat split; lia. Qed.

Lemma advanced_trans (w w1 w2 : World) (s1 r1 s2 r2 : nat) :
  advanced w w1 s1 r1 -> advanced w1 w2 s2 r2 -> advanced w w2 (s1 + s2) (r1 + r2).
Proof.
  intros (Hs1 & Hr1 & Hc1) (Hs2 & Hr2 & Hc2). unfold advanced.
  rewrite Hs2, Hr2, Hc2, Hs1, Hr1, Hc1. repeat split; lia.
Qed.

Lemma advanced_request (url : string) (w : World) :
  advanced w (background (with_event (Request url) w)) 0 1.
Proof.
  unfold advanced. rewrite background_trace, background_cache. simpl.
  unfold requests_in, sleeps_in. simpl. repeat split; lia.
Qed.

Lemma advanced_sleep (d : Q) (net : Net) (w : World) :
  advanced w (snd (asyncio_sleep d net w)) 1 0.
Proof.
  unfold advanced, asyncio_sleep. simpl snd.
  rewrite background_trace, background_cache. simpl.
  unfold requests_in, sleeps_in. simpl. repeat split; lia.
Qed.

Lemma gather_requests_run {P} (url : string -> string) (reply : string -> response P)
    (batch : list string) (net : Net) (w : World) :
  exists w',
    gather (map (fun inst_id => request_gathered (url inst_id) (reply inst_id)) batch) net w
    = (Ok (map reply batch), w')
    /\ advanced w w' 0 (length batch).
Proof.
  revert w. induction batch as [|x batch IH]; intros w.
  - exists w. split; [reflexivity | apply advanced_refl].
  - set (w1 := background (with_event (Request (url x)) w)).
    destruct (IH w1) as (w' & Hrun & Hadv).
    exists w'. split.
    + simpl map. simpl gather.
      rewrite (bind_ok _ _ net w w1 (reply x)) by reflexivity.
      rewrite (bind_ok _ _ net w1 w' (map reply batch) Hrun). reflexivity.
    + apply (advanced_trans w w1 w' 0 1 0 (length batch)); [|exact Hadv].
      apply advanced_request.
Qed.

Lemma fold_left_combine_map {A B C S} (f : A -> B) (g : A -> C)
    (step : S -> A * (B * C) -> S) (l : list A) (acc : S) :
  fold_left step (combine l (combine (map f l) (map g l))) acc
  = fold_left (fun a x => step a (x, (f x, g x))) l acc.
Proof.
  revert acc. induction l as [|x l IH]; intros acc; [reflexivity|]. simpl. apply IH.
Qed.

Lemma okx_rest_batch_run
    (funding : string -> response (envelope string okx_funding_item))
    (ticker : string -> response (envelope string okx_ticker_item))
    (flag : bool) (spot : gset string) (batch : list string) (res : snapshot)
    (net : Net) (w : World) :
  exists w',
    okx_rest_batch funding ticker flag spot batch res net w
    = (Ok (okx_rest_collect funding ticker flag spot batch res), w')
    /\ advanced w w' 1 (2 * length batch).
Proof.
  destruct (gather_requests_run okx_funding_url funding batch net w) as (w1 & Hf & Ha1).
  destruct (gather_requests_run okx_ticker_url ticker batch net w1) as (w2 & Ht & Ha2).
  exists (snd (asyncio_sleep (1 # 10) net w2)). split.
  - unfold okx_rest_batch.
    rewrite (bind_ok _ _ net w w1 _ Hf), (bind_ok _ _ net w1 w2 _ Ht). cbv zeta.
    rewrite (bind_ok _ _ net w2 (snd (asyncio_sleep (1 # 10) net w2)) tt) by reflexivity.
    unfold ret, okx_rest_collect. now rewrite fold_left_combine_map.
  - replace (2 * length batch)%nat with (0 + length batch + length batch + 0)%nat by lia.
    change 1%nat with (0 + 0 + 1)%nat.
    eapply advanced_trans; [eapply advanced_trans; [exact Ha1 | exact Ha2]|].
    apply advanced_sleep.
Qed.

Lemma okx_rest_collect_app
    (funding : string -> response (envelope string okx_funding_item))
    (ticker : string -> response (envelope string okx_ticker_item))
    (flag : bool) (spot : gset string) (a b : list string) (res : snapshot) :
  okx_rest_collect funding ticker flag spot (a ++ b) res
  = okx_rest_collect funding ticker flag spot b
      (okx_rest_collect funding ticker flag spot a res).
Proof. unfold okx_rest_collect. apply fold_left_app. Qed.

Lemma okx_rest_batches_run
    (funding : string -> response (envelope string okx_funding_item))
    (ticker : string -> response (envelope string okx_ticker_item))
    (flag : bool) (spot : gset string) (bs : list (list string)) (res : snapshot)
    (net : Net) (w : World) :
  exists w',
    for_each_M (okx_rest_batch funding ticker flag spot) bs res net w
    = (Ok (okx_rest_collect funding ticker flag spot (concat bs) res), w')
    /\ advanced w w' (length bs) (2 * length (concat bs)).
Proof.
  revert res w. induction bs as [|b bs IH]; intros res w.
  - exists w. split; [reflexivity | apply advanced_refl].
  - destruct (okx_rest_batch_run funding ticker flag spot b res net w) as (w1 & Hb & Ha1).
    destruct (IH (okx_rest_collect funding ticker flag spot b res) w1) as (w' & Hr & Ha2).
    exists w'. split.
    + simpl for_each_M. rewrite (bind_ok _ _ net w w1 _ Hb), Hr.
      simpl concat. now rewrite okx_rest_collect_app.
    + simpl concat. rewrite length_app. simpl length.
      replace (S (length bs)) with (1 + length bs)%nat by lia.
      replace (2 * (length b + length (concat bs)))%nat
        with (2 * length b + 2 * length (concat bs))%nat by lia.
      eapply advanced_trans; eassumption.
Qed.

Lemma get_okx_funding_rates_run
    (instruments : response (envelope string okx_swap_inst))
    (funding : string -> response (envelope string okx_funding_item))
    (ticker : string -> response (envelope string okx_ticker_item))
    (flag : bool) (net : Net) (w : World) (spot : gset string) (w1 : World) :
  spot_universe flag (get_spot_symbols okx) net w = (Ok spot, w1) ->
  exists w',
    get_okx_funding_rates instruments funding ticker flag net w
    = (Ok match okx_swap_symbols instruments with
          | Some ids => okx_rest_collect funding ticker flag spot ids []
          | None => []
          end, w')
    /\ advanced w1 w'
         match okx_swap_symbols instruments with
         | Some ids => (length ids + 19) / 20
         | None => 0
         end
         match okx_swap_symbols instruments with
         | Some ids => 1 + 2 * length ids
         | None => 1
         end.
Proof.
  intros Hs.
  set (w2 := background (with_event (Request okx_swap_instruments_url) w1)).
  assert (Ha : advanced w1 w2 0 1) by apply advanced_request.
  unfold get_okx_funding_rates, try_except.
  change get_okx_spot_symbols with (get_spot_symbols okx).
  rewrite (bind_ok _ _ net w w1 spot Hs).
  unfold okx_swap_symbols, listing, session_get at 1, bind at 1. fold w2.
  destruct instruments as [|status [env|]].
  - exists w2. split; [reflexivity | exact Ha].
  - cbn [fst snd]. destruct (status =? 200)%Z; simpl andb.
    + unfold resp_json. cbn [fst snd]. unfold bind at 1, ret at 1.
      destruct (code_is "0" (env_code env)).
      * unfold bind at 1, lift.
        destruct (env_items env) as [l|]; simpl rbind.
        -- destruct (for_each okx_swap_step l []) as [ids|e].
           ++ destruct (okx_rest_batches_run funding ticker flag spot
                          (batches 20 ids) [] net w2) as (w' & Hr & Hadv).
              rewrite concat_batches in Hr, Hadv by lia.
              rewrite length_batches in Hadv.
              exists w'. split; [now rewrite Hr|].
              replace (length ids + 20 - 1)%nat with (length ids + 19)%nat in Hadv by lia.
              exact (advanced_trans w1 w2 w' 0 1 _ _ Ha Hadv).
           ++ exists w2. split; [reflexivity | exact Ha].
        -- exists w2. split; [reflexivity | exact Ha].
      * exists w2. split; [reflexivity | exact Ha].
    + exists w2. split; [reflexivity | exact Ha].
  - cbn [fst snd]. destruct (status =? 200)%Z; simpl andb;
      exists w2; (split; [reflexivity | exact Ha]).
Qed.

Lemma okx_swap_step_spec (inst : okx_swap_inst) (s s' : list string) :
  okx_swap_step inst s = Ok s' ->
  forall id, In id s' <->
    In id s \/ (sw_settleCcy inst = Some "USDT" /\ sw_instId inst = Val id
                /\ endswith id "-USDT-SWAP" = true).
Proof.
  unfold okx_swap_step.
  destruct (sw_settleCcy inst) as [settle|]; simpl; [|discriminate].
  destruct (String.eqb_spec settle "USDT") as [->|Hne].
  - destruct (sw_instId inst) as [| |inst_id]; simpl; try discriminate.
    destruct (endswith inst_id "-USDT-SWAP") eqn:E; intros [= <-] id.
    + rewrite in_app_iff. simpl. split.
      * intros [H|[->|[]]]; [now left | right; auto].
      * intros [H|(_ & [= ->] & _)]; [now left | right; now left].
    + split; [now left|]. intros [H|(_ & [= ->] & H)]; [exact H | congruence].
  - intros [= <-] id. split; [now left|].
    intros [H|([= H] & _)]; [exact H | congruence].
Qed.

Lemma okx_swap_loop_spec (l : list okx_swap_inst) (s s' : list string) :
  for_each okx_swap_step l s = Ok s' ->
  forall id, In id s' <->
    In id s \/ exists inst, In inst l /\ sw_settleCcy inst = Some "USDT"
                            /\ sw_instId inst = Val id
                            /\ endswith id "-USDT-SWAP" = true.
Proof.
  revert s. induction l as [|inst l IH]; intros s; simpl.
  - intros [= <-] id. split; [now left|]. intros [H|(inst & [] & _)]. exact H.
  - destruct (okx_swap_step inst s) as [s1|e] eqn:E; simpl; [|discriminate].
    intros Hr id. rewrite (IH s1 Hr id), (okx_swap_step_spec inst s s1 E id).
    split.
    + intros [[H|H]|(i & Hi & H)]; [now left | right; exists inst; auto
                                   | right; exists i; auto].
    + intros [H|(i & [<-|Hi] & H)]; [now left; left | left; right; exact H
                                    | right; exists i; auto].
Qed.

Ltac okx_item_skipped :=
  exists None; split; [intros ?; reflexivity | intros ? ?; discriminate].

(** What one instrument does to [result] does not depend on [result]: it is
    left alone, or one entry is stored under the key of the instrument. *)
Lemma okx_rest_item_effect
    (funding : string -> response (envelope string okx_funding_item))
    (ticker : string -> response (envelope string okx_ticker_item))
    (flag : bool) (spot : gset string) (inst_id : string) :
  exists o : option FundingEntry,
    (forall res,
       okx_rest_item flag spot inst_id (funding inst_id) (ticker inst_id) res
       = match o with
         | Some e => dict_set (okx_key inst_id) e res
         | None => res
         end)
    /\ forall e, o = Some e ->
         symbol e = okx_key inst_id
         /\ filtered_out flag spot (okx_key inst_id) = false
         /\ okx_rest_origin funding ticker inst_id e.
Proof.
  unfold okx_rest_item, okx_rest_origin.
  destruct (funding inst_id) as [|fs fb] eqn:Ef; [okx_item_skipped|].
  destruct (ticker inst_id) as [|ts tb] eqn:Et; [okx_item_skipped|].
  destruct (fs =? 200)%Z eqn:Efs; simpl; [|okx_item_skipped].
  destruct (ts =? 200)%Z eqn:Ets; simpl; [|okx_item_skipped].
  apply Z.eqb_eq in Efs, Ets. subst fs ts.
  unfold okx_rest_item_body.
  destruct fb as [fenv|]; simpl; [|okx_item_skipped].
  destruct tb as [tenv|]; simpl; [|okx_item_skipped].
  destruct (code_is "0" (env_code fenv) && code_is "0" (env_code tenv));
    [|okx_item_skipped].
  destruct (env_items fenv) as [[|fi frest]|] eqn:Efl; simpl; try okx_item_skipped.
  destruct (env_items tenv) as [[|ti trest]|] eqn:Etl; simpl; try okx_item_skipped.
  destruct (filtered_out flag spot (okx_key inst_id)) eqn:Eflt; [okx_item_skipped|].
  destruct (of_fundingRate fi) as [| |r] eqn:Er; simpl; try okx_item_skipped.
  destruct (get_default 0%Q (ot_volCcy24h ti)) as [v|]; simpl; [|okx_item_skipped].
  destruct (ot_last ti) as [| |p] eqn:Ep; simpl; try okx_item_skipped.
  destruct (of_nextFundingTime fi) as [| |T] eqn:ET; simpl; try okx_item_skipped.
  eexists (Some _). split; [intros ?; reflexivity|].
  intros e' [= <-]. split; [reflexivity|]. split; [reflexivity|].
  exists fenv, fi, frest, tenv, ti, trest, r, p, T. simpl. auto 12.
Qed.

Lemma okx_rest_collect_isolated
    (funding funding2 : string -> response (envelope string okx_funding_item))
    (ticker ticker2 : string -> response (envelope string okx_ticker_item))
    (flag : bool) (spot : gset string) (bad : string) (ids : list string)
    (a1 a2 : snapshot) :
  (forall id, id <> bad -> funding2 id = funding id /\ ticker2 id = ticker id) ->
  (forall k, k <> okx_key bad -> dict_get k a2 = dict_get k a1) ->
  forall k, k <> okx_key bad ->
    dict_get k (okx_rest_collect funding2 ticker2 flag spot ids a2)
    = dict_get k (okx_rest_collect funding ticker flag spot ids a1).
Proof.
  intros Hsame. revert a1 a2. unfold okx_rest_collect.
  induction ids as [|x ids IH]; intros a1 a2 Hacc; simpl; [exact Hacc|].
  apply IH. intros k Hk.
  destruct (okx_rest_item_effect funding ticker flag spot x) as (o1 & H1 & _).
  destruct (okx_rest_item_effect funding2 ticker2 flag spot x) as (o2 & H2 & _).
  destruct (String.eqb_spec x bad) as [->|Hne].
  - rewrite H1, H2.
    assert (Hbad : okx_key bad <> k) by congruence.
    destruct o1, o2; rewrite ?(dict_get_set_ne _ _ _ _ Hbad); now apply Hacc.
  - destruct (Hsame x Hne) as [Ef Et]. rewrite Ef, Et, !H1.
    destruct o1 as [e|]; [|now apply Hacc].
    destruct (String.eqb_spec (okx_key x) k) as [<-|Hx].
    + now rewrite !dict_get_set_eq.
    + rewrite !(dict_get_set_ne _ _ _ _ Hx). now apply Hacc.
Qed.

(** X24.  A failure about one instrument costs that instrument only: two runs of
    the REST fetcher of OKX whose per-instrument answers differ for one
    instrument return, and their snapshots agree under every key but the key
    of that instrument. *)
Theorem okx_rest_isolates_instruments
    (instruments : response (envelope string okx_swap_inst))
    (funding funding2 : string -> response (envelope string okx_funding_item))
    (ticker ticker2 : string -> response (envelope string okx_ticker_item))
    (flag : bool) (net : Net) (w : World) (bad : string) :
  (forall id, id <> bad -> funding2 id = funding id /\ ticker2 id = ticker id) ->
  exists snap snap2 w' w2',
    get_okx_funding_rates instruments funding ticker flag net w = (Ok snap, w')
    /\ get_okx_funding_rates instruments funding2 ticker2 flag net w = (Ok snap2, w2')
    /\ forall k, k <> okx_key bad -> dict_get k snap2 = dict_get k snap.
Proof.
  intros Hsame.
  destruct (never_raises_returns _ net w (spot_universe_returns flag okx))
    as (spot & w1 & Hs).
  destruct (get_okx_funding_rates_run instruments funding ticker flag net w spot w1 Hs)
    as (w' & Hrun & _).
  destruct (get_okx_funding_rates_run instruments funding2 ticker2 flag net w spot w1 Hs)
    as (w2' & Hrun2 & _).
  eexists _, _, w', w2'. split; [exact Hrun|]. split; [exact Hrun2|].
  destruct (okx_swap_symbols instruments) as [ids|]; [|reflexivity].
  now apply okx_rest_collect_isolated.
Qed.

Lemma okx_rest_isolates_instruments_witness :
  exists snap snap2,
    fst (get_okx_funding_rates sample_swap_listing sample_okx_funding sample_okx_ticker
           false net_down (initial_world 0 [])) = Ok snap
    /\ fst (get_okx_funding_rates sample_swap_listing sample_okx_funding_down
              sample_okx_ticker false net_down (initial_world 0 [])) = Ok snap2
    /\ dict_get "BTC/USDT:USDT" snap2 = dict_get "BTC/USDT:USDT" snap
    /\ is_Some (dict_get "BTC/USDT:USDT" snap).
Proof.
  assert (Hsame : forall id, id <> "ETH-USDT-SWAP" ->
                    sample_okx_funding_down id = sample_okx_funding id
                    /\ sample_okx_ticker id = sample_okx_ticker id).
  { intros id Hne. split; [|reflexivity]. unfold sample_okx_funding_down.
    destruct (String.eqb_spec id "ETH-USDT-SWAP"); [contradiction | reflexivity]. }
  destruct (okx_rest_isolates_instruments sample_swap_listing
              sample_okx_funding sample_okx_funding_down
              sample_okx_ticker sample_okx_ticker
              false net_down (initial_world 0 []) "ETH-USDT-SWAP" Hsame)
    as (snap & snap2 & w' & w2' & Hrun & Hrun2 & Hiso).
  exists snap, snap2. rewrite Hrun, Hrun2.
  split; [reflexivity|]. split; [reflexivity|].
  split; [apply Hiso; discriminate|].
  assert (E : fst (get_okx_funding_rates sample_swap_listing sample_okx_funding
                     sample_okx_ticker false net_down (initial_world 0 [])) = Ok snap)
    by (now rewrite Hrun).
  vm_compute in E. injection E as <-. now eexists.
Defined.

(** X25.  The batches of 20 do not show in the result: with a listing that is read
    without an exception, the snapshot is the one a single loop over the
    listed USDT-settled [-USDT-SWAP] instruments gives, two requests are made
    for each of them after the listing request, and there is one pause for
    every 20 instruments. *)
Theorem okx_rest_batches_invisible
    (instruments : response (envelope string okx_swap_inst))
    (l : list okx_swap_inst) (ids : list string)
    (funding : string -> response (envelope string okx_funding_item))
    (ticker : string -> response (envelope string okx_ticker_item))
    (flag : bool) (net : Net) (w : World) :
  listing (code_is "0") instruments = Some l ->
  for_each okx_swap_step l [] = Ok ids ->
  exists spot w1 snap w',
    spot_universe flag (get_spot_symbols okx) net w = (Ok spot, w1)
    /\ get_okx_funding_rates instruments funding ticker flag net w = (Ok snap, w')
    /\ snap = okx_rest_collect funding ticker flag spot ids []
    /\ (forall id, In id ids <->
          exists inst, In inst l /\ sw_settleCcy inst = Some "USDT"
                       /\ sw_instId inst = Val id /\ endswith id "-USDT-SWAP" = true)
    /\ requests_in (trace w') = (requests_in (trace w1) + 1 + 2 * length ids)%nat
    /\ sleeps_in (trace w') = (sleeps_in (trace w) + (length ids + 19) / 20)%nat.
Proof.
  intros Hlisting Hloop.
  destruct (never_raises_returns _ net w (spot_universe_returns flag okx))
    as (spot & w1 & Hs).
  destruct (get_okx_funding_rates_run instruments funding ticker flag net w spot w1 Hs)
    as (w' & Hrun & Hadv).
  assert (Hids : okx_swap_symbols instruments = Some ids)
    by (unfold okx_swap_symbols; now rewrite Hlisting, Hloop).
  rewrite Hids in Hrun, Hadv. destruct Hadv as (Hsl & Hrq & _).
  exists spot, w1, (okx_rest_collect funding ticker flag spot ids []), w'.
  split; [exact Hs|]. split; [exact Hrun|].
  split; [reflexivity|]. split; [|split].
  - intros id. rewrite (okx_swap_loop_spec l [] ids Hloop id). simpl. tauto.
  - rewrite Hrq. lia.
  - rewrite Hsl. now rewrite (proj1 (sleeps_after_spot_universe _ _ _ _ _ _ Hs)).
Qed.

Lemma okx_rest_batches_invisible_witness :
  exists snap w',
    get_okx_funding_rates sample_swap_listing sample_okx_funding sample_okx_ticker
      false net_down (initial_world 0 []) = (Ok snap, w')
    /\ dict_keys snap = ["BTC/USDT:USDT"]
    /\ requests_in (trace w') = 5%nat
    /\ sleeps_in (trace w') = 1%nat.
Proof.
  destruct (okx_rest_batches_invisible sample_swap_listing sample_swap_instruments
              ["BTC-USDT-SWAP"; "ETH-USDT-SWAP"] sample_okx_funding sample_okx_ticker
              false net_down (initial_world 0 []) eq_refl eq_refl)
    as (spot & w1 & snap & w' & Hs & Hrun & Hsnap & _ & Hrq & Hsl).
  injection Hs as <- <-.
  exists snap, w'. split; [exact Hrun|]. split; [|split].
  - rewrite Hsnap. vm_compute. reflexivity.
  - rewrite Hrq. reflexivity.
  - rewrite Hsl. reflexivity.
Defined.

(** X26.  The REST fetcher of OKX hands back a well-formed snapshot, or the empty
    one when the listing cannot be used: every entry is stored once, under
    its own canonical key, was built from the answers about a listed
    instrument with that key, and with the filter on belongs to the cached
    spot universe. *)
Theorem okx_rest_snapshot_sound
    (instruments : response (envelope string okx_swap_inst))
    (funding : string -> response (envelope string okx_funding_item))
    (ticker : string -> response (envelope string okx_ticker_item))
    (flag : bool) (net : Net) (w : World) :
  exists snap w',
    get_okx_funding_rates instruments funding ticker flag net w = (Ok snap, w')
    /\ Forall canonical_entry snap
    /\ NoDup (dict_keys snap)
    /\ (flag = true -> forall k, In k (dict_keys snap) -> k ∈ SPOT_SYMBOL_CACHE w' okx)
    /\ (okx_swap_symbols instruments = None -> snap = [])
    /\ forall k e, In (k, e) snap ->
         exists ids inst_id,
           okx_swap_symbols instruments = Some ids /\ In inst_id ids
           /\ k = okx_key inst_id
           /\ okx_rest_origin funding ticker inst_id e.
Proof.
  destruct (never_raises_returns _ net w (spot_universe_returns flag okx))
    as (spot & w1 & Hs).
  destruct (get_okx_funding_rates_run instruments funding ticker flag net w spot w1 Hs)
    as (w' & Hrun & (_ & _ & Hcache)).
  eexists _, w'. split; [exact Hrun|]. rewrite Hcache.
  destruct (okx_swap_symbols instruments) as [ids|].
  2:{ split; [constructor|]. split; [apply NoDup_nil_2|].
      split; [intros _ k []|]. split; [reflexivity | intros k e []]. }
  set (good := fun s : snapshot =>
         Forall canonical_entry s /\ NoDup (dict_keys s)
         /\ (flag = true -> forall k, In k (dict_keys s) -> k ∈ spot)
         /\ Forall (fun kv => exists inst_id,
                      In inst_id ids /\ fst kv = okx_key inst_id
                      /\ okx_rest_origin funding ticker inst_id (snd kv)) s).
  assert (Hgood : good (okx_rest_collect funding ticker flag spot ids [])).
  { unfold okx_rest_collect. apply (fold_left_invariant good).
    - repeat split; try constructor. intros _ k [].
    - intros x a Hx (Hcan & Hnd & Hflt & Horg).
      destruct (okx_rest_item_effect funding ticker flag spot x) as (o & -> & Ho).
      destruct o as [e|]; [|repeat split; assumption].
      destruct (Ho e eq_refl) as (Hsym & Hpass & He).
      split; [|split; [|split]].
      + apply dict_set_Forall; [|exact Hcan]. split; simpl; [exact Hsym|].
        unfold okx_key. apply ccxt_canonical.
      + now apply dict_set_NoDup.
      + intros Hflag k Hk. apply dict_keys_set in Hk as [->|Hk]; [|now apply Hflt].
        subst flag. now apply filtered_out_true.
      + apply dict_set_Forall; [|exact Horg]. exists x. simpl. auto. }
  destruct Hgood as (Hcan & Hnd & Hflt & Horg).
  split; [exact Hcan|]. split; [exact Hnd|]. split.
  - intros Hflag k Hk.
    destruct (spot_universe_facts _ _ _ _ _ _ Hs) as (Hspot & _ & _).
    rewrite <- (Hspot Hflag). now apply Hflt.
  - split; [discriminate|]. intros k e Hin.
    rewrite List.Forall_forall in Horg.
    destruct (Horg (k, e) Hin) as (inst_id & Hid & Hk & He).
    exists ids, inst_id. auto.
Qed.
